(** * Webhook configuration and dispatch of wweb-mcp, embedded in Rocq

    The development follows [src/whatsapp-client.ts] (the configuration
    store, its file watcher, the message handler and the payload
    builder) and the webhook tools of the MCP server.

    - [Json]    : JSON values, [JSON.stringify(v, null, 2)] and [JSON.parse]
    - [Config]  : the [WebhookConfig] interface and its object form
    - [Store]   : module-level state, file system, logger, the
                  configuration functions and the watcher callback;
                  what [fs.watch] does is a parameter of the functions
                  that call it
    - [Handler] : the asynchronous message handler as a tree of
                  interactions, [prepareWebhookPayload], and its runs
    - [Tools]   : the webhook tools of the MCP server
    - [Startup] : [createWhatsAppClient] up to the construction of the
                  client
    - [Server]  : the tool that reads the configuration
    - [StaticClient] : the client of [src/unnamed/part_000], which
                  reads its configuration once *)

From Stdlib Require Import ZArith NArith Lia Ascii.
From stdpp Require Import base strings list gmap.

(* ================================================================== *)
(** * JSON text *)
(* ================================================================== *)

Module Json.

(** A JavaScript value as [JSON.parse] builds it.  Strings stand for
    their UTF-8 bytes, the form in which [fs.readFileSync(p, 'utf8')] and
    [fs.writeFileSync] see them (file text is taken to be valid UTF-8).
    A number keeps the text of its literal: nothing in the modelled code
    computes with numbers.  An object keeps its members in textual order,
    one entry per key.  JavaScript itself holds a number as a double and
    lists the integer-like keys of an object first: the value built here
    is the JavaScript value where the text has no number and no
    integer-like key, as is the case for every configuration. *)
#[warnings="-register-all"]
Inductive json : Type :=
| JNull
| JBool (b : bool)
| JNum (lit : string)
| JStr (s : string)
| JArr (xs : list json)
| JObj (kvs : list (string * json)).

(** ** Characters *)

Definition dquote : ascii := "034"%char.
Definition backslash : ascii := "092"%char.
Definition newline : ascii := "010"%char.

Definition is_ws (c : ascii) : bool :=
  match c with
  | " "%char | "009"%char | "010"%char | "013"%char => true
  | _ => false
  end.

Definition is_digit (c : ascii) : bool :=
  (48 <=? N_of_ascii c)%N && (N_of_ascii c <=? 57)%N.

Definition is_digit19 (c : ascii) : bool :=
  (49 <=? N_of_ascii c)%N && (N_of_ascii c <=? 57)%N.

Definition is_control (c : ascii) : bool := (N_of_ascii c <? 32)%N.

Definition hex_digit (n : N) : ascii :=
  if (n <? 10)%N then ascii_of_N (48 + n) else ascii_of_N (87 + n).

Definition hex_value (c : ascii) : option N :=
  let n := N_of_ascii c in
  if (48 <=? n)%N && (n <=? 57)%N then Some (n - 48)%N
  else if (97 <=? n)%N && (n <=? 102)%N then Some (n - 87)%N
  else if (65 <=? n)%N && (n <=? 70)%N then Some (n - 55)%N
  else None.

Definition hex4 (a b c d : ascii) : option N :=
  match hex_value a, hex_value b, hex_value c, hex_value d with
  | Some x, Some y, Some z, Some w => Some (((x * 16 + y) * 16 + z) * 16 + w)%N
  | _, _, _, _ => None
  end.

(** UTF-8 bytes of a code point (a lone surrogate takes the generalised
    three-byte form). *)
Definition utf8 (cp : N) : string :=
  if (cp <? 128)%N then String (ascii_of_N cp) ""
  else if (cp <? 2048)%N then
    String (ascii_of_N (192 + cp / 64))
      (String (ascii_of_N (128 + cp mod 64)) "")
  else if (cp <? 65536)%N then
    String (ascii_of_N (224 + cp / 4096))
      (String (ascii_of_N (128 + (cp / 64) mod 64))
        (String (ascii_of_N (128 + cp mod 64)) ""))
  else
    String (ascii_of_N (240 + cp / 262144))
      (String (ascii_of_N (128 + (cp / 4096) mod 64))
        (String (ascii_of_N (128 + (cp / 64) mod 64))
          (String (ascii_of_N (128 + cp mod 64)) ""))).

Definition is_high_surrogate (n : N) : bool := (55296 <=? n)%N && (n <=? 56319)%N.
Definition is_low_surrogate (n : N) : bool := (56320 <=? n)%N && (n <=? 57343)%N.

(** ** [JSON.stringify(v, null, 2)] *)

(** QuoteJSONString, one character at a time. *)
Definition escape_char (c : ascii) : string :=
  if Ascii.eqb c dquote then String backslash (String dquote "")
  else if Ascii.eqb c backslash then String backslash (String backslash "")
  else if Ascii.eqb c "008"%char then String backslash "b"
  else if Ascii.eqb c "012"%char then String backslash "f"
  else if Ascii.eqb c "010"%char then String backslash "n"
  else if Ascii.eqb c "013"%char then String backslash "r"
  else if Ascii.eqb c "009"%char then String backslash "t"
  else if is_control c then
    String backslash
      (String "u" (String "0" (String "0"
        (String (hex_digit (N_of_ascii c / 16))
          (String (hex_digit (N_of_ascii c mod 16)) "")))))
  else String c "".

Fixpoint quote_body (s : string) : string :=
  match s with
  | "" => ""
  | String c r => escape_char c +:+ quote_body r
  end.

Definition quote (s : string) : string :=
  String dquote (quote_body s +:+ String dquote "").

Fixpoint spaces (n : nat) : string :=
  match n with
  | O => ""
  | S k => String " " (spaces k)
  end.

(** Line break followed by the indentation of nesting level [n]
    (the gap is two spaces). *)
Definition nl (n : nat) : string := String newline (spaces (2 * n)).

(** SerializeJSONProperty at nesting level [n].  A number is written
    as its literal was read, where JavaScript writes the shortest form
    of the double: the text is that of [JSON.stringify] on the values
    without numbers and integer-like keys, among them every
    configuration. *)
Fixpoint ser (n : nat) (v : json) : string :=
  match v with
  | JNull => "null"
  | JBool true => "true"
  | JBool false => "false"
  | JNum lit => lit
  | JStr s => quote s
  | JArr [] => "[]"
  | JArr (x :: xs) =>
      "[" +:+ nl (S n) +:+ ser (S n) x +:+
      (fix items (l : list json) : string :=
         match l with
         | [] => nl n +:+ "]"
         | y :: l' => "," +:+ nl (S n) +:+ ser (S n) y +:+ items l'
         end) xs
  | JObj [] => "{}"
  | JObj ((k, x) :: kvs) =>
      "{" +:+ nl (S n) +:+ quote k +:+ ": " +:+ ser (S n) x +:+
      (fix members (l : list (string * json)) : string :=
         match l with
         | [] => nl n +:+ "}"
         | (k', y) :: l' =>
             "," +:+ nl (S n) +:+ quote k' +:+ ": " +:+ ser (S n) y +:+ members l'
         end) kvs
  end.

(** [JSON.stringify(value, null, 2)]; [undefined] gives [undefined]. *)
Definition JSON_stringify (value : option json) : option string :=
  match value with
  | None => None
  | Some v => Some (ser 0 v)
  end.

(** ** [JSON.parse] *)

Fixpoint skip_ws (s : string) : string :=
  match s with
  | String c r => if is_ws c then skip_ws r else s
  | "" => ""
  end.

Definition unescape (e : ascii) : option ascii :=
  if Ascii.eqb e dquote then Some dquote
  else if Ascii.eqb e backslash then Some backslash
  else if Ascii.eqb e "/"%char then Some "/"%char
  else if Ascii.eqb e "b"%char then Some "008"%char
  else if Ascii.eqb e "f"%char then Some "012"%char
  else if Ascii.eqb e "n"%char then Some "010"%char
  else if Ascii.eqb e "r"%char then Some "013"%char
  else if Ascii.eqb e "t"%char then Some "009"%char
  else None.

(** The characters of a string literal after its opening quote, up to
    and including the closing quote. *)
Fixpoint parse_string_body (s : string) : option (string * string) :=
  match s with
  | "" => None
  | String c r =>
    if Ascii.eqb c dquote then Some ("", r)
    else if Ascii.eqb c backslash then
      match r with
      | "" => None
      | String e r1 =>
        if Ascii.eqb e "u"%char then
          match r1 with
          | String h1 (String h2 (String h3 (String h4 r2))) =>
            match hex4 h1 h2 h3 h4 with
            | None => None
            | Some hi =>
              let single :=
                match parse_string_body r2 with
                | Some (t, r') => Some (utf8 hi +:+ t, r')
                | None => None
                end in
              if is_high_surrogate hi then
                match r2 with
                | String b (String u (String l1 (String l2 (String l3 (String l4 r3))))) =>
                  if Ascii.eqb b backslash && Ascii.eqb u "u"%char then
                    match hex4 l1 l2 l3 l4 with
                    | Some lo =>
                      if is_low_surrogate lo then
                        match parse_string_body r3 with
                        | Some (t, r') =>
                            Some (utf8 (65536 + (hi - 55296) * 1024 + (lo - 56320)) +:+ t, r')
                        | None => None
                        end
                      else single
                    | None => single
                    end
                  else single
                | _ => single
                end
              else single
            end
          | _ => None
          end
        else
          match unescape e with
          | None => None
          | Some ch =>
            match parse_string_body r1 with
            | Some (t, r') => Some (String ch t, r')
            | None => None
            end
          end
      end
    else if is_control c then None
    else
      match parse_string_body r with
      | Some (t, r') => Some (String c t, r')
      | None => None
      end
  end.

(** The longest prefix of digits, and what follows it. *)
Fixpoint take_digits (s : string) : string * string :=
  match s with
  | String c r =>
      if is_digit c then let '(ds, r') := take_digits r in (String c ds, r')
      else ("", s)
  | "" => ("", "")
  end.

Definition parse_int_part (s : string) : option (string * string) :=
  match s with
  | String c r =>
      if Ascii.eqb c "0"%char then Some ("0", r)
      else if is_digit19 c then
        let '(ds, r') := take_digits r in Some (String c ds, r')
      else None
  | "" => None
  end.

Definition parse_frac_part (s : string) : option (string * string) :=
  match s with
  | String "."%char r =>
      match take_digits r with
      | ("", _) => None
      | (ds, r') => Some (String "." ds, r')
      end
  | _ => Some ("", s)
  end.

Definition parse_exp_part (s : string) : option (string * string) :=
  match s with
  | String e r =>
      if Ascii.eqb e "e"%char || Ascii.eqb e "E"%char then
        let '(sign, r1) :=
          match r with
          | String g r0 =>
              if Ascii.eqb g "+"%char || Ascii.eqb g "-"%char
              then (String g "", r0) else ("", r)
          | "" => ("", r)
          end in
        match take_digits r1 with
        | ("", _) => None
        | (ds, r') => Some (String e (sign +:+ ds), r')
        end
      else Some ("", s)
  | "" => Some ("", s)
  end.

(** A number literal: [-? int frac? exp?]. *)
Definition parse_number (s : string) : option (string * string) :=
  let '(sign, s0) :=
    match s with
    | String "-"%char r => ("-", r)
    | _ => ("", s)
    end in
  match parse_int_part s0 with
  | None => None
  | Some (i, s1) =>
    match parse_frac_part s1 with
    | None => None
    | Some (f, s2) =>
      match parse_exp_part s2 with
      | None => None
      | Some (e, s3) => Some (sign +:+ i +:+ f +:+ e, s3)
      end
    end
  end.

(** Outcome of a parsing function: a value and the unread text, a
    syntax error, or recursion budget used up. *)
Inductive presult (A : Type) : Type :=
| POk (a : A) (rest : string)
| PErr
| PFuel.
Arguments POk {A} a rest.
Arguments PErr {A}.
Arguments PFuel {A}.

(** Object members replace an earlier member of the same key, keeping
    its position. *)
Fixpoint obj_set (k : string) (v : json) (kvs : list (string * json))
  : list (string * json) :=
  match kvs with
  | [] => [(k, v)]
  | (k', v') :: r =>
      if String.eqb k k' then (k, v) :: r else (k', v') :: obj_set k v r
  end.

Definition obj_of_members (ms : list (string * json)) : list (string * json) :=
  fold_left (fun acc kv => obj_set (fst kv) (snd kv) acc) ms [].

Definition presult_map {A B : Type} (f : A → B) (r : presult A) : presult B :=
  match r with
  | POk a rest => POk (f a) rest
  | PErr => PErr
  | PFuel => PFuel
  end.

Definition presult_then {A B : Type} (r : presult A)
  (k : A → string → presult B) : presult B :=
  match r with
  | POk a rest => k a rest
  | PErr => PErr
  | PFuel => PFuel
  end.

(** [strip_prefix p s]: what follows [p] in [s], when [s] starts with [p]. *)
Fixpoint strip_prefix (p s : string) : option string :=
  match p with
  | "" => Some s
  | String a p' =>
      match s with
      | String b s' => if Ascii.eqb a b then strip_prefix p' s' else None
      | "" => None
      end
  end.

(** The next token is the character [c]: what follows it. *)
Definition token (c : ascii) (s : string) : option string :=
  match skip_ws s with
  | String a r => if Ascii.eqb a c then Some r else None
  | "" => None
  end.

Definition parse_literal (s : string) : presult json :=
  match strip_prefix "true" s with
  | Some r => POk (JBool true) r
  | None =>
    match strip_prefix "false" s with
    | Some r => POk (JBool false) r
    | None =>
      match strip_prefix "null" s with
      | Some r => POk JNull r
      | None =>
        match parse_number s with
        | Some (lit, r) => POk (JNum lit) r
        | None => PErr
        end
      end
    end
  end.

(** One level of the grammar, given the parsers of the levels below:
    [elements] reads what follows an opening bracket up to the closing
    one, [members] what follows an opening brace. *)
Definition value_step
  (elements : string → presult (list json))
  (members : string → presult (list (string * json)))
  (s : string) : presult json :=
  match skip_ws s with
  | "" => PErr
  | String c r =>
      if Ascii.eqb c "{"%char then
        match token "}"%char r with
        | Some r' => POk (JObj []) r'
        | None => presult_map (λ ms, JObj (obj_of_members ms)) (members r)
        end
      else if Ascii.eqb c "["%char then
        match token "]"%char r with
        | Some r' => POk (JArr []) r'
        | None => presult_map JArr (elements r)
        end
      else if Ascii.eqb c dquote then
        match parse_string_body r with
        | Some (str, r') => POk (JStr str) r'
        | None => PErr
        end
      else parse_literal (String c r)
  end.

Definition elements_step
  (value : string → presult json)
  (elements : string → presult (list json))
  (s : string) : presult (list json) :=
  presult_then (value s) (λ v r,
    match token ","%char r with
    | Some r' => presult_map (cons v) (elements r')
    | None =>
      match token "]"%char r with
      | Some r' => POk [v] r'
      | None => PErr
      end
    end).

Definition members_step
  (value : string → presult json)
  (members : string → presult (list (string * json)))
  (s : string) : presult (list (string * json)) :=
  match token dquote s with
  | None => PErr
  | Some r =>
    match parse_string_body r with
    | None => PErr
    | Some (k, r1) =>
      match token ":"%char r1 with
      | None => PErr
      | Some r2 =>
        presult_then (value r2) (λ v r3,
          match token ","%char r3 with
          | Some r4 => presult_map (cons (k, v)) (members r4)
          | None =>
            match token "}"%char r3 with
            | Some r4 => POk [(k, v)] r4
            | None => PErr
            end
          end)
      end
    end
  end.

Fixpoint parse_value (fuel : nat) (s : string) : presult json :=
  match fuel with
  | O => PFuel
  | S f => value_step (parse_elements f) (parse_members f) s
  end
with parse_elements (fuel : nat) (s : string) : presult (list json) :=
  match fuel with
  | O => PFuel
  | S f => elements_step (parse_value f) (parse_elements f) s
  end
with parse_members (fuel : nat) (s : string) : presult (list (string * json)) :=
  match fuel with
  | O => PFuel
  | S f => members_step (parse_value f) (parse_members f) s
  end.

(** [JSON.parse(text)]: [None] stands for the SyntaxError it throws. *)
Definition JSON_parse (text : string) : option json :=
  match parse_value (2 * String.length text + 1) text with
  | POk v r =>
      match skip_ws r with
      | "" => Some v
      | _ => None
      end
  | PErr => None
  | PFuel => None
  end.

(** ** Notions used in the statements about JSON text *)

(** What [ser] writes after the first element of an array, and after
    the first member of an object. *)
Fixpoint ser_items (n : nat) (l : list json) : string :=
  match l with
  | [] => nl n +:+ "]"
  | y :: l' => "," +:+ nl (S n) +:+ ser (S n) y +:+ ser_items n l'
  end.

Fixpoint ser_members (n : nat) (l : list (string * json)) : string :=
  match l with
  | [] => nl n +:+ "}"
  | (k, y) :: l' =>
      "," +:+ nl (S n) +:+ quote k +:+ ": " +:+ ser (S n) y +:+ ser_members n l'
  end.

(** [below r r']: [r'] is [r], unless [r] ran out of budget. *)
Definition below {A : Type} (r r' : presult A) : Prop := r = PFuel ∨ r = r'.

(** Values without numbers whose objects have distinct keys. *)

Fixpoint distinct (ks : list string) : bool :=
  match ks with
  | [] => true
  | k :: r => negb (existsb (String.eqb k) r) && distinct r
  end.

Fixpoint plain (v : json) : bool :=
  match v with
  | JNull | JBool _ | JStr _ => true
  | JNum _ => false
  | JArr xs => forallb plain xs
  | JObj kvs => distinct (map fst kvs) && forallb (λ kv, plain (snd kv)) kvs
  end.

End Json.

(* ================================================================== *)
(** * The WebhookConfig interface *)
(* ================================================================== *)

Module Config.
Import Json.

(** [interface WebhookConfig]: an optional member is [None] when the
    property is missing (or [undefined], which no code below tells
    apart from missing). *)
Record Filters : Type := {
  allowedNumbers : option (list string);
  allowPrivate : option bool;
  allowGroups : option bool;
}.

Record WebhookConfig : Type := {
  url : string;
  authToken : option string;
  filters : option Filters;
}.

(** ** The object of a configuration *)

Definition opt_member {A : Type} (k : string) (f : A → json) (o : option A)
  : list (string * json) :=
  match o with
  | Some a => [(k, f a)]
  | None => []
  end.

Definition filters_to_json (f : Filters) : json :=
  JObj (opt_member "allowedNumbers" (λ l, JArr (JStr <$> l)) (allowedNumbers f) ++
        opt_member "allowPrivate" JBool (allowPrivate f) ++
        opt_member "allowGroups" JBool (allowGroups f)).

Definition config_to_json (c : WebhookConfig) : json :=
  JObj (("url", JStr (url c)) ::
        opt_member "authToken" JStr (authToken c) ++
        opt_member "filters" filters_to_json (filters c)).

(** ** Reading an object at the interface type *)

Fixpoint obj_get (k : string) (kvs : list (string * json)) : option json :=
  match kvs with
  | [] => None
  | (k', v) :: r => if String.eqb k k' then Some v else obj_get k r
  end.

(** An optional property read at a type: missing gives [Some None], a
    value of the type [Some (Some a)], any other value [None]. *)
Definition opt_prop {A : Type} (k : string) (conv : json → option A)
  (kvs : list (string * json)) : option (option A) :=
  match obj_get k kvs with
  | None => Some None
  | Some v =>
      match conv v with
      | Some a => Some (Some a)
      | None => None
      end
  end.

Definition as_string (v : json) : option string :=
  match v with
  | JStr s => Some s
  | _ => None
  end.

Definition as_bool (v : json) : option bool :=
  match v with
  | JBool b => Some b
  | _ => None
  end.

Fixpoint as_strings (xs : list json) : option (list string) :=
  match xs with
  | [] => Some []
  | x :: r =>
      match as_string x, as_strings r with
      | Some s, Some l => Some (s :: l)
      | _, _ => None
      end
  end.

Definition as_string_array (v : json) : option (list string) :=
  match v with
  | JArr xs => as_strings xs
  | _ => None
  end.

Definition as_Filters (v : json) : option Filters :=
  match v with
  | JObj kvs =>
      match opt_prop "allowedNumbers" as_string_array kvs,
            opt_prop "allowPrivate" as_bool kvs,
            opt_prop "allowGroups" as_bool kvs with
      | Some a, Some p, Some g =>
          Some {| allowedNumbers := a; allowPrivate := p; allowGroups := g |}
      | _, _, _ => None
      end
  | _ => None
  end.

(** The value seen through [WebhookConfig]; [None] when it does not
    have the shape the interface declares. *)
Definition as_WebhookConfig (v : json) : option WebhookConfig :=
  match v with
  | JObj kvs =>
      match obj_get "url" kvs with
      | Some (JStr u) =>
          match opt_prop "authToken" as_string kvs,
                opt_prop "filters" as_Filters kvs with
          | Some t, Some f => Some {| url := u; authToken := t; filters := f |}
          | _, _ => None
          end
      | _ => None
      end
  | _ => None
  end.

End Config.

(* ================================================================== *)
(** * Module state, file system, logger and the configuration store *)
(* ================================================================== *)

Module Store.
Import Json.

(** What JavaScript throws. *)
Inductive exn : Type :=
| SyntaxError                 (* JSON.parse *)
| TypeError                   (* an argument of the wrong type *)
| IOError (path : string)     (* a failed file-system call *)
| External (msg : string).    (* a rejected library or network call *)

Inductive Level : Type := LDebug | LInfo | LWarn | LError.

Inductive LogArg : Type :=
| NoArg
| ArgExn (e : exn)
| ArgStatus (status : Z)
| ArgMessage (pushname : option string) (number body : string).

Record LogEntry : Type := {
  level : Level;
  msg : string;
  arg : LogArg;
}.

(** A watcher returned by [fs.watch]. *)
Record Watcher : Type := {
  watched : option string;
  closed : bool;
}.

(** An HTTP request handed to [axios.post], generic in the body type. *)
Record Request (B : Type) : Type := {
  method : string;
  req_url : string;
  body : B;
  headers : list (string * string);
}.
Arguments method {B} _.
Arguments req_url {B} _.
Arguments body {B} _.
Arguments headers {B} _.

(** The module-level variables of [whatsapp-client.ts] together with
    the part of the outside world they touch: the files (path to
    text), the directories, the paths on which a write fails, and the
    lines given to the logger. *)
Record State : Type := {
  currentWebhookConfig : option json;
  configWatcher : option Watcher;
  webhookConfigPath : option string;
  files : gmap string string;
  dirs : gset string;
  unwritable : gset string;
  log : list LogEntry;
}.

Definition set_config (c : option json) (st : State) : State :=
  {| currentWebhookConfig := c; configWatcher := configWatcher st;
     webhookConfigPath := webhookConfigPath st; files := files st;
     dirs := dirs st; unwritable := unwritable st; log := log st |}.

Definition set_watcher (w : option Watcher) (st : State) : State :=
  {| currentWebhookConfig := currentWebhookConfig st; configWatcher := w;
     webhookConfigPath := webhookConfigPath st; files := files st;
     dirs := dirs st; unwritable := unwritable st; log := log st |}.

Definition set_path (p : option string) (st : State) : State :=
  {| currentWebhookConfig := currentWebhookConfig st;
     configWatcher := configWatcher st;
     webhookConfigPath := p; files := files st;
     dirs := dirs st; unwritable := unwritable st; log := log st |}.

Definition set_files (f : gmap string string) (st : State) : State :=
  {| currentWebhookConfig := currentWebhookConfig st;
     configWatcher := configWatcher st;
     webhookConfigPath := webhookConfigPath st; files := f;
     dirs := dirs st; unwritable := unwritable st; log := log st |}.

Definition set_dirs (d : gset string) (st : State) : State :=
  {| currentWebhookConfig := currentWebhookConfig st;
     configWatcher := configWatcher st;
     webhookConfigPath := webhookConfigPath st; files := files st;
     dirs := d; unwritable := unwritable st; log := log st |}.

Definition add_log (e : LogEntry) (st : State) : State :=
  {| currentWebhookConfig := currentWebhookConfig st;
     configWatcher := configWatcher st;
     webhookConfigPath := webhookConfigPath st; files := files st;
     dirs := dirs st; unwritable := unwritable st; log := log st ++ [e] |}.

(** ** Synchronous code: state and exceptions *)

Definition M (A : Type) : Type := State → State * (exn + A).

Definition ret {A : Type} (a : A) : M A := λ st, (st, inr a).

Definition bind {A B : Type} (m : M A) (k : A → M B) : M B :=
  λ st,
    match m st with
    | (st', inr a) => k a st'
    | (st', inl e) => (st', inl e)
    end.

Definition throw {A : Type} (e : exn) : M A := λ st, (st, inl e).

(** [try { body } catch (error) { handler }] *)
Definition try_catch {A : Type} (body : M A) (handler : exn → M A) : M A :=
  λ st,
    match body st with
    | (st', inl e) => handler e st'
    | r => r
    end.

Definition gets {A : Type} (f : State → A) : M A := λ st, (st, inr (f st)).
Definition modify (f : State → State) : M unit := λ st, (f st, inr tt).

Declare Scope store_scope.
Delimit Scope store_scope with store.
Bind Scope store_scope with M.
Notation "x ← y ; z" := (bind y (λ x, z))
  (at level 20, y at level 100, z at level 200, only parsing) : store_scope.
Notation "x ;; z" := (bind x (λ _, z))
  (at level 100, z at level 200, only parsing, right associativity) : store_scope.
Local Open Scope store_scope.

Definition logger (l : Level) (m : string) (a : LogArg) : M unit :=
  modify (add_log {| level := l; msg := m; arg := a |}).

(** ** [fs] *)

(** A path argument is a string, or [undefined] when the caller passes
    a variable that was never assigned. *)
Definition fs_existsSync (p : option string) : M bool :=
  gets (λ st,
    match p with
    | Some q => bool_decide (is_Some (files st !! q)) || bool_decide (q ∈ dirs st)
    | None => false
    end).

Definition fs_readFileSync (p : option string) : M string :=
  λ st,
    match p with
    | None => (st, inl TypeError)
    | Some q =>
        match files st !! q with
        | Some text => (st, inr text)
        | None => (st, inl (IOError q))
        end
    end.

(** [data] is what the caller passes: a string, or [undefined], which
    the argument check refuses before the file is opened. *)
Definition fs_writeFileSync (p : option string) (data : option string) : M unit :=
  λ st,
    match p, data with
    | Some q, Some text =>
        if bool_decide (q ∈ unwritable st) then (st, inl (IOError q))
        else (set_files (<[q := text]> (files st)) st, inr tt)
    | _, _ => (st, inl TypeError)
    end.

Definition fs_mkdirSync (p : string) : M unit :=
  λ st,
    if bool_decide (p ∈ unwritable st) then (st, inl (IOError p))
    else (set_dirs ({[p]} ∪ dirs st) st, inr tt).

(** A variable that holds a string or [undefined], as a condition
    sees it: the string when it is truthy (not empty). *)
Definition truthy (o : option string) : option string :=
  match o with
  | Some s => if String.eqb s "" then None else Some s
  | None => None
  end.

(** ** The configuration functions of [whatsapp-client.ts] *)

(** The callback given to [fs.watch]. *)
Definition watcher_callback (eventType : string) : M unit :=
  if String.eqb eventType "change" then
    logger LInfo "Webhook config file changed, reloading..." NoArg;;
    try_catch
      (p ← gets webhookConfigPath;
       text ← fs_readFileSync p;
       match JSON_parse text with
       | Some v =>
           modify (set_config (Some v));;
           logger LInfo "Webhook config reloaded successfully" NoArg
       | None => throw SyntaxError
       end)
      (λ error, logger LError "Failed to reload webhook config:" (ArgExn error))
  else ret tt.

(** [fs.watch(path, listener)] returns the watcher, or throws when the
    watch cannot be started (the path cannot be read, the system has no
    watch left to give out).  [watch_error] is the file system's side
    of the call: the error thrown on a path, [None] where the watch
    starts. *)
Definition fs_watch (watch_error : string → option exn) (p : option string)
  : M Watcher :=
  match p with
  | Some q =>
      match watch_error q with
      | Some e => throw e
      | None => ret {| watched := p; closed := false |}
      end
  | None => throw TypeError
  end.

(** [setupWebhookConfigWatcher], given what [fs.watch] does.  The call
    of [watch] is inside no [try]: its error leaves the function, after
    the old watcher was closed and before [configWatcher] is assigned. *)
Definition setupWebhookConfigWatcher_at (watch_error : string → option exn)
  : M unit :=
  w ← gets configWatcher;
  match w with
  | Some old => modify (set_watcher (Some {| watched := watched old; closed := true |}))
  | None => ret tt
  end;;
  p ← gets webhookConfigPath;
  ex ← fs_existsSync p;
  if ex then
    watcher ← fs_watch watch_error p;
    modify (set_watcher (Some watcher));;
    logger LInfo "Webhook config file watcher started" NoArg
  else ret tt.

(** [loadWebhookConfig], given what [fs.watch] does; [path_join] is
    Node's [path.join]. *)
Definition loadWebhookConfig_at (watch_error : string → option exn)
  (path_join : string → string → string) (dataPath : string) : M (option json) :=
  modify (set_path (Some (path_join dataPath "webhook.json")));;
  p ← gets webhookConfigPath;
  ex ← fs_existsSync p;
  (if ex then
     try_catch
       (text ← fs_readFileSync p;
        match JSON_parse text with
        | Some v =>
            modify (set_config (Some v));;
            logger LInfo "Webhook config loaded successfully" NoArg
        | None => throw SyntaxError
        end)
       (λ error,
          logger LError "Failed to load webhook config:" (ArgExn error);;
          modify (set_config None))
   else modify (set_config None));;
  setupWebhookConfigWatcher_at watch_error;;
  gets currentWebhookConfig.

(** The two functions in the runs in which [fs.watch] starts the
    watch, as every statement about the watcher's notifications
    supposes. *)
Definition setupWebhookConfigWatcher : M unit :=
  setupWebhookConfigWatcher_at (λ _, None).

Definition loadWebhookConfig (path_join : string → string → string)
  (dataPath : string) : M (option json) :=
  loadWebhookConfig_at (λ _, None) path_join dataPath.

(** The write is attempted under [saveToFile && webhookConfigPath]. *)
Definition updateWebhookConfig (newConfig : option json) (saveToFile : bool)
  : M unit :=
  modify (set_config newConfig);;
  logger LInfo "Webhook config updated dynamically" NoArg;;
  p ← gets webhookConfigPath;
  if saveToFile then
    match truthy p with
    | Some path =>
        try_catch
          (fs_writeFileSync (Some path) (JSON_stringify newConfig);;
           logger LInfo "Webhook config saved to file" NoArg)
          (λ error,
             logger LError "Failed to save webhook config to file:" (ArgExn error))
    | None => ret tt
    end
  else ret tt.

Definition getCurrentWebhookConfig : M (option json) :=
  gets currentWebhookConfig.

(** A change notification from the file system reaches the callback of
    the watcher that is open on the changed path. *)
Definition file_event (path eventType : string) : M unit :=
  w ← gets configWatcher;
  match w with
  | Some {| watched := Some q; closed := false |} =>
      if String.eqb q path then watcher_callback eventType else ret tt
  | _ => ret tt
  end.

(** ** Notions used in the statements about the store *)

Definition set_log (l : list LogEntry) (st : State) : State :=
  {| currentWebhookConfig := currentWebhookConfig st;
     configWatcher := configWatcher st;
     webhookConfigPath := webhookConfigPath st; files := files st;
     dirs := dirs st; unwritable := unwritable st; log := l |}.

(** The state with its log forgotten. *)
Definition hush (st : State) : State := set_log [] st.

(** A computation that neither reads the log nor lets it decide
    anything. *)
Definition blind {A : Type} (m : M A) : Prop :=
  ∀ s1 s2, hush s1 = hush s2 →
    hush (m s1).1 = hush (m s2).1 ∧ (m s1).2 = (m s2).2.

(** A computation that only adds lines to the log. *)
Definition grows {A : Type} (m : M A) : Prop :=
  ∀ s, ∃ more, log (m s).1 = log s ++ more.

(** Something is at the path, as [fs.existsSync] sees it. *)
Definition present (p : string) (st : State) : bool :=
  bool_decide (is_Some (files st !! p)) || bool_decide (p ∈ dirs st).

(** The error with which [fs.watch] is left when it is called on the
    path [p] of the state: none when nothing is at the path, where the
    call is not made. *)
Definition watch_failure (watch_error : string → option exn) (p : string)
  (st : State) : option exn :=
  if present p st then watch_error p else None.

(** The state in which [loadWebhookConfig] sets up its watcher. *)
Definition load_phase (path_join : string → string → string) (dataPath : string)
  (st : State) : State :=
  let p := path_join dataPath "webhook.json" in
  let st0 := set_path (Some p) st in
  let failed_with e :=
    set_config None
      (add_log {| level := LError; msg := "Failed to load webhook config:";
                  arg := ArgExn e |} st0) in
  match files st !! p with
  | Some text =>
      match JSON_parse text with
      | Some v =>
          add_log {| level := LInfo; msg := "Webhook config loaded successfully";
                     arg := NoArg |} (set_config (Some v) st0)
      | None => failed_with SyntaxError
      end
  | None => if bool_decide (p ∈ dirs st) then failed_with (IOError p)
            else set_config None st0
  end.

End Store.

(* ================================================================== *)
(** * The message handler *)
(* ================================================================== *)

Module Handler.
Import Json Config Store.

(** ** What the WhatsApp client library hands over *)

Record Contact : Type := {
  number : string;
  pushname : option string;
}.

Record Location : Type := {
  latitude : option string;
  longitude : option string;
  loc_name : option string;
  address : option string;
}.

Record InviteV4 : Type := {
  inviteCode : option string;
  inviteExpiration : option Z;
}.

Record Message : Type := {
  from : string;
  msg_body : string;
  timestamp : Z;
  id_serialized : string;
  fromMe : bool;
  type : string;
  deviceType : option string;
  isForwarded : bool;
  isStarred : bool;
  hasQuotedMsg : bool;
  hasReaction : bool;
  isEphemeral : bool;
  hasMedia : bool;
  duration : option string;
  filename : option string;
  location : option Location;
  vCards : option (list string);
  quotedMsgId : option string;
  inviteV4 : option InviteV4;
  mentionedIds : option (list string);
}.

Record MessageMedia : Type := {
  mimetype : string;
  media_filename : option string;
  filesize : option Z;
  data : string;
}.

Record QuotedMessage : Type := {
  q_id_serialized : string;
  q_body : string;
  q_type : string;
  q_fromMe : bool;
}.

Record Participant : Type := {
  p_id_serialized : string;
  p_user : string;
  p_isAdmin : bool;
}.

Record Chat : Type := {
  chat_id_serialized : string;
  chat_name : string;
  participants : option (list Participant);
}.

(** ** The payload *)

(** [x || 0] on a duration: the duration when it is truthy, else the
    number 0. *)
Inductive DurationOr0 : Type :=
| DurationOf (d : string)
| Duration0.

Inductive Content : Type :=
| CText (text : string)
| CImage (caption : string) (hasMedia : bool) (mediaType : string)
| CVideo (caption : string) (hasMedia : bool) (mediaType : string)
    (duration : DurationOr0)
| CAudio (hasMedia : bool) (mediaType : string) (duration : DurationOr0)
    (isVoiceMessage : bool)
| CDocument (caption : string) (hasMedia : bool) (mediaType : string)
    (filename : string)
| CSticker (hasMedia : bool) (mediaType : string)
| CLocation (loc : Location)
| CContact (contact : list string)
| CReaction (reaction : string) (quotedMessageId : option string)
| CGroupInvite (inv : InviteV4)
| CUnknown (text : string) (hasMedia : bool).

Inductive MediaField : Type :=
| MediaData (m : MessageMedia)
| MediaError (error : string).

Record ParticipantInfo : Type := {
  pi_id : string;
  pi_number : string;
  pi_isAdmin : bool;
}.

Record GroupInfo : Type := {
  g_id : string;
  g_name : string;
  g_participants : list ParticipantInfo;
}.

Record Mention : Type := {
  m_id : string;
  m_number : string;
}.

(** [basePayload] *)
Record BasePayload : Type := {
  b_from : string;
  b_name : option string;
  b_message : string;
  b_isGroup : bool;
  b_timestamp : Z;
  b_messageId : string;
  b_fromMe : bool;
  b_type : string;
  b_deviceType : option string;
  b_isForwarded : bool;
  b_isStarred : bool;
  b_hasQuotedMsg : bool;
  b_hasReaction : bool;
  b_isEphemeral : bool;
}.

(** [enhancedPayload]: the base members, then the members added to it. *)
Record Payload : Type := {
  base : BasePayload;
  messageType : string;
  content : Content;
  media : option MediaField;
  quotedMessage : option QuotedMessage;
  group : option GroupInfo;
  mentions : option (list Mention);
}.

Record Response : Type := {
  status : Z;
  statusText : string;
}.

(** ** Asynchronous code as a tree of interactions *)

(** The places where the handler waits and other tasks of the event
    loop may run. *)
Inductive Await : Type :=
| AtContact | AtMedia | AtQuoted | AtChat | AtPayload | AtPost.

(** What the handler asks of its surroundings, with the type of the
    answer.  An awaited call answers with the value its promise
    resolves to or the reason it rejects with. *)
Inductive Act : Type → Type :=
| GetContact : Act (exn + Contact)
| ReadCurrentWebhookConfig : Act (option json)
| Log (l : Level) (m : string) (a : LogArg) : Act unit
| DownloadMedia : Act (exn + option MessageMedia)
| GetQuotedMessage : Act (exn + QuotedMessage)
| GetChat : Act (exn + Chat)
| Resume (p : Await) : Act unit
| AxiosPost (req : Request Payload) : Act (exn + Response).

Inductive Prog (R : Type) : Type :=
| Ret (r : R)
| Throw (e : exn)
| Vis {X : Type} (a : Act X) (k : X → Prog R).
Arguments Ret {R} r.
Arguments Throw {R} e.
Arguments Vis {R X} a k.

Fixpoint pbind {A B : Type} (m : Prog A) (f : A → Prog B) : Prog B :=
  match m with
  | Ret a => f a
  | Throw e => Throw e
  | Vis a k => Vis a (λ x, pbind (k x) f)
  end.

(** [try { body } catch (error) { handler }] *)
Fixpoint ptry {A : Type} (body : Prog A) (handler : exn → Prog A) : Prog A :=
  match body with
  | Ret a => Ret a
  | Throw e => handler e
  | Vis a k => Vis a (λ x, ptry (k x) handler)
  end.

Definition act {X : Type} (a : Act X) : Prog X := Vis a Ret.

(** [await call]: the value, or the rejection thrown. *)
Definition await {X : Type} (a : Act (exn + X)) : Prog X :=
  Vis a (λ r, match r with inl e => Throw e | inr x => Ret x end).

Declare Scope prog_scope.
Delimit Scope prog_scope with prog.
Bind Scope prog_scope with Prog.
Notation "x ← y ; z" := (pbind y (λ x, z))
  (at level 20, y at level 100, z at level 200, only parsing) : prog_scope.
Notation "x ;; z" := (pbind x (λ _, z))
  (at level 100, z at level 200, only parsing, right associativity) : prog_scope.
Local Open Scope prog_scope.

(** ** JavaScript helpers *)

(** [s.includes(sub)] on strings. *)
Fixpoint includes (sub s : string) : bool :=
  String.prefix sub s ||
  match s with
  | String _ r => includes sub r
  | "" => false
  end.

(** [id.split('@')[0]] *)
Fixpoint before_at (s : string) : string :=
  match s with
  | "" => ""
  | String c r => if Ascii.eqb c "@"%char then "" else String c (before_at r)
  end.

(** [s || d] on strings. *)
Definition str_or (s d : string) : string :=
  if String.eqb s "" then d else s.

Definition opt_str_or (s : option string) (d : string) : string :=
  match s with
  | Some x => str_or x d
  | None => d
  end.

Definition duration_or_0 (d : option string) : DurationOr0 :=
  match d with
  | Some x => if String.eqb x "" then Duration0 else DurationOf x
  | None => Duration0
  end.

(** [x === false] for an optional boolean reached through [?.]. *)
Definition is_false (o : option bool) : bool :=
  match o with
  | Some false => true
  | _ => false
  end.

(** ** The filter check of the handler *)

(** The condition of the [if] that skips an event. *)
Definition filter_skips (webhookConfig : WebhookConfig) (isGroup : bool)
  (contact_number : string) : bool :=
  (isGroup && is_false (filters webhookConfig ≫= allowGroups)) ||
  (negb isGroup && is_false (filters webhookConfig ≫= allowPrivate)) ||
  match filters webhookConfig ≫= allowedNumbers with
  | Some l =>
      negb (Nat.eqb (length l) 0) &&
      negb (existsb (String.eqb contact_number) l)
  | None => false
  end.

(** ** [prepareWebhookPayload] *)

(** The [switch] on [message.type]. *)
Definition classify (message : Message) : string * Content :=
  let t := type message in
  if String.eqb t "text" then
    ("text", CText (msg_body message))
  else if String.eqb t "image" then
    ("image", CImage (str_or (msg_body message) "") true "image")
  else if String.eqb t "video" then
    ("video", CVideo (str_or (msg_body message) "") true "video"
                (duration_or_0 (duration message)))
  else if String.eqb t "audio" then
    ("audio", CAudio true "audio" (duration_or_0 (duration message)) false)
  else if String.eqb t "voice" then
    ("voice", CAudio true "voice" (duration_or_0 (duration message)) true)
  else if String.eqb t "document" then
    ("document", CDocument (str_or (msg_body message) "") true "document"
                   (opt_str_or (filename message) "unknown"))
  else if String.eqb t "sticker" then
    ("sticker", CSticker true "sticker")
  else if String.eqb t "location" then
    ("location",
     CLocation {| latitude := location message ≫= latitude;
                  longitude := location message ≫= longitude;
                  loc_name := location message ≫= loc_name;
                  address := location message ≫= address |})
  else if String.eqb t "contact" then
    ("contact", CContact (default [] (vCards message)))
  else if String.eqb t "reaction" then
    ("reaction", CReaction (msg_body message) (quotedMsgId message))
  else if String.eqb t "group_invite" then
    ("group_invite",
     CGroupInvite {| inviteCode := inviteV4 message ≫= inviteCode;
                     inviteExpiration := inviteV4 message ≫= inviteExpiration |})
  else
    ("unknown", CUnknown (str_or (msg_body message) "") (hasMedia message)).

Definition basePayload (message : Message) (contact : Contact) (isGroup : bool)
  : BasePayload :=
  {| b_from := number contact;
     b_name := pushname contact;
     b_message := msg_body message;
     b_isGroup := isGroup;
     b_timestamp := timestamp message;
     b_messageId := id_serialized message;
     b_fromMe := fromMe message;
     b_type := type message;
     b_deviceType := deviceType message;
     b_isForwarded := isForwarded message;
     b_isStarred := isStarred message;
     b_hasQuotedMsg := hasQuotedMsg message;
     b_hasReaction := hasReaction message;
     b_isEphemeral := isEphemeral message |}.

Definition media_step (message : Message) : Prog (option MediaField) :=
  if hasMedia message then
    ptry
      (media ← await DownloadMedia;
       match media with
       | Some m => Ret (Some (MediaData m))
       | None => Ret None
       end)
      (λ error,
         act (Log LWarn "Failed to download media for webhook:" (ArgExn error));;
         Ret (Some (MediaError "Failed to download media")))
  else Ret None.

Definition quoted_step (message : Message) : Prog (option QuotedMessage) :=
  if hasQuotedMsg message then
    ptry
      (quotedMessage ← await GetQuotedMessage;
       Ret (Some quotedMessage))
      (λ error,
         act (Log LWarn "Failed to get quoted message for webhook:" (ArgExn error));;
         Ret None)
  else Ret None.

Definition participant_info (p : Participant) : ParticipantInfo :=
  {| pi_id := p_id_serialized p;
     pi_number := p_user p;
     pi_isAdmin := p_isAdmin p |}.

Definition group_step (isGroup : bool) : Prog (option GroupInfo) :=
  if isGroup then
    ptry
      (chat ← await GetChat;
       Ret (Some {| g_id := chat_id_serialized chat;
                    g_name := chat_name chat;
                    g_participants :=
                      match participants chat with
                      | Some ps => map participant_info ps
                      | None => []
                      end |}))
      (λ error,
         act (Log LWarn "Failed to get group information for webhook:" (ArgExn error));;
         Ret None)
  else Ret None.

Definition mentions_of (message : Message) : option (list Mention) :=
  match mentionedIds message with
  | Some (i :: ids) =>
      Some (map (λ id, {| m_id := id; m_number := before_at id |}) (i :: ids))
  | _ => None
  end.

Definition prepareWebhookPayload (message : Message) (contact : Contact)
  (isGroup : bool) : Prog Payload :=
  let '(mt, c) := classify message in
  m ← media_step message;
  q ← quoted_step message;
  g ← group_step isGroup;
  Ret {| base := basePayload message contact isGroup;
         messageType := mt;
         content := c;
         media := m;
         quotedMessage := q;
         group := g;
         mentions := mentions_of message |}.

(** ** The request of a delivery *)

(** The headers object: [Content-Type], and [Authorization] spread in
    when the token is truthy. *)
Definition webhook_headers (authToken : option string) : list (string * string) :=
  ("Content-Type", "application/json") ::
  match truthy authToken with
  | Some token => [("Authorization", "Bearer " +:+ token)]
  | None => []
  end.

Definition webhook_request {B : Type} (url : string) (authToken : option string)
  (payload : B) : Request B :=
  {| method := "POST"; req_url := url; body := payload;
     headers := webhook_headers authToken |}.

(** ** [client.on('message', ...)] *)

(** Where the handler stopped. *)
Inductive Exit : Type :=
| NoWebhook        (* [if (webhookConfig)] was false *)
| Skipped          (* the [return] of the filter check *)
| Completed        (* the end of the [try]/[catch] *)
| OffInterface.    (* the stored value is not a [WebhookConfig] *)

Definition dispatch (webhookConfig : WebhookConfig) (message : Message)
  (contact : Contact) (isGroup : bool) : Prog unit :=
  ptry
    (webhookPayload ← prepareWebhookPayload message contact isGroup;
     act (Resume AtPayload);;
     response ← await (AxiosPost
       (webhook_request (url webhookConfig) (authToken webhookConfig) webhookPayload));
     if (status response <? 200)%Z || (300 <=? status response)%Z then
       act (Log LWarn "Webhook request failed with status " (ArgStatus (status response)))
     else Ret tt)
    (λ error, act (Log LError "Error sending webhook:" (ArgExn error))).

(** The handler.  [currentWebhookConfig] is declared
    [WebhookConfig | undefined]; the handler is described on values of
    that type and on [null].  Any other stored value, which only a
    hand-edited file can produce, ends in [OffInterface]. *)
Definition on_message (message : Message) : Prog Exit :=
  contact ← await GetContact;
  act (Log LDebug "" (ArgMessage (pushname contact) (number contact) (msg_body message)));;
  webhookConfig ← act ReadCurrentWebhookConfig;
  match webhookConfig with
  | None => Ret NoWebhook
  | Some JNull => Ret NoWebhook
  | Some v =>
      match as_WebhookConfig v with
      | None => Ret OffInterface
      | Some cfg =>
          let isGroup := includes "@g.us" (from message) in
          if filter_skips cfg isGroup (number contact) then Ret Skipped
          else
            dispatch cfg message contact isGroup;;
            Ret Completed
      end
  end.

(** ** Running the handler on the event loop *)

(** Tasks that other sources put on the event loop. *)
Inductive Task : Type :=
| TaskUpdate (newConfig : option json) (saveToFile : bool)
| TaskFileEvent (path eventType : string)
| TaskEdit (path text : string).

Definition run_task (t : Task) (st : State) : State :=
  match t with
  | TaskUpdate c s => (updateWebhookConfig c s st).1
  | TaskFileEvent p e => (file_event p e st).1
  | TaskEdit p text => set_files (<[p := text]> (files st)) st
  end.

Definition run_tasks (ts : list Task) (st : State) : State :=
  fold_left (λ s t, run_task t s) ts st.

(** The surroundings of one run of the handler: the answer of every
    awaited call, and the tasks that run while the handler waits at
    each place. *)
Record Env : Type := {
  contact_answer : exn + Contact;
  media_answer : exn + option MessageMedia;
  quoted_answer : exn + QuotedMessage;
  chat_answer : exn + Chat;
  post_answer : Request Payload → exn + Response;
  meanwhile : Await → list Task;
}.

(** The module state and the requests sent so far. *)
Record World : Type := {
  store : State;
  outbox : list (Request Payload);
}.

Definition on_store (f : State → State) (w : World) : World :=
  {| store := f (store w); outbox := outbox w |}.

Definition send (req : Request Payload) (w : World) : World :=
  {| store := store w; outbox := outbox w ++ [req] |}.

Definition waiting (env : Env) (p : Await) (w : World) : World :=
  on_store (run_tasks (meanwhile env p)) w.

Definition answer (env : Env) {X : Type} (a : Act X) (w : World) : World * X :=
  match a in Act T return World * T with
  | GetContact => (waiting env AtContact w, contact_answer env)
  | ReadCurrentWebhookConfig => (w, currentWebhookConfig (store w))
  | Log l m x => (on_store (add_log {| level := l; msg := m; arg := x |}) w, tt)
  | DownloadMedia => (waiting env AtMedia w, media_answer env)
  | GetQuotedMessage => (waiting env AtQuoted w, quoted_answer env)
  | GetChat => (waiting env AtChat w, chat_answer env)
  | Resume p => (waiting env p w, tt)
  | AxiosPost req => (waiting env AtPost (send req w), post_answer env req)
  end.

Fixpoint run {R : Type} (env : Env) (p : Prog R) (w : World) : World * (exn + R) :=
  match p with
  | Ret r => (w, inr r)
  | Throw e => (w, inl e)
  | Vis a k => let '(w', x) := answer env a w in run env (k x) w'
  end.

(** Inbound events handled one after the other, each with its own
    surroundings; a rejected handler does not stop the next one. *)
Fixpoint handle_all (events : list (Message * Env)) (w : World)
  : World * list (exn + Exit) :=
  match events with
  | [] => (w, [])
  | (m, env) :: rest =>
      let '(w1, r) := run env (on_message m) w in
      let '(w2, rs) := handle_all rest w1 in
      (w2, r :: rs)
  end.

(** ** Notions used in the statements about the handler *)

Definition add_entry (l : Level) (m : string) (a : LogArg) (w : World) : World :=
  on_store (add_log {| level := l; msg := m; arg := a |}) w.

Definition media_of (env : Env) (message : Message) : option MediaField :=
  if hasMedia message then
    match media_answer env with
    | inr (Some m) => Some (MediaData m)
    | inr None => None
    | inl _ => Some (MediaError "Failed to download media")
    end
  else None.

Definition after_media (env : Env) (message : Message) (w : World) : World :=
  if hasMedia message then
    match media_answer env with
    | inr _ => waiting env AtMedia w
    | inl e =>
        add_entry LWarn "Failed to download media for webhook:" (ArgExn e)
          (waiting env AtMedia w)
    end
  else w.

Definition quoted_of (env : Env) (message : Message) : option QuotedMessage :=
  if hasQuotedMsg message then
    match quoted_answer env with
    | inr q => Some q
    | inl _ => None
    end
  else None.

Definition after_quoted (env : Env) (message : Message) (w : World) : World :=
  if hasQuotedMsg message then
    match quoted_answer env with
    | inr _ => waiting env AtQuoted w
    | inl e =>
        add_entry LWarn "Failed to get quoted message for webhook:" (ArgExn e)
          (waiting env AtQuoted w)
    end
  else w.

Definition group_of (env : Env) (isGroup : bool) : option GroupInfo :=
  if isGroup then
    match chat_answer env with
    | inr chat =>
        Some {| g_id := chat_id_serialized chat;
                g_name := chat_name chat;
                g_participants :=
                  match participants chat with
                  | Some ps => map participant_info ps
                  | None => []
                  end |}
    | inl _ => None
    end
  else None.

Definition after_group (env : Env) (isGroup : bool) (w : World) : World :=
  if isGroup then
    match chat_answer env with
    | inr _ => waiting env AtChat w
    | inl e =>
        add_entry LWarn "Failed to get group information for webhook:" (ArgExn e)
          (waiting env AtChat w)
    end
  else w.

Definition payload_of (env : Env) (message : Message) (contact : Contact)
  (isGroup : bool) : Payload :=
  {| base := basePayload message contact isGroup;
     messageType := (classify message).1;
     content := (classify message).2;
     media := media_of env message;
     quotedMessage := quoted_of env message;
     group := group_of env isGroup;
     mentions := mentions_of message |}.

Definition prepared (env : Env) (message : Message) (isGroup : bool) (w : World)
  : World :=
  after_group env isGroup (after_quoted env message (after_media env message w)).

Definition failure_entry (a : exn + Response) : LogEntry :=
  match a with
  | inl e => {| level := LError; msg := "Error sending webhook:"; arg := ArgExn e |}
  | inr r => {| level := LWarn; msg := "Webhook request failed with status ";
                arg := ArgStatus (status r) |}
  end.

(** The outcome of a dispatch is a failure: a rejection, or a status
    outside 200..299. *)
Definition failed_dispatch (a : exn + Response) : bool :=
  match a with
  | inl _ => true
  | inr r => (status r <? 200)%Z || (300 <=? status r)%Z
  end.

Definition finish (a : exn + Response) (w : World) : World :=
  if failed_dispatch a then on_store (add_log (failure_entry a)) w else w.

(** The world in which the handler reads [currentWebhookConfig]. *)
Definition at_entry (env : Env) (message : Message) (contact : Contact) (w : World)
  : World :=
  add_entry LDebug "" (ArgMessage (pushname contact) (number contact) (msg_body message))
    (waiting env AtContact w).

Definition is_group (message : Message) : bool := includes "@g.us" (from message).

Definition request_of (env : Env) (cfg : WebhookConfig) (message : Message)
  (contact : Contact) : Request Payload :=
  webhook_request (url cfg) (authToken cfg)
    (payload_of env message contact (is_group message)).

(** The world in which the request has been handed to [axios.post] and
    its answer arrives. *)
Definition at_answer (env : Env) (cfg : WebhookConfig) (message : Message)
  (contact : Contact) (w : World) : World :=
  waiting env AtPost
    (send (request_of env cfg message contact)
       (waiting env AtPayload
          (prepared env message (is_group message) (at_entry env message contact w)))).

Definition quiet (w : World) : World := on_store hush w.

(** Two surroundings that differ at most in what [axios.post] answers. *)
Definition same_but_post (e1 e2 : Env) : Prop :=
  contact_answer e1 = contact_answer e2 ∧
  media_answer e1 = media_answer e2 ∧
  quoted_answer e1 = quoted_answer e2 ∧
  chat_answer e1 = chat_answer e2 ∧
  meanwhile e1 = meanwhile e2.

(** No task runs while the handler of any of these events waits. *)
Definition undisturbed (events : list (Message * Env)) : Prop :=
  Forall (λ ev, ∀ p, meanwhile ev.2 p = []) events.

(** What a delivery to [url] with token [tok] and body [payload] puts
    on the wire. *)
Definition on_the_wire (req : Request Payload) (url : string) (tok : option string)
  (payload : Payload) : Prop :=
  method req = "POST" ∧
  req_url req = url ∧
  body req = payload ∧
  ("Content-Type", "application/json") ∈ headers req ∧
  ∀ v, ("Authorization", v) ∈ headers req ↔
       ∃ t, tok = Some t ∧ t ≠ "" ∧ v = "Bearer " +:+ t.

End Handler.

(* ================================================================== *)
(** * The webhook tools of the MCP server *)
(* ================================================================== *)

Module Tools.
Import Json Config Store Handler.
Local Open Scope store_scope.

Inductive ToolText : Type :=
| TestCompleted (status : Z) (statusText : string)
| TestFailed (error : exn)
| CustomPathFailed (error : exn)
| UpdatedSuccessfully (url : string) (authToken : string) (saveToFile : bool)
    (filters : option string)
| UpdateFailed (error : exn)
| DisabledSuccessfully
| DisableFailed (error : exn)
| FileNotFound (filePath : string)
| Reloaded (filePath : string) (text : option string)
| ReloadFailed (error : exn).

Record ToolResult : Type := {
  text : ToolText;
  isError : bool;
}.

Definition ok (t : ToolText) : ToolResult := {| text := t; isError := false |}.
Definition failed (t : ToolText) : ToolResult := {| text := t; isError := true |}.

(** [test_webhook]; [now] is [Math.floor(Date.now() / 1000)]. *)
Definition testPayload (now : Z) : Payload :=
  {| base := {| b_from := "1234567890";
                b_name := Some "Test User";
                b_message := "This is a test message";
                b_isGroup := false;
                b_timestamp := now;
                b_messageId := "test_message_id";
                b_fromMe := false;
                b_type := "text";
                b_deviceType := Some "android";
                b_isForwarded := false;
                b_isStarred := false;
                b_hasQuotedMsg := false;
                b_hasReaction := false;
                b_isEphemeral := false |};
     messageType := "text";
     content := CText "This is a test message";
     media := None;
     quotedMessage := None;
     group := None;
     mentions := None |}.

Definition test_webhook (now : Z) (url : string) (authToken : option string)
  : Prog ToolResult :=
  ptry
    (pbind (await (AxiosPost (webhook_request url authToken (testPayload now))))
       (λ response,
          Ret (ok (TestCompleted (status response) (statusText response)))))
    (λ error, Ret (failed (TestFailed error))).

(** [update_webhook_config]; [path_dirname] is Node's [path.dirname]. *)
Definition update_webhook_config (path_dirname : string → string)
  (url : string) (authToken configPath : option string)
  (saveToFile : option bool) (filters : option Filters) : M ToolResult :=
  let saveToFile := default true saveToFile in
  try_catch
    (let newConfig :=
       {| Config.url := url;
          Config.authToken := authToken;
          Config.filters :=
            Some {| allowedNumbers := Some (default [] (filters ≫= allowedNumbers));
                    allowPrivate := Some (default true (filters ≫= allowPrivate));
                    allowGroups := Some (default true (filters ≫= allowGroups)) |} |} in
     updateWebhookConfig (Some (config_to_json newConfig)) saveToFile;;
     early ←
       (if saveToFile then
          match truthy configPath with
          | Some custom =>
              try_catch
                (ex ← fs_existsSync (Some (path_dirname custom));
                 (if negb ex then fs_mkdirSync (path_dirname custom) else ret tt);;
                 fs_writeFileSync (Some custom)
                   (JSON_stringify (Some (config_to_json newConfig)));;
                 ret None)
                (λ error, ret (Some (failed (CustomPathFailed error))))
          | None => ret None
          end
        else ret None);
     match early with
     | Some r => ret r
     | None =>
         ret (ok (UpdatedSuccessfully url
                    (match truthy authToken with Some _ => "***" | None => "None" end)
                    saveToFile
                    (JSON_stringify (filters_to_json <$> Config.filters newConfig))))
     end)
    (λ error, ret (failed (UpdateFailed error))).

Definition disable_webhook (saveToFile : option bool) : M ToolResult :=
  let saveToFile := default true saveToFile in
  try_catch
    (updateWebhookConfig None saveToFile;;
     ret (ok DisabledSuccessfully))
    (λ error, ret (failed (DisableFailed error))).

Definition reload_webhook_config (configPath : option string) : M ToolResult :=
  try_catch
    (let filePath := default ".wwebjs_auth/webhook.json" (truthy configPath) in
     ex ← fs_existsSync (Some filePath);
     if negb ex then ret (failed (FileNotFound filePath))
     else
       text ← fs_readFileSync (Some filePath);
       match JSON_parse text with
       | None => throw SyntaxError
       | Some config =>
           updateWebhookConfig (Some config) false;;
           ret (ok (Reloaded filePath (JSON_stringify (Some config))))
       end)
    (λ error, ret (failed (ReloadFailed error))).

End Tools.

(* ================================================================== *)
(** * Sample data *)
(* ================================================================== *)

Module Samples.
Import Json Config Store Handler Tools.

(** Stands for [path.join] on the paths used below. *)
Definition join (a b : string) : string := a +:+ "/" +:+ b.

Definition cfgA : WebhookConfig :=
  {| url := "https://example.test/hook";
     authToken := Some "secret";
     filters := Some {| allowedNumbers := Some ["15551234567"];
                        allowPrivate := Some true;
                        allowGroups := Some false |} |}.

Definition cfgB : WebhookConfig :=
  {| url := "https://other.test/hook"; authToken := None; filters := None |}.

Definition cfg_empty_token : WebhookConfig :=
  {| url := "https://example.test/hook"; authToken := Some ""; filters := None |}.

(** Private messages only. *)
Definition cfg_private : WebhookConfig :=
  {| url := "https://example.test/hook"; authToken := None;
     filters := Some {| allowedNumbers := None;
                        allowPrivate := Some true;
                        allowGroups := Some false |} |}.

Definition contact1 : Contact :=
  {| number := "15551234567"; pushname := Some "Ann" |}.

Definition message_text : Message :=
  {| from := "15551234567@c.us"; msg_body := "hello"; timestamp := 1700000000;
     id_serialized := "false_15551234567@c.us_3EB0"; fromMe := false;
     type := "text"; deviceType := Some "android";
     isForwarded := false; isStarred := false; hasQuotedMsg := false;
     hasReaction := false; isEphemeral := false; hasMedia := false;
     duration := None; filename := None; location := None; vCards := None;
     quotedMsgId := None; inviteV4 := None; mentionedIds := None |}.

Definition message_image : Message :=
  {| from := "15551234567@c.us"; msg_body := "look"; timestamp := 1700000001;
     id_serialized := "false_15551234567@c.us_3EB1"; fromMe := false;
     type := "image"; deviceType := Some "android";
     isForwarded := false; isStarred := false; hasQuotedMsg := false;
     hasReaction := false; isEphemeral := false; hasMedia := true;
     duration := None; filename := None; location := None; vCards := None;
     quotedMsgId := None; inviteV4 := None; mentionedIds := None |}.

Definition message_group : Message :=
  {| from := "120363041234567890@g.us"; msg_body := "hello all";
     timestamp := 1700000002;
     id_serialized := "false_120363041234567890@g.us_3EB2"; fromMe := false;
     type := "text"; deviceType := Some "android";
     isForwarded := false; isStarred := false; hasQuotedMsg := false;
     hasReaction := false; isEphemeral := false; hasMedia := false;
     duration := None; filename := None; location := None; vCards := None;
     quotedMsgId := None; inviteV4 := None; mentionedIds := None |}.

Definition env_with (post : exn + Response) (tasks : Await → list Task) : Env :=
  {| contact_answer := inr contact1;
     media_answer := inl (External "download failed");
     quoted_answer := inl (External "no quoted message");
     chat_answer := inl (External "no chat");
     post_answer := λ _, post;
     meanwhile := tasks |}.

Definition env_500 : Env :=
  env_with (inr {| status := 500; statusText := "Internal Server Error" |}) (λ _, []).

Definition env_200 : Env :=
  env_with (inr {| status := 200; statusText := "OK" |}) (λ _, []).

(** The configuration is replaced while the media download is awaited. *)
Definition env_race : Env :=
  env_with (inr {| status := 200; statusText := "OK" |})
    (λ p, match p with
          | AtMedia => [TaskUpdate (Some (config_to_json cfgB)) false]
          | _ => []
          end).

(** [downloadMedia] resolves to [undefined]: the library could not
    fetch the media. *)
Definition env_no_media : Env :=
  {| contact_answer := inr contact1;
     media_answer := inr None;
     quoted_answer := inl (External "no quoted message");
     chat_answer := inl (External "no chat");
     post_answer := λ _, inr {| status := 200; statusText := "OK" |};
     meanwhile := λ _, [] |}.

(** [fs.watch] refuses every path. *)
Definition watch_denied (p : string) : option exn := Some (IOError p).

Definition state_of (c : option json) (text : string) (ro : gset string) : State :=
  {| currentWebhookConfig := c;
     configWatcher := Some {| watched := Some "data/webhook.json"; closed := false |};
     webhookConfigPath := Some "data/webhook.json";
     files := {[ "data/webhook.json" := text ]};
     dirs := {[ "data" ]};
     unwritable := ro;
     log := [] |}.

Definition textA : string := ser 0 (config_to_json cfgA).
Definition textB : string := ser 0 (config_to_json cfgB).
Definition malformed : string := "{ url: ".

Definition world_of (st : State) : World := {| store := st; outbox := [] |}.

End Samples.

(* ================================================================== *)
(** * Starting the client *)
(* ================================================================== *)

Module Startup.
Import Json Config Store.
Local Open Scope store_scope.

(** [authStrategy?: 'local' | 'none'] *)
Inductive AuthName : Type := AuthLocal | AuthNone.

(** [interface WhatsAppConfig] *)
Record WhatsAppConfig : Type := {
  authDataPath : option string;
  authStrategy : option AuthName;
  dockerContainer : option bool;
  mediaStoragePath : option string;
}.

(** The strategy object handed to the library. *)
Inductive AuthStrategy : Type :=
| LocalAuth (dataPath : string)
| NoAuth.

(** [npx_args] and [docker_args]; a missing property is [None]. *)
Record PuppeteerOptions : Type := {
  headless : bool;
  userDataDir : option string;
  args : option (list string);
}.

(** The argument of [new Client(...)]. *)
Record ClientOptions : Type := {
  puppeteer : PuppeteerOptions;
  opt_authStrategy : AuthStrategy;
  restartOnAuthFail : bool;
}.

(** [fs.rmSync(p, { force: true })]: a missing path is not an error,
    a directory is refused (there is no [recursive]). *)
Definition fs_rmSync_force (p : string) : M unit :=
  λ st,
    match files st !! p with
    | Some _ =>
        if bool_decide (p ∈ unwritable st) then (st, inl (IOError p))
        else (set_files (delete p (files st)) st, inr tt)
    | None =>
        if bool_decide (p ∈ dirs st) then (st, inl (IOError p))
        else (st, inr tt)
    end.

(** [createWhatsAppClient], up to the construction of the client and
    given what [fs.watch] does: the result is the options object given
    to [new Client]. *)
Definition createWhatsAppClient_at (watch_error : string → option exn)
  (path_join : string → string → string) (config : WhatsAppConfig)
  : M ClientOptions :=
  let authDataPath := default ".wwebjs_auth" (truthy (authDataPath config)) in
  let mediaStoragePath :=
    default (path_join authDataPath "media") (truthy (mediaStoragePath config)) in
  loadWebhookConfig_at watch_error path_join authDataPath;;
  ex ← fs_existsSync (Some mediaStoragePath);
  (if negb ex then
     try_catch
       (fs_mkdirSync mediaStoragePath;;
        logger LInfo ("Created media storage directory: " +:+ mediaStoragePath) NoArg)
       (λ error,
          logger LError "Failed to create media storage directory: " (ArgExn error))
   else ret tt);;
  try_catch (fs_rmSync_force (authDataPath +:+ "/SingletonLock")) (λ _, ret tt);;
  let npx_args := {| headless := true; userDataDir := None; args := None |} in
  let docker_args :=
    {| headless := true; userDataDir := Some authDataPath;
       args := Some ["--no-sandbox"; "--single-process"; "--no-zygote"] |} in
  let docker := default false (dockerContainer config) in
  ret {| puppeteer := if docker then docker_args else npx_args;
         opt_authStrategy :=
           match authStrategy config with
           | Some AuthLocal => if negb docker then LocalAuth authDataPath else NoAuth
           | _ => NoAuth
           end;
         restartOnAuthFail := true |}.

(** The function in the runs in which [fs.watch] starts the watch. *)
Definition createWhatsAppClient (path_join : string → string → string)
  (config : WhatsAppConfig) : M ClientOptions :=
  createWhatsAppClient_at (λ _, None) path_join config.

End Startup.

(* ================================================================== *)
(** * The tool that reads the configuration *)
(* ================================================================== *)

Module Server.
Import Json Config Store Handler Tools.
Local Open Scope store_scope.

(** [!v] on a value that [JSON.parse] built.  It is not given for a
    number, where it depends on the value of the literal as a double. *)
Definition falsy (v : json) : option bool :=
  match v with
  | JNull => Some true
  | JBool b => Some (negb b)
  | JNum _ => None
  | JStr s => Some (String.eqb s "")
  | JArr _ => Some false
  | JObj _ => Some false
  end.

Inductive GetText : Type :=
| NoActiveConfiguration
| CurrentConfiguration (text : option string)
| GetFailed (error : exn).

Record GetResult : Type := {
  get_text : GetText;
  get_isError : bool;
}.

(** [get_current_webhook_config]; the text of [CurrentConfiguration] is
    what follows the heading line.  The answer is [None] on a stored
    number, where [falsy] is not given. *)
Definition get_current_webhook_config : M (option GetResult) :=
  try_catch
    (config ← getCurrentWebhookConfig;
     match config with
     | None =>
         ret (Some {| get_text := NoActiveConfiguration; get_isError := false |})
     | Some v =>
         match falsy v with
         | Some true =>
             ret (Some {| get_text := NoActiveConfiguration; get_isError := false |})
         | Some false =>
             ret (Some {| get_text := CurrentConfiguration (JSON_stringify config);
                          get_isError := false |})
         | None => ret None
         end
     end)
    (λ error, ret (Some {| get_text := GetFailed error; get_isError := true |})).

End Server.

(* ================================================================== *)
(** * The client with a configuration read once *)
(* ================================================================== *)

(** The variant of the client in [src/unnamed/part_000]: the webhook
    configuration is read when the client is created and kept in a
    constant; there is no module variable, watcher or update.  Its
    functions have the names of the functions of [whatsapp-client.ts];
    they are prefixed here to keep the two apart. *)
Module StaticClient.
Import Json Config Store Startup.
Local Open Scope store_scope.



End StaticClient.

(* ================================================================== *)
(** * Further notions used in the statements *)
(* ================================================================== *)

Module Notions.
Import Json Config Store Handler Tools Startup Server Samples.

(** The values of [message.type] that the [switch] of
    [prepareWebhookPayload] has a case for. *)
Definition switch_cases : list string :=
  ["text"; "image"; "video"; "audio"; "voice"; "document"; "sticker";
   "location"; "contact"; "reaction"; "group_invite"].

(** The group member of the payload, built from a chat. *)
Definition group_info (chat : Chat) : GroupInfo :=
  {| g_id := chat_id_serialized chat;
     g_name := chat_name chat;
     g_participants := map participant_info (default [] (participants chat)) |}.

(** The configuration that [update_webhook_config] builds from its
    arguments ([newConfig]). *)
Definition tool_config (url : string) (authToken : option string)
  (filters : option Filters) : WebhookConfig :=
  {| Config.url := url;
     Config.authToken := authToken;
     Config.filters :=
       Some {| allowedNumbers := Some (default [] (filters ≫= allowedNumbers));
               allowPrivate := Some (default true (filters ≫= allowPrivate));
               allowGroups := Some (default true (filters ≫= allowGroups)) |} |}.

(** A task that is a call of [updateWebhookConfig]. *)
Definition is_update (t : Task) : bool :=
  match t with
  | TaskUpdate _ _ => true
  | _ => false
  end.

(** A state right after the module is loaded: nothing stored, no
    watcher, and a data directory without a configuration file. *)
Definition no_file : State :=
  {| currentWebhookConfig := None;
     configWatcher := None;
     webhookConfigPath := None;
     files := ∅;
     dirs := {[ "data" ]};
     unwritable := ∅;
     log := [] |}.

(** The entry points of the two modules, and what else acts on their
    state: the file system's notifications and edits made from
    outside. *)
Inductive Op : Type :=
| OpStart (config : WhatsAppConfig)
| OpUpdate (newConfig : option json) (saveToFile : bool)
| OpFileEvent (path eventType : string)
| OpEdit (path text : string)
| OpMessage (env : Env) (message : Message)
| OpUpdateTool (url : string) (authToken configPath : option string)
    (saveToFile : option bool) (filters : option Filters)
| OpGetTool
| OpTestTool (env : Env) (now : Z) (url : string) (authToken : option string)
| OpDisableTool (saveToFile : option bool)
| OpReloadTool (configPath : option string).

Definition apply_op (path_join : string → string → string)
  (path_dirname : string → string) (o : Op) (st : State) : State :=
  match o with
  | OpStart config => (createWhatsAppClient path_join config st).1
  | OpUpdate c s => (updateWebhookConfig c s st).1
  | OpFileEvent p e => (file_event p e st).1
  | OpEdit p text => set_files (<[p := text]> (files st)) st
  | OpMessage env message =>
      store (run env (on_message message) {| store := st; outbox := [] |}).1
  | OpUpdateTool url authToken configPath saveToFile filters =>
      (update_webhook_config path_dirname url authToken configPath saveToFile
         filters st).1
  | OpGetTool => (get_current_webhook_config st).1
  | OpTestTool env now url authToken =>
      store (run env (test_webhook now url authToken) {| store := st; outbox := [] |}).1
  | OpDisableTool saveToFile => (disable_webhook saveToFile st).1
  | OpReloadTool configPath => (reload_webhook_config configPath st).1
  end.

Definition apply_ops (path_join : string → string → string)
  (path_dirname : string → string) (ops : list Op) (st : State) : State :=
  fold_left (λ s o, apply_op path_join path_dirname o s) ops st.

Definition is_start (o : Op) : bool :=
  match o with
  | OpStart _ => true
  | _ => false
  end.

(** A stored value that is [undefined], [null] or a value of the
    [WebhookConfig] interface. *)
Definition on_interface (c : option json) : Prop :=
  match c with
  | None => True
  | Some JNull => True
  | Some v => is_Some (as_WebhookConfig v)
  end.

(** A task that stores such a value. *)
Definition interface_update (t : Task) : Prop :=
  match t with
  | TaskUpdate c _ => on_interface c
  | _ => False
  end.

(** While the handlers of these events wait, the only other tasks are
    updates that store a value of the interface. *)
Definition through_interface (events : list (Message * Env)) : Prop :=
  Forall (λ ev, ∀ p, Forall interface_update (meanwhile ev.2 p)) events.

(** The handler got to the end of its [try]/[catch]. *)
Definition is_completed (r : exn + Exit) : bool :=
  match r with
  | inr Completed => true
  | _ => false
  end.

(** The watcher that is open, if any, watches the backing path. *)
Definition watcher_follows_path (st : State) : Prop :=
  ∀ w, configWatcher st = Some w → closed w = false →
       watched w = webhookConfigPath st.

End Notions.

(* ================================================================== *)
(** * Facts about JSON text *)
(* ================================================================== *)

Module JsonFacts.
Import Json.
Local Arguments String.append !_ _ / : simpl nomatch.

Abbreviation len := String.length.

Lemma append_assoc (a b c : string) : (a +:+ b) +:+ c = a +:+ (b +:+ c).
Proof. induction a as [|x a IH]; simpl; [done | by rewrite IH]. Qed.

(** ** Sample texts *)

Example parse_array :
  JSON_parse " [1, -2.5e3, true , null, [], {} ] " =
  Some (JArr [JNum "1"; JNum "-2.5e3"; JBool true; JNull; JArr []; JObj []]).
Proof. reflexivity. Qed.

Example parse_rejects :
  JSON_parse "undefined" = None ∧ JSON_parse "[1,]" = None ∧
  JSON_parse "[1.]" = None ∧ JSON_parse "01" = None ∧ JSON_parse "" = None ∧
  JSON_parse "truex" = None ∧ JSON_parse "{ url: 1 }" = None.
Proof. repeat split; reflexivity. Qed.

Example stringify_array :
  JSON_stringify (Some (JArr [JBool true; JArr [JNull]; JObj []])) =
  Some "[
  true,
  [
    null
  ],
  {}
]".
Proof. reflexivity. Qed.

Example stringify_undefined : JSON_stringify None = None.
Proof. reflexivity. Qed.

(** ** Every parsing function consumes text *)

Lemma skip_ws_length (s : string) : len (skip_ws s) ≤ len s.
Proof.
  induction s as [|c s IH]; simpl; [lia|].
  destruct (is_ws c); simpl; lia.
Qed.

Lemma strip_prefix_length (p s r : string) :
  strip_prefix p s = Some r → len r + len p = len s.
Proof.
  revert s; induction p as [|a p IH]; intros s H; simpl in *.
  - injection H as <-. lia.
  - destruct s as [|b s]; [done|].
    destruct (Ascii.eqb a b); [|done].
    apply IH in H. simpl. lia.
Qed.

Lemma token_length (c : ascii) (s r : string) :
  token c s = Some r → len r < len s.
Proof.
  unfold token. intros H.
  pose proof (skip_ws_length s) as Hs.
  destruct (skip_ws s) as [|a t]; [done|].
  destruct (Ascii.eqb a c); [|done].
  injection H as <-. simpl in Hs. lia.
Qed.

Lemma take_digits_length (s ds r : string) :
  take_digits s = (ds, r) → len r ≤ len s.
Proof.
  revert ds r; induction s as [|c s IH]; intros ds r H; simpl in *.
  - injection H as <- <-. simpl; lia.
  - destruct (is_digit c).
    + destruct (take_digits s) as [ds' r'] eqn:E.
      injection H as <- <-. specialize (IH _ _ eq_refl). lia.
    + injection H as <- <-. simpl; lia.
Qed.

Lemma parse_int_part_length (s i r : string) :
  parse_int_part s = Some (i, r) → len r < len s.
Proof.
  destruct s as [|c s]; simpl; [done|].
  destruct (Ascii.eqb c "0").
  - intros [= <- <-]. lia.
  - destruct (is_digit19 c); [|done].
    destruct (take_digits s) as [ds r'] eqn:E.
    intros [= <- <-]. apply take_digits_length in E. lia.
Qed.

Lemma parse_frac_part_length (s f r : string) :
  parse_frac_part s = Some (f, r) → len r ≤ len s.
Proof.
  unfold parse_frac_part.
  destruct s as [|c s]; [intros [= <- <-]; lia|].
  destruct (Ascii.eqb c ".") eqn:Ec.
  - apply Ascii.eqb_eq in Ec as ->.
    destruct (take_digits s) as [ds r'] eqn:E.
    apply take_digits_length in E.
    destruct ds; [done|]. intros [= <- <-]. simpl. lia.
  - assert (∀ X : option (string * string),
      match c with
      | "."%char => X
      | _ => Some ("", String c s)
      end = Some ("", String c s)) as Hc.
    { intros X. destruct c as [[] [] [] [] [] [] [] []]; try reflexivity.
      discriminate Ec. }
    rewrite Hc. intros [= <- <-]. lia.
Qed.

Lemma parse_exp_part_length (s e r : string) :
  parse_exp_part s = Some (e, r) → len r ≤ len s.
Proof.
  unfold parse_exp_part.
  destruct s as [|c s]; [intros [= <- <-]; lia|].
  destruct (Ascii.eqb c "e" || Ascii.eqb c "E"); [|intros [= <- <-]; lia].
  destruct s as [|g s0].
  - simpl. done.
  - destruct (Ascii.eqb g "+" || Ascii.eqb g "-").
    + destruct (take_digits s0) as [ds r'] eqn:E.
      apply take_digits_length in E.
      destruct ds; [done|]. intros [= <- <-]. simpl. lia.
    + destruct (take_digits (String g s0)) as [ds r'] eqn:E.
      apply take_digits_length in E.
      destruct ds; [done|]. intros [= <- <-]. simpl in *. lia.
Qed.

Lemma parse_number_length (s lit r : string) :
  parse_number s = Some (lit, r) → len r < len s.
Proof.
  unfold parse_number.
  assert (∃ sign s0, (match s with
                      | String "-"%char r0 => ("-", r0)
                      | _ => ("", s)
                      end) = (sign, s0) ∧ len s0 ≤ len s) as (sign & s0 & -> & Hs0).
  { destruct s as [|c s']; [by eexists _, _|].
    destruct c as [[] [] [] [] [] [] [] []];
      (eexists _, _; split; [reflexivity|simpl; lia]). }
  destruct (parse_int_part s0) as [[i s1]|] eqn:Ei; [|done].
  destruct (parse_frac_part s1) as [[f s2]|] eqn:Ef; [|done].
  destruct (parse_exp_part s2) as [[e s3]|] eqn:Ee; [|done].
  intros [= <- <-].
  apply parse_int_part_length in Ei.
  apply parse_frac_part_length in Ef.
  apply parse_exp_part_length in Ee. lia.
Qed.

Lemma parse_literal_length (s : string) (v : json) (r : string) :
  parse_literal s = POk v r → len r < len s.
Proof.
  unfold parse_literal.
  destruct (strip_prefix "true" s) eqn:E1.
  { intros [= <- <-]. apply strip_prefix_length in E1. simpl in E1. lia. }
  destruct (strip_prefix "false" s) eqn:E2.
  { intros [= <- <-]. apply strip_prefix_length in E2. simpl in E2. lia. }
  destruct (strip_prefix "null" s) eqn:E3.
  { intros [= <- <-]. apply strip_prefix_length in E3. simpl in E3. lia. }
  destruct (parse_number s) as [[lit r']|] eqn:E4; [|done].
  intros [= <- <-]. by apply parse_number_length in E4.
Qed.

Lemma parse_string_body_length (s t r : string) :
  parse_string_body s = Some (t, r) → len r < len s.
Proof.
  remember (len s) as n eqn:Hn.
  assert (len s ≤ n) as Hle by lia. clear Hn.
  revert s t r Hle.
  induction n as [|n IH]; intros s t r Hle H.
  - destruct s; [done | simpl in Hle; lia].
  - destruct s as [|c s]; [done|].
    simpl in Hle, H.
    repeat match type of H with
    | context [parse_string_body ?x] =>
        let E := fresh "E" in
        destruct (parse_string_body x) as [[? ?]|] eqn:E;
        [apply IH in E; [|simpl in *; lia] |]
    | context [match ?x with _ => _ end] => destruct x eqn:?
    end; simplify_eq; simpl in *; lia.
Qed.

(** ** The recursion budget never decides the outcome *)

Lemma below_refl {A : Type} (r : presult A) : below r r.
Proof. by right. Qed.

Lemma below_map {A B : Type} (f : A → B) (r r' : presult A) :
  below r r' → below (presult_map f r) (presult_map f r').
Proof. intros [-> | ->]; [by left | by right]. Qed.

Lemma below_then {A B : Type} (r r' : presult A) (k k' : A → string → presult B) :
  below r r' → (∀ a s, below (k a s) (k' a s)) →
  below (presult_then r k) (presult_then r' k').
Proof.
  intros [-> | ->] Hk; [by left|].
  destruct r'; simpl; [apply Hk | by right | by right].
Qed.

Lemma value_step_mono pe pe' pm pm' (s : string) :
  (∀ x, below (pe x) (pe' x)) → (∀ x, below (pm x) (pm' x)) →
  below (value_step pe pm s) (value_step pe' pm' s).
Proof.
  intros He Hm. unfold value_step.
  destruct (skip_ws s) as [|c r]; [apply below_refl|].
  destruct (Ascii.eqb c "{").
  { destruct (token "}" r); [apply below_refl | apply below_map, Hm]. }
  destruct (Ascii.eqb c "[").
  { destruct (token "]" r); [apply below_refl | apply below_map, He]. }
  apply below_refl.
Qed.

Lemma elements_step_mono pv pv' pe pe' (s : string) :
  (∀ x, below (pv x) (pv' x)) → (∀ x, below (pe x) (pe' x)) →
  below (elements_step pv pe s) (elements_step pv' pe' s).
Proof.
  intros Hv He. unfold elements_step.
  apply below_then; [apply Hv|]. intros v r.
  destruct (token "," r); [apply below_map, He | apply below_refl].
Qed.

Lemma members_step_mono pv pv' pm pm' (s : string) :
  (∀ x, below (pv x) (pv' x)) → (∀ x, below (pm x) (pm' x)) →
  below (members_step pv pm s) (members_step pv' pm' s).
Proof.
  intros Hv Hm. unfold members_step.
  destruct (token dquote s) as [r|]; [|apply below_refl].
  destruct (parse_string_body r) as [[k r1]|]; [|apply below_refl].
  destruct (token ":" r1) as [r2|]; [|apply below_refl].
  apply below_then; [apply Hv|]. intros v r3.
  destruct (token "," r3); [apply below_map, Hm | apply below_refl].
Qed.

Lemma parse_step_up (f : nat) :
  (∀ s, below (parse_value f s) (parse_value (S f) s)) ∧
  (∀ s, below (parse_elements f s) (parse_elements (S f) s)) ∧
  (∀ s, below (parse_members f s) (parse_members (S f) s)).
Proof.
  induction f as [|f (IHv & IHe & IHm)].
  - repeat split; intros s; by left.
  - repeat split; intros s.
    + apply value_step_mono; assumption.
    + apply elements_step_mono; assumption.
    + apply members_step_mono; assumption.
Qed.

(** More budget changes no outcome other than [PFuel]. *)
Lemma parse_value_up (f f' : nat) (s : string) :
  f ≤ f' → below (parse_value f s) (parse_value f' s).
Proof.
  induction 1 as [|f' _ IH]; [apply below_refl|].
  destruct IH as [IH | IH]; [by left|].
  rewrite IH. apply parse_step_up.
Qed.

(** A parsed value leaves less text than it was given. *)
Lemma parse_shorter (f : nat) :
  (∀ s v r, parse_value f s = POk v r → len r < len s) ∧
  (∀ s v r, parse_elements f s = POk v r → len r < len s) ∧
  (∀ s v r, parse_members f s = POk v r → len r < len s).
Proof.
  induction f as [|f (IHv & IHe & IHm)]; [by repeat split|].
  repeat split; intros s v r; simpl.
  - unfold value_step.
    pose proof (skip_ws_length s) as Hs.
    destruct (skip_ws s) as [|c t]; [done|]. simpl in Hs.
    destruct (Ascii.eqb c "{").
    { destruct (token "}" t) as [r'|] eqn:Et.
      - intros [= <- <-]. apply token_length in Et. lia.
      - destruct (parse_members f t) as [ms r'| |] eqn:Em; [|done..].
        intros [= <- <-]. apply IHm in Em. lia. }
    destruct (Ascii.eqb c "[").
    { destruct (token "]" t) as [r'|] eqn:Et.
      - intros [= <- <-]. apply token_length in Et. lia.
      - destruct (parse_elements f t) as [ms r'| |] eqn:Em; [|done..].
        intros [= <- <-]. apply IHe in Em. lia. }
    destruct (Ascii.eqb c dquote).
    { destruct (parse_string_body t) as [[str r']|] eqn:Eb; [|done].
      intros [= <- <-]. apply parse_string_body_length in Eb. lia. }
    intros H%parse_literal_length. simpl in H. lia.
  - unfold elements_step.
    destruct (parse_value f s) as [x r1| |] eqn:Ev; [|done..]. simpl.
    apply IHv in Ev.
    destruct (token "," r1) as [r2|] eqn:Ec.
    { apply token_length in Ec.
      destruct (parse_elements f r2) as [xs r3| |] eqn:Ee; [|done..].
      intros [= <- <-]. apply IHe in Ee. lia. }
    destruct (token "]" r1) as [r2|] eqn:Eb; [|done].
    intros [= <- <-]. apply token_length in Eb. lia.
  - unfold members_step.
    destruct (token dquote s) as [r0|] eqn:Eq; [|done].
    apply token_length in Eq.
    destruct (parse_string_body r0) as [[k r1]|] eqn:Ek; [|done].
    apply parse_string_body_length in Ek.
    destruct (token ":" r1) as [r2|] eqn:Eo; [|done].
    apply token_length in Eo.
    destruct (parse_value f r2) as [x r3| |] eqn:Ev; [|done..]. simpl.
    apply IHv in Ev.
    destruct (token "," r3) as [r4|] eqn:Ec.
    { apply token_length in Ec.
      destruct (parse_members f r4) as [ms r5| |] eqn:Em; [|done..].
      intros [= <- <-]. apply IHm in Em. lia. }
    destruct (token "}" r3) as [r4|] eqn:Eb; [|done].
    intros [= <- <-]. apply token_length in Eb. lia.
Qed.

(** Twice the length of the text is budget enough. *)
Lemma parse_enough (f : nat) :
  (∀ s, 2 * len s + 1 ≤ f → parse_value f s ≠ PFuel) ∧
  (∀ s, 2 * len s + 2 ≤ f → parse_elements f s ≠ PFuel) ∧
  (∀ s, 2 * len s + 2 ≤ f → parse_members f s ≠ PFuel).
Proof.
  induction f as [|f (IHv & IHe & IHm)]; [repeat split; intros; lia|].
  destruct (parse_shorter f) as (Sv & Se & Sm).
  repeat split; intros s Hf; simpl.
  - unfold value_step.
    pose proof (skip_ws_length s) as Hs.
    destruct (skip_ws s) as [|c t]; [done|]. simpl in Hs.
    destruct (Ascii.eqb c "{").
    { destruct (token "}" t); [done|].
      specialize (IHm t). destruct (parse_members f t); [done|done|].
      exfalso. apply IHm; [lia|done]. }
    destruct (Ascii.eqb c "[").
    { destruct (token "]" t); [done|].
      specialize (IHe t). destruct (parse_elements f t); [done|done|].
      exfalso. apply IHe; [lia|done]. }
    destruct (Ascii.eqb c dquote).
    { by destruct (parse_string_body t) as [[??]|]. }
    unfold parse_literal.
    repeat match goal with
    | |- context [match ?x with _ => _ end] => destruct x
    end; done.
  - unfold elements_step.
    specialize (IHv s).
    destruct (parse_value f s) as [x r1| |] eqn:Ev; simpl; [|done|].
    2:{ exfalso. apply IHv; [lia|done]. }
    apply Sv in Ev.
    destruct (token "," r1) as [r2|] eqn:Ec.
    { apply token_length in Ec. specialize (IHe r2).
      destruct (parse_elements f r2); [done|done|].
      exfalso. apply IHe; [lia|done]. }
    by destruct (token "]" r1).
  - unfold members_step.
    destruct (token dquote s) as [r0|] eqn:Eq; [|done].
    apply token_length in Eq.
    destruct (parse_string_body r0) as [[k r1]|] eqn:Ek; [|done].
    apply parse_string_body_length in Ek.
    destruct (token ":" r1) as [r2|] eqn:Eo; [|done].
    apply token_length in Eo.
    specialize (IHv r2).
    destruct (parse_value f r2) as [x r3| |] eqn:Ev; simpl; [|done|].
    2:{ exfalso. apply IHv; [lia|done]. }
    apply Sv in Ev.
    destruct (token "," r3) as [r4|] eqn:Ec.
    { apply token_length in Ec. specialize (IHm r4).
      destruct (parse_members f r4); [done|done|].
      exfalso. apply IHm; [lia|done]. }
    by destruct (token "}" r3).
Qed.

(** [JSON_parse] gives [None] only for text that is not JSON: its
    budget is never used up, and any larger budget gives the same. *)
Lemma JSON_parse_budget (text : string) (f : nat) :
  2 * len text + 1 ≤ f →
  parse_value f text = parse_value (2 * len text + 1) text ∧
  parse_value f text ≠ PFuel.
Proof.
  intros Hf.
  destruct (parse_enough (2 * len text + 1)) as (Hv & _ & _).
  specialize (Hv text (le_n _)).
  destruct (parse_value_up (2 * len text + 1) f text Hf) as [E | E]; [done|].
  split; [done | by rewrite <- E].
Qed.

(** ** Parsing what [JSON.stringify] wrote *)

Lemma json_induction (P : json → Prop) :
  P JNull → (∀ b, P (JBool b)) → (∀ lit, P (JNum lit)) → (∀ s, P (JStr s)) →
  (∀ xs, Forall P xs → P (JArr xs)) →
  (∀ kvs, Forall (λ kv, P (snd kv)) kvs → P (JObj kvs)) →
  ∀ v, P v.
Proof.
  intros Hnull Hbool Hnum Hstr Harr Hobj.
  fix IH 1. intros [ |b|lit|s|xs|kvs].
  - apply Hnull.
  - apply Hbool.
  - apply Hnum.
  - apply Hstr.
  - apply Harr. induction xs as [|x xs IHxs]; constructor; [apply IH | apply IHxs].
  - apply Hobj. induction kvs as [|[k x] kvs IHkvs]; constructor;
      [apply IH | apply IHkvs].
Qed.

Lemma ser_arr (n : nat) (x : json) (xs : list json) :
  ser n (JArr (x :: xs)) = "[" +:+ nl (S n) +:+ ser (S n) x +:+ ser_items n xs.
Proof.
  cbn [ser]. do 3 f_equal.
  induction xs as [|y xs IH]; [done|]. cbn [ser_items]. by rewrite <- IH.
Qed.

Lemma ser_obj (n : nat) (k : string) (x : json) (kvs : list (string * json)) :
  ser n (JObj ((k, x) :: kvs)) =
  "{" +:+ nl (S n) +:+ quote k +:+ ": " +:+ ser (S n) x +:+ ser_members n kvs.
Proof.
  cbn [ser]. do 5 f_equal.
  induction kvs as [|[k' y] kvs IH]; [done|]. cbn [ser_members]. by rewrite <- IH.
Qed.

Lemma parse_escape_char (c : ascii) (t s' rest : string) :
  parse_string_body t = Some (s', rest) →
  parse_string_body (escape_char c +:+ t) = Some (String c s', rest).
Proof.
  intros H.
  destruct c as [[] [] [] [] [] [] [] []]; simpl; rewrite ?H; reflexivity.
Qed.

Lemma parse_quote_body (s rest : string) :
  parse_string_body (quote_body s +:+ String dquote rest) = Some (s, rest).
Proof.
  induction s as [|c s IH]; [done|].
  change (quote_body (String c s)) with (escape_char c +:+ quote_body s).
  rewrite append_assoc. by apply parse_escape_char.
Qed.

Lemma quote_app (s rest : string) :
  quote s +:+ rest = String dquote (quote_body s +:+ String dquote rest).
Proof. unfold quote. simpl. by rewrite append_assoc. Qed.

Lemma skip_ws_spaces (n : nat) (t : string) : skip_ws (spaces n +:+ t) = skip_ws t.
Proof. induction n as [|n IH]; [done | exact IH]. Qed.

Lemma skip_ws_nl (n : nat) (t : string) : skip_ws (nl n +:+ t) = skip_ws t.
Proof. unfold nl. simpl. apply skip_ws_spaces. Qed.

Lemma token_nl (c : ascii) (n : nat) (t : string) : token c (nl n +:+ t) = token c t.
Proof. unfold token. by rewrite skip_ws_nl. Qed.

Lemma parse_value_nl (f n : nat) (t : string) :
  parse_value f (nl n +:+ t) = parse_value f t.
Proof.
  destruct f; [done|]. cbn [parse_value]. unfold value_step. by rewrite skip_ws_nl.
Qed.

Lemma parse_value_space (f : nat) (t : string) :
  parse_value f (String " " t) = parse_value f t.
Proof. by destruct f. Qed.

(** The first character of a written value starts a token that is neither
    a closing bracket nor a closing brace. *)
Lemma ser_head (n : nat) (v : json) (rest : string) :
  plain v = true →
  ∃ c t, ser n v +:+ rest = String c t ∧ is_ws c = false ∧
         Ascii.eqb c "]" = false ∧ Ascii.eqb c "}" = false.
Proof.
  destruct v as [ |[]|lit|s|[|x xs]|[|[k x] kvs]]; intros Hp; try done;
    rewrite ?ser_arr, ?ser_obj, ?quote_app; by eexists _, _.
Qed.

Lemma obj_set_fresh (k : string) (v : json) (kvs : list (string * json)) :
  existsb (String.eqb k) (map fst kvs) = false →
  obj_set k v kvs = kvs ++ [(k, v)].
Proof.
  induction kvs as [|[k' v'] kvs IH]; simpl; [done|].
  destruct (String.eqb k k'); [done|]. simpl. intros H. by rewrite IH.
Qed.

Lemma existsb_app_single (k k0 : string) (ks : list string) :
  existsb (String.eqb k) (ks ++ [k0]) = existsb (String.eqb k) ks || String.eqb k k0.
Proof. rewrite existsb_app. simpl. by rewrite orb_false_r. Qed.

Lemma obj_of_members_distinct (kvs : list (string * json)) :
  distinct (map fst kvs) = true → obj_of_members kvs = kvs.
Proof.
  unfold obj_of_members.
  assert (∀ acc,
    distinct (map fst kvs) = true →
    (∀ k, k ∈ map fst kvs → existsb (String.eqb k) (map fst acc) = false) →
    fold_left (λ a kv, obj_set (fst kv) (snd kv) a) kvs acc = acc ++ kvs) as H.
  { induction kvs as [|[k v] kvs IH]; intros acc Hd Hacc; simpl.
    - by rewrite app_nil_r.
    - simpl in Hd. apply andb_true_iff in Hd as [Hk Hd].
      apply negb_true_iff in Hk.
      rewrite obj_set_fresh by (apply Hacc; simpl; left).
      rewrite IH; [by rewrite <- app_assoc | done |].
      intros k' Hk'. rewrite map_app. cbn [map fst]. rewrite existsb_app_single.
      rewrite Hacc by (simpl; by right). simpl.
      destruct (String.eqb k' k) eqn:E; [|done].
      apply String.eqb_eq in E as ->.
      apply not_true_iff_false in Hk. exfalso. apply Hk.
      apply existsb_exists. exists k. split; [|apply String.eqb_refl].
      by apply list_elem_of_In. }
  intros Hd. by apply (H []).
Qed.

Lemma ser_items_roundtrip (n : nat) (xs : list json) :
  Forall (λ v, plain v = true → ∀ n rest, ∃ f0, ∀ f, f0 ≤ f →
                 parse_value f (ser n v +:+ rest) = POk v rest) xs →
  forallb plain xs = true →
  ∀ x rest,
    plain x = true →
    (∀ n rest, ∃ f0, ∀ f, f0 ≤ f → parse_value f (ser n x +:+ rest) = POk x rest) →
    ∃ f0, ∀ f, f0 ≤ f →
      parse_elements f (nl (S n) +:+ ser (S n) x +:+ ser_items n xs +:+ rest)
      = POk (x :: xs) rest.
Proof.
  induction 1 as [|y xs Hy Hxs IH]; intros Hp x rest Hpx Hx.
  - destruct (Hx (S n) (ser_items n [] +:+ rest)) as [f0 Hf0].
    exists (S f0). intros [|f] Hf; [lia|].
    cbn [parse_elements]. unfold elements_step.
    rewrite parse_value_nl, Hf0 by lia.
    cbn [presult_then ser_items]. rewrite append_assoc, !token_nl.
    done.
  - simpl in Hp. apply andb_true_iff in Hp as [Hpy Hp].
    destruct (Hx (S n) (ser_items n (y :: xs) +:+ rest)) as [f0 Hf0].
    destruct (IH Hp y rest Hpy (Hy Hpy)) as [f1 Hf1].
    exists (S (f0 `max` f1)). intros [|f] Hf; [lia|].
    cbn [parse_elements]. unfold elements_step.
    rewrite parse_value_nl, Hf0 by lia.
    cbn [presult_then ser_items].
    rewrite !append_assoc.
    change (token "," ("," +:+ ?t)) with (Some t).
    cbn match.
    rewrite Hf1 by lia.
    done.
Qed.

Lemma ser_members_roundtrip (n : nat) (kvs : list (string * json)) :
  Forall (λ kv, plain (snd kv) = true → ∀ n rest, ∃ f0, ∀ f, f0 ≤ f →
                 parse_value f (ser n (snd kv) +:+ rest) = POk (snd kv) rest) kvs →
  forallb (λ kv, plain (snd kv)) kvs = true →
  ∀ k x rest,
    (∀ n rest, ∃ f0, ∀ f, f0 ≤ f → parse_value f (ser n x +:+ rest) = POk x rest) →
    ∃ f0, ∀ f, f0 ≤ f →
      parse_members f
        (nl (S n) +:+ quote k +:+ ": " +:+ ser (S n) x +:+ ser_members n kvs +:+ rest)
      = POk ((k, x) :: kvs) rest.
Proof.
  induction 1 as [|[k' y] kvs Hy Hkvs IH]; intros Hp k x rest Hx.
  - destruct (Hx (S n) (ser_members n [] +:+ rest)) as [f0 Hf0].
    exists (S f0). intros [|f] Hf; [lia|].
    cbn [parse_members]. unfold members_step.
    rewrite token_nl, quote_app.
    change (token dquote (String dquote ?t)) with (Some t). cbn match.
    rewrite parse_quote_body.
    change (token ":" (": " +:+ ?t)) with (Some (String " " t)). cbn match.
    rewrite parse_value_space, Hf0 by lia.
    cbn [presult_then ser_members]. rewrite append_assoc, !token_nl.
    done.
  - simpl in Hp. apply andb_true_iff in Hp as [Hpy Hp].
    destruct (Hx (S n) (ser_members n ((k', y) :: kvs) +:+ rest)) as [f0 Hf0].
    destruct (IH Hp k' y rest (Hy Hpy)) as [f1 Hf1].
    exists (S (f0 `max` f1)). intros [|f] Hf; [lia|].
    cbn [parse_members]. unfold members_step.
    rewrite token_nl, quote_app.
    change (token dquote (String dquote ?t)) with (Some t). cbn match.
    rewrite parse_quote_body.
    change (token ":" (": " +:+ ?t)) with (Some (String " " t)). cbn match.
    rewrite parse_value_space, Hf0 by lia.
    cbn [presult_then ser_members].
    rewrite !append_assoc.
    change (token "," ("," +:+ ?t)) with (Some t).
    cbn match.
    rewrite Hf1 by lia.
    done.
Qed.

(** With budget enough, a written value is read back, and the text
    after it is left. *)
Lemma ser_roundtrip (v : json) :
  plain v = true →
  ∀ n rest, ∃ f0, ∀ f, f0 ≤ f → parse_value f (ser n v +:+ rest) = POk v rest.
Proof.
  induction v as [ |b|lit|s|xs IH|kvs IH] using json_induction;
    intros Hp n rest.
  - exists 1. intros [|f] Hf; [lia|]. done.
  - exists 1. intros [|f] Hf; [lia|]. by destruct b.
  - done.
  - exists 1. intros [|f] Hf; [lia|].
    cbn [parse_value ser]. rewrite quote_app. unfold value_step.
    cbn. by rewrite parse_quote_body.
  - destruct xs as [|x xs].
    { exists 1. intros [|f] Hf; [lia|]. done. }
    simpl in Hp. apply andb_true_iff in Hp as [Hpx Hp].
    apply Forall_cons in IH as [IHx IHxs].
    destruct (ser_items_roundtrip n xs IHxs Hp x rest Hpx (IHx Hpx)) as [f0 Hf0].
    exists (S f0). intros [|f] Hf; [lia|].
    rewrite ser_arr, !append_assoc.
    cbn [parse_value]. unfold value_step.
    change (skip_ws ("[" +:+ ?t)) with (String "[" t).
    cbn match. cbn [Ascii.eqb Bool.eqb].
    rewrite token_nl.
    destruct (ser_head (S n) x (ser_items n xs +:+ rest) Hpx)
      as (c & t & E & Hws & Hb & _).
    unfold token at 1. rewrite E. cbn [skip_ws]. rewrite Hws, Hb.
    rewrite <- E, Hf0 by lia. done.
  - destruct kvs as [|[k x] kvs].
    { exists 1. intros [|f] Hf; [lia|]. done. }
    simpl in Hp. apply andb_true_iff in Hp as [Hd Hp].
    apply andb_true_iff in Hp as [Hpx Hp].
    apply Forall_cons in IH as [IHx IHkvs].
    destruct (ser_members_roundtrip n kvs IHkvs Hp k x rest (IHx Hpx)) as [f0 Hf0].
    exists (S f0). intros [|f] Hf; [lia|].
    rewrite ser_obj, !append_assoc.
    cbn [parse_value]. unfold value_step.
    change (skip_ws ("{" +:+ ?t)) with (String "{" t).
    cbn match. cbn [Ascii.eqb Bool.eqb].
    rewrite token_nl, quote_app.
    change (token "}" (String dquote ?t)) with (@None string).
    cbn match.
    rewrite <- quote_app, Hf0 by lia.
    cbn [presult_map]. by rewrite obj_of_members_distinct.
Qed.

(** [JSON.parse] undoes [JSON.stringify(v, null, 2)]. *)
Lemma JSON_parse_stringify (v : json) :
  plain v = true → JSON_parse (ser 0 v) = Some v.
Proof.
  intros Hp. unfold JSON_parse.
  destruct (ser_roundtrip v Hp 0 "") as [f0 Hf0].
  assert (ser 0 v +:+ "" = ser 0 v) as Happ.
  { generalize (ser 0 v). intros s. induction s as [|c s IH]; simpl; [done | by rewrite IH]. }
  rewrite Happ in Hf0.
  set (F := 2 * len (ser 0 v) + 1).
  destruct (JSON_parse_budget (ser 0 v) (F `max` f0)) as [E _]; [lia|].
  fold F in E. rewrite <- E, Hf0 by lia. done.
Qed.

End JsonFacts.

(* ================================================================== *)
(** * Facts about configurations *)
(* ================================================================== *)

Module ConfigFacts.
Import Json Config JsonFacts.

Lemma plain_strings (l : list string) : forallb plain (JStr <$> l) = true.
Proof. by induction l. Qed.

Lemma as_strings_strings (l : list string) : as_strings (JStr <$> l) = Some l.
Proof. induction l as [|s l IH]; [done|]. cbn. fold (fmap JStr l). by rewrite IH. Qed.

Lemma filters_plain (f : Filters) : plain (filters_to_json f) = true.
Proof.
  destruct f as [[l|] [p|] [g|]]; cbn; rewrite ?plain_strings; done.
Qed.

(** The object of a configuration has no numbers and no repeated key. *)
Lemma config_plain (c : WebhookConfig) : plain (config_to_json c) = true.
Proof.
  destruct c as [u [t|] [[[l|] [p|] [g|]]|]]; cbn; rewrite ?plain_strings; done.
Qed.

Lemma as_Filters_to_json (f : Filters) : as_Filters (filters_to_json f) = Some f.
Proof.
  destruct f as [[l|] [p|] [g|]]; cbn; rewrite ?as_strings_strings; done.
Qed.

(** A configuration written as an object and read back through the
    interface is the configuration. *)
Lemma as_WebhookConfig_to_json (c : WebhookConfig) :
  as_WebhookConfig (config_to_json c) = Some c.
Proof.
  destruct c as [u [t|] [[[l|] [p|] [g|]]|]]; cbn; rewrite ?as_strings_strings; done.
Qed.

(** Written with [JSON.stringify(c, null, 2)] and parsed again, the
    object of a configuration comes back. *)
Lemma config_text_roundtrip (c : WebhookConfig) :
  JSON_parse (ser 0 (config_to_json c)) = Some (config_to_json c).
Proof. apply JSON_parse_stringify, config_plain. Qed.

End ConfigFacts.

(* ================================================================== *)
(** * Facts about the configuration store *)
(* ================================================================== *)

Module StoreFacts.
Import Json Config Store.
Local Open Scope store_scope.

(** Unfold a computation of the store down to its state function. *)
Ltac unfold_store f :=
  cbv [f bind modify logger gets try_catch throw ret
       fs_writeFileSync fs_readFileSync fs_existsSync fs_mkdirSync fs_watch];
  simpl.

(** ** [updateWebhookConfig] *)

(** The in-memory value is the new one, whatever happens to the file,
    and nothing is thrown. *)
Lemma updateWebhookConfig_memory (c : option json) (s : bool) (st : State) :
  currentWebhookConfig (updateWebhookConfig c s st).1 = c ∧
  (updateWebhookConfig c s st).2 = inr tt.
Proof.
  unfold_store updateWebhookConfig.
  destruct s; [|done].
  destruct (truthy (webhookConfigPath st)) as [p|]; [|done].
  destruct (JSON_stringify c) as [text|]; [|done]. simpl.
  by destruct (bool_decide (p ∈ unwritable st)).
Qed.

(** Asked to save a value to a known, writable path, it leaves the
    text of the value in the file. *)
Lemma updateWebhookConfig_saves (v : json) (p : string) (st : State) :
  webhookConfigPath st = Some p → p ≠ "" → p ∉ unwritable st →
  files (updateWebhookConfig (Some v) true st).1 = <[p := ser 0 v]> (files st).
Proof.
  intros Hp Hne Hw.
  unfold_store updateWebhookConfig. rewrite Hp. simpl.
  destruct (String.eqb p "") eqn:E; [by apply String.eqb_eq in E|]. simpl.
  by rewrite bool_decide_eq_false_2.
Qed.

(** Given [undefined], it never touches a file. *)
Lemma updateWebhookConfig_undefined (s : bool) (st : State) :
  files (updateWebhookConfig None s st).1 = files st.
Proof.
  unfold_store updateWebhookConfig.
  destruct s; [|done].
  by destruct (truthy (webhookConfigPath st)).
Qed.

(** ** The logger is write-only *)

Lemma hush_fields (s1 s2 : State) :
  hush s1 = hush s2 →
  currentWebhookConfig s1 = currentWebhookConfig s2 ∧
  configWatcher s1 = configWatcher s2 ∧
  webhookConfigPath s1 = webhookConfigPath s2 ∧
  files s1 = files s2 ∧ dirs s1 = dirs s2 ∧ unwritable s1 = unwritable s2.
Proof. intros [= -> -> -> -> -> ->]. done. Qed.

Lemma hush_eq (s1 s2 : State) :
  currentWebhookConfig s1 = currentWebhookConfig s2 →
  configWatcher s1 = configWatcher s2 →
  webhookConfigPath s1 = webhookConfigPath s2 →
  files s1 = files s2 → dirs s1 = dirs s2 → unwritable s1 = unwritable s2 →
  hush s1 = hush s2.
Proof. unfold hush, set_log. by intros -> -> -> -> -> ->. Qed.

Lemma blind_ret {A : Type} (a : A) : blind (ret a).
Proof. by intros s1 s2 H. Qed.

Lemma blind_throw {A : Type} (e : exn) : blind (@throw A e).
Proof. by intros s1 s2 H. Qed.

Lemma blind_bind {A B : Type} (m : M A) (k : A → M B) :
  blind m → (∀ a, blind (k a)) → blind (bind m k).
Proof.
  intros Hm Hk s1 s2 H. unfold bind.
  destruct (Hm s1 s2 H) as [H1 H2].
  destruct (m s1) as [t1 [e1|a1]], (m s2) as [t2 [e2|a2]]; simpl in *;
    [injection H2 as ->; by split | discriminate H2 | discriminate H2 |].
  injection H2 as ->. by apply Hk.
Qed.

Lemma blind_try {A : Type} (m : M A) (h : exn → M A) :
  blind m → (∀ e, blind (h e)) → blind (try_catch m h).
Proof.
  intros Hm Hh s1 s2 H. unfold try_catch.
  destruct (Hm s1 s2 H) as [H1 H2].
  destruct (m s1) as [t1 [e1|a1]], (m s2) as [t2 [e2|a2]]; simpl in *;
    [| discriminate H2 | discriminate H2 | by split].
  injection H2 as ->. by apply Hh.
Qed.

Lemma blind_gets {A : Type} (f : State → A) :
  (∀ s1 s2, hush s1 = hush s2 → f s1 = f s2) → blind (gets f).
Proof. intros Hf s1 s2 H. unfold gets. simpl. split; [done|]. f_equal. by apply Hf. Qed.

Lemma blind_modify (f : State → State) :
  (∀ s1 s2, hush s1 = hush s2 → hush (f s1) = hush (f s2)) → blind (modify f).
Proof. intros Hf s1 s2 H. unfold modify. simpl. split; [by apply Hf | done]. Qed.

Lemma blind_logger (l : Level) (m : string) (a : LogArg) : blind (logger l m a).
Proof. apply blind_modify. intros s1 s2 H. exact H. Qed.

Lemma blind_set_config (c : option json) : blind (modify (set_config c)).
Proof.
  apply blind_modify. intros s1 s2 (_ & ? & ? & ? & ? & ?)%hush_fields.
  by apply hush_eq.
Qed.

Lemma blind_set_watcher (w : option Watcher) : blind (modify (set_watcher w)).
Proof.
  apply blind_modify. intros s1 s2 (? & _ & ? & ? & ? & ?)%hush_fields.
  by apply hush_eq.
Qed.

Lemma blind_existsSync (p : option string) : blind (fs_existsSync p).
Proof.
  apply blind_gets. intros s1 s2 (_ & _ & _ & Hf & Hd & _)%hush_fields.
  by rewrite Hf, Hd.
Qed.

Lemma blind_readFileSync (p : option string) : blind (fs_readFileSync p).
Proof.
  intros s1 s2 H. pose proof (hush_fields _ _ H) as (_ & _ & _ & Hf & _ & _).
  unfold fs_readFileSync. destruct p as [q|]; [|done].
  rewrite Hf. by destruct (files s2 !! q).
Qed.

Lemma blind_writeFileSync (p data : option string) : blind (fs_writeFileSync p data).
Proof.
  intros s1 s2 H.
  pose proof (hush_fields _ _ H) as (? & ? & ? & Hf & ? & Hu).
  unfold fs_writeFileSync. destruct p as [q|], data as [text|]; try done.
  rewrite Hu. destruct (bool_decide (q ∈ unwritable s2)); [done|].
  simpl. split; [|done]. apply hush_eq; simpl; congruence.
Qed.

Lemma blind_watcher_callback (eventType : string) : blind (watcher_callback eventType).
Proof.
  unfold watcher_callback. destruct (String.eqb eventType "change"); [|apply blind_ret].
  apply blind_bind; [apply blind_logger|]. intros _.
  apply blind_try; [|intros e; apply blind_logger].
  apply blind_bind.
  { apply blind_gets. by intros s1 s2 (_ & _ & ? & _)%hush_fields. }
  intros p. apply blind_bind; [apply blind_readFileSync|]. intros text.
  destruct (JSON_parse text); [|apply blind_throw].
  apply blind_bind; [apply blind_set_config | intros _; apply blind_logger].
Qed.

Lemma blind_file_event (path eventType : string) : blind (file_event path eventType).
Proof.
  unfold file_event. apply blind_bind.
  { apply blind_gets. by intros s1 s2 (_ & ? & _)%hush_fields. }
  intros [[[q|] []]|]; try apply blind_ret.
  destruct (String.eqb q path); [apply blind_watcher_callback | apply blind_ret].
Qed.

Lemma blind_updateWebhookConfig (c : option json) (s : bool) :
  blind (updateWebhookConfig c s).
Proof.
  unfold updateWebhookConfig.
  apply blind_bind; [apply blind_set_config|]. intros _.
  apply blind_bind; [apply blind_logger|]. intros _.
  apply blind_bind.
  { apply blind_gets. by intros s1 s2 (_ & _ & ? & _)%hush_fields. }
  intros p. destruct s; [|apply blind_ret].
  destruct (truthy p); [|apply blind_ret].
  apply blind_try; [|intros e; apply blind_logger].
  apply blind_bind; [apply blind_writeFileSync | intros _; apply blind_logger].
Qed.

(** ** The log only grows *)

Lemma grows_ret {A : Type} (a : A) : grows (ret a).
Proof. intros s. exists []. by rewrite app_nil_r. Qed.

Lemma grows_throw {A : Type} (e : exn) : grows (@throw A e).
Proof. intros s. exists []. by rewrite app_nil_r. Qed.

Lemma grows_gets {A : Type} (f : State → A) : grows (gets f).
Proof. intros s. exists []. by rewrite app_nil_r. Qed.

Lemma grows_bind {A B : Type} (m : M A) (k : A → M B) :
  grows m → (∀ a, grows (k a)) → grows (bind m k).
Proof.
  intros Hm Hk s. unfold bind. destruct (Hm s) as [l1 H1].
  destruct (m s) as [t [e|a]]; simpl in *; [by exists l1|].
  destruct (Hk a t) as [l2 H2]. exists (l1 ++ l2).
  by rewrite H2, H1, app_assoc.
Qed.

Lemma grows_try {A : Type} (m : M A) (h : exn → M A) :
  grows m → (∀ e, grows (h e)) → grows (try_catch m h).
Proof.
  intros Hm Hh s. unfold try_catch. destruct (Hm s) as [l1 H1].
  destruct (m s) as [t [e|a]]; simpl in *; [|by exists l1].
  destruct (Hh e t) as [l2 H2]. exists (l1 ++ l2).
  by rewrite H2, H1, app_assoc.
Qed.

Lemma grows_modify (f : State → State) :
  (∀ s, log (f s) = log s) → grows (modify f).
Proof. intros Hf s. exists []. simpl. by rewrite Hf, app_nil_r. Qed.

Lemma grows_logger (l : Level) (m : string) (a : LogArg) : grows (logger l m a).
Proof. intros s. by eexists. Qed.

Lemma grows_readFileSync (p : option string) : grows (fs_readFileSync p).
Proof.
  intros s. exists []. rewrite app_nil_r. unfold fs_readFileSync.
  destruct p as [q|]; [|done]. by destruct (files s !! q).
Qed.

Lemma grows_writeFileSync (p data : option string) : grows (fs_writeFileSync p data).
Proof.
  intros s. exists []. rewrite app_nil_r. unfold fs_writeFileSync.
  destruct p as [q|], data as [text|]; try done.
  by destruct (bool_decide (q ∈ unwritable s)).
Qed.

Lemma grows_watcher_callback (eventType : string) : grows (watcher_callback eventType).
Proof.
  unfold watcher_callback. destruct (String.eqb eventType "change"); [|apply grows_ret].
  apply grows_bind; [apply grows_logger|]. intros _.
  apply grows_try; [|intros e; apply grows_logger].
  apply grows_bind; [apply grows_gets|]. intros p.
  apply grows_bind; [apply grows_readFileSync|]. intros text.
  destruct (JSON_parse text); [|apply grows_throw].
  apply grows_bind; [by apply grows_modify | intros _; apply grows_logger].
Qed.

Lemma grows_file_event (path eventType : string) : grows (file_event path eventType).
Proof.
  unfold file_event. apply grows_bind; [apply grows_gets|].
  intros [[[q|] []]|]; try apply grows_ret.
  destruct (String.eqb q path); [apply grows_watcher_callback | apply grows_ret].
Qed.

Lemma grows_updateWebhookConfig (c : option json) (s : bool) :
  grows (updateWebhookConfig c s).
Proof.
  unfold updateWebhookConfig.
  apply grows_bind; [by apply grows_modify|]. intros _.
  apply grows_bind; [apply grows_logger|]. intros _.
  apply grows_bind; [apply grows_gets|]. intros p.
  destruct s; [|apply grows_ret].
  destruct (truthy p); [|apply grows_ret].
  apply grows_try; [|intros e; apply grows_logger].
  apply grows_bind; [apply grows_writeFileSync | intros _; apply grows_logger].
Qed.

(** ** [setupWebhookConfigWatcher] and [loadWebhookConfig] *)

(** [setupWebhookConfigWatcher] touches the watcher and the log. *)
Lemma setup_at_frame (watch_error : string → option exn) (st : State) :
  currentWebhookConfig (setupWebhookConfigWatcher_at watch_error st).1 =
    currentWebhookConfig st ∧
  webhookConfigPath (setupWebhookConfigWatcher_at watch_error st).1 =
    webhookConfigPath st ∧
  files (setupWebhookConfigWatcher_at watch_error st).1 = files st ∧
  dirs (setupWebhookConfigWatcher_at watch_error st).1 = dirs st ∧
  unwritable (setupWebhookConfigWatcher_at watch_error st).1 = unwritable st.
Proof.
  unfold_store setupWebhookConfigWatcher_at.
  destruct (configWatcher st); simpl;
    destruct (webhookConfigPath st) as [q|] eqn:Eq; simpl; try done;
    (destruct (bool_decide (is_Some (files st !! q)) || bool_decide (q ∈ dirs st));
     simpl; [|done]; by destruct (watch_error q)).
Qed.

(** It throws what [fs.watch] throws, and nothing else. *)
Lemma setup_at_result (watch_error : string → option exn) (st : State) :
  (setupWebhookConfigWatcher_at watch_error st).2 =
  match webhookConfigPath st ≫= (λ q, watch_failure watch_error q st) with
  | Some e => inl e
  | None => inr tt
  end.
Proof.
  unfold watch_failure, present. unfold_store setupWebhookConfigWatcher_at.
  destruct (configWatcher st); simpl;
    destruct (webhookConfigPath st) as [q|] eqn:Eq; simpl; try done;
    (destruct (bool_decide (is_Some (files st !! q)) || bool_decide (q ∈ dirs st));
     simpl; [|done]; by destruct (watch_error q)).
Qed.

(** The watcher it leaves: a new one on the backing path when the
    watch starts, and otherwise the old one, closed. *)
Lemma setup_at_watcher (watch_error : string → option exn) (st : State) :
  configWatcher (setupWebhookConfigWatcher_at watch_error st).1 =
  match webhookConfigPath st with
  | Some q =>
      match present q st, watch_error q with
      | true, None => Some {| watched := Some q; closed := false |}
      | _, _ => (λ old, {| watched := watched old; closed := true |}) <$> configWatcher st
      end
  | None => (λ old, {| watched := watched old; closed := true |}) <$> configWatcher st
  end.
Proof.
  unfold present. unfold_store setupWebhookConfigWatcher_at.
  destruct (configWatcher st) eqn:Ew; simpl;
    destruct (webhookConfigPath st) as [q|] eqn:Eq; simpl; rewrite ?Ew; try done;
    (destruct (bool_decide (is_Some (files st !! q)) || bool_decide (q ∈ dirs st));
     simpl; rewrite ?Ew; [|done]; destruct (watch_error q); simpl; by rewrite ?Ew).
Qed.

(** Its one line in the log, written when the watch has started. *)
Lemma setup_at_log (watch_error : string → option exn) (st : State) :
  log (setupWebhookConfigWatcher_at watch_error st).1 =
  log st ++
  match (setupWebhookConfigWatcher_at watch_error st).2,
        webhookConfigPath st ≫= (λ q, if present q st then Some q else None) with
  | inr _, Some _ =>
      [{| level := LInfo; msg := "Webhook config file watcher started"; arg := NoArg |}]
  | _, _ => []
  end.
Proof.
  unfold present. unfold_store setupWebhookConfigWatcher_at.
  destruct (configWatcher st); simpl;
    destruct (webhookConfigPath st) as [q|] eqn:Eq; simpl; rewrite ?app_nil_r; try done;
    (destruct (bool_decide (is_Some (files st !! q)) || bool_decide (q ∈ dirs st));
     simpl; rewrite ?app_nil_r; [|done];
     destruct (watch_error q); simpl; by rewrite ?app_nil_r).
Qed.

Lemma setup_at_keeps_log (watch_error : string → option exn) (st : State)
  (x : LogEntry) :
  x ∈ log st → x ∈ log (setupWebhookConfigWatcher_at watch_error st).1.
Proof. intros H. rewrite setup_at_log. apply elem_of_app. by left. Qed.

(** [loadWebhookConfig] is its reading part followed by the setting up
    of the watcher, whose error it lets through. *)
Lemma loadWebhookConfig_at_unfold (watch_error : string → option exn)
  (path_join : string → string → string) (dataPath : string) (st : State) :
  loadWebhookConfig_at watch_error path_join dataPath st =
  ((setupWebhookConfigWatcher_at watch_error (load_phase path_join dataPath st)).1,
   match (setupWebhookConfigWatcher_at watch_error
            (load_phase path_join dataPath st)).2 with
   | inl e => inl e
   | inr _ =>
       inr (currentWebhookConfig
              (setupWebhookConfigWatcher_at watch_error
                 (load_phase path_join dataPath st)).1)
   end).
Proof.
  unfold load_phase. unfold_store loadWebhookConfig_at.
  set (p := path_join dataPath "webhook.json").
  destruct (files st !! p) as [text|] eqn:Ef; simpl; rewrite ?Ef; simpl.
  - destruct (JSON_parse text) as [v|]; simpl;
      match goal with
      | |- context [setupWebhookConfigWatcher_at watch_error ?s] =>
          by destruct (setupWebhookConfigWatcher_at watch_error s) as [s2 [e|[]]]
      end.
  - destruct (bool_decide (p ∈ dirs st)); simpl; rewrite ?Ef; simpl;
      match goal with
      | |- context [setupWebhookConfigWatcher_at watch_error ?s] =>
          by destruct (setupWebhookConfigWatcher_at watch_error s) as [s2 [e|[]]]
      end.
Qed.

(** What the reading part leaves behind. *)
Lemma load_phase_fields (path_join : string → string → string) (dataPath : string)
  (st : State) :
  currentWebhookConfig (load_phase path_join dataPath st) =
    files st !! path_join dataPath "webhook.json" ≫= JSON_parse ∧
  webhookConfigPath (load_phase path_join dataPath st) =
    Some (path_join dataPath "webhook.json") ∧
  configWatcher (load_phase path_join dataPath st) = configWatcher st ∧
  files (load_phase path_join dataPath st) = files st ∧
  dirs (load_phase path_join dataPath st) = dirs st ∧
  unwritable (load_phase path_join dataPath st) = unwritable st.
Proof.
  unfold load_phase.
  destruct (files st !! path_join dataPath "webhook.json") as [text|]; simpl.
  - by destruct (JSON_parse text).
  - by destruct (bool_decide _).
Qed.

(** [loadWebhookConfig] leaves in memory what the text of the backing
    file parses to, [undefined] when there is no such file or its text
    is not JSON.  It returns that value, unless [fs.watch] is called
    and throws: then the error of [fs.watch] leaves the function. *)
Lemma loadWebhookConfig_at_returns (watch_error : string → option exn)
  (path_join : string → string → string) (dataPath : string) (st : State) :
  currentWebhookConfig (loadWebhookConfig_at watch_error path_join dataPath st).1 =
    files st !! path_join dataPath "webhook.json" ≫= JSON_parse ∧
  (loadWebhookConfig_at watch_error path_join dataPath st).2 =
    match watch_failure watch_error (path_join dataPath "webhook.json") st with
    | Some e => inl e
    | None => inr (files st !! path_join dataPath "webhook.json" ≫= JSON_parse)
    end.
Proof.
  rewrite loadWebhookConfig_at_unfold. cbn [fst snd].
  destruct (load_phase_fields path_join dataPath st) as (Hc & Hp & _ & Hf & Hd & _).
  destruct (setup_at_frame watch_error (load_phase path_join dataPath st))
    as (-> & _).
  rewrite setup_at_result, Hp. cbn [mbind option_bind].
  unfold watch_failure, present. rewrite Hf, Hd, Hc.
  split; [done|].
  by destruct (if _ || _ then _ else _).
Qed.

(** The path it sets, and what it leaves alone. *)
Lemma loadWebhookConfig_at_frame (watch_error : string → option exn)
  (path_join : string → string → string) (dataPath : string) (st : State) :
  webhookConfigPath (loadWebhookConfig_at watch_error path_join dataPath st).1 =
    Some (path_join dataPath "webhook.json") ∧
  files (loadWebhookConfig_at watch_error path_join dataPath st).1 = files st ∧
  dirs (loadWebhookConfig_at watch_error path_join dataPath st).1 = dirs st ∧
  unwritable (loadWebhookConfig_at watch_error path_join dataPath st).1 =
    unwritable st.
Proof.
  rewrite loadWebhookConfig_at_unfold. cbn [fst].
  destruct (load_phase_fields path_join dataPath st) as (_ & Hp & _ & Hf & Hd & Hu).
  destruct (setup_at_frame watch_error (load_phase path_join dataPath st))
    as (_ & -> & -> & -> & ->).
  done.
Qed.

(** The runs in which the watch starts. *)
Lemma loadWebhookConfig_setup (st : State) :
  currentWebhookConfig (setupWebhookConfigWatcher st).1 = currentWebhookConfig st ∧
  (setupWebhookConfigWatcher st).2 = inr tt.
Proof.
  unfold setupWebhookConfigWatcher.
  destruct (setup_at_frame (λ _, None) st) as (-> & _).
  split; [done|]. rewrite setup_at_result. unfold watch_failure.
  destruct (webhookConfigPath st) as [q|]; [|done]. simpl.
  by destruct (present q st).
Qed.

Lemma loadWebhookConfig_unfold (path_join : string → string → string)
  (dataPath : string) (st : State) :
  loadWebhookConfig path_join dataPath st =
  ((setupWebhookConfigWatcher (load_phase path_join dataPath st)).1,
   inr (currentWebhookConfig
          (setupWebhookConfigWatcher (load_phase path_join dataPath st)).1)).
Proof.
  unfold loadWebhookConfig. rewrite loadWebhookConfig_at_unfold.
  fold setupWebhookConfigWatcher.
  by destruct (loadWebhookConfig_setup (load_phase path_join dataPath st)) as [_ ->].
Qed.

(** After [loadWebhookConfig] has found its file, a watcher is open
    on the backing path. *)
Lemma loadWebhookConfig_watches (path_join : string → string → string)
  (dataPath text : string) (st : State) :
  files st !! path_join dataPath "webhook.json" = Some text →
  configWatcher (loadWebhookConfig path_join dataPath st).1 =
    Some {| watched := Some (path_join dataPath "webhook.json"); closed := false |} ∧
  webhookConfigPath (loadWebhookConfig path_join dataPath st).1 =
    Some (path_join dataPath "webhook.json") ∧
  files (loadWebhookConfig path_join dataPath st).1 = files st.
Proof.
  intros Hf. unfold loadWebhookConfig.
  destruct (loadWebhookConfig_at_frame (λ _, None) path_join dataPath st)
    as (Hp & Hfs & _).
  split; [|done].
  rewrite loadWebhookConfig_at_unfold. cbn [fst]. rewrite setup_at_watcher.
  destruct (load_phase_fields path_join dataPath st) as (_ & -> & _ & Hf' & _).
  unfold present. rewrite Hf', Hf.
  by rewrite bool_decide_eq_true_2 by eauto.
Qed.

Lemma setup_keeps_log (st : State) (x : LogEntry) :
  x ∈ log st → x ∈ log (setupWebhookConfigWatcher st).1.
Proof. apply setup_at_keeps_log. Qed.

(** In these runs [loadWebhookConfig] never throws: it returns the
    value it leaves in memory. *)
Lemma loadWebhookConfig_returns (path_join : string → string → string)
  (dataPath : string) (st : State) :
  (loadWebhookConfig path_join dataPath st).2 =
    inr (files st !! path_join dataPath "webhook.json" ≫= JSON_parse) ∧
  currentWebhookConfig (loadWebhookConfig path_join dataPath st).1 =
    files st !! path_join dataPath "webhook.json" ≫= JSON_parse.
Proof.
  unfold loadWebhookConfig.
  destruct (loadWebhookConfig_at_returns (λ _, None) path_join dataPath st)
    as [-> ->].
  split; [|done]. unfold watch_failure.
  by destruct (present _ st).
Qed.

End StoreFacts.

(* ================================================================== *)
(** * Facts about the message handler *)
(* ================================================================== *)

Module HandlerFacts.
Import Json Config Store Handler ConfigFacts StoreFacts.
Local Open Scope prog_scope.

(** ** Running sequences and [try]/[catch] *)

Lemma run_pbind {A B : Type} (env : Env) (m : Prog A) (f : A → Prog B) (w : World) :
  run env (pbind m f) w =
  match run env m w with
  | (w', inr a) => run env (f a) w'
  | (w', inl e) => (w', inl e)
  end.
Proof.
  revert w. induction m as [a|e|X a k IH]; intros w; [done..|].
  cbn [pbind run]. destruct (answer env a w) as [w' x]. apply IH.
Qed.

Lemma run_ptry {A : Type} (env : Env) (m : Prog A) (h : exn → Prog A) (w : World) :
  run env (ptry m h) w =
  match run env m w with
  | (w', inl e) => run env (h e) w'
  | (w', inr a) => (w', inr a)
  end.
Proof.
  revert w. induction m as [a|e|X a k IH]; intros w; [done..|].
  cbn [ptry run]. destruct (answer env a w) as [w' x]. apply IH.
Qed.

(** ** What [prepareWebhookPayload] returns *)

Lemma media_step_run (env : Env) (message : Message) (w : World) :
  run env (media_step message) w = (after_media env message w, inr (media_of env message)).
Proof.
  unfold media_step, after_media, media_of.
  destruct (hasMedia message); [|done].
  rewrite run_ptry. cbn. by destruct (media_answer env) as [e|[m|]].
Qed.

Lemma quoted_step_run (env : Env) (message : Message) (w : World) :
  run env (quoted_step message) w =
  (after_quoted env message w, inr (quoted_of env message)).
Proof.
  unfold quoted_step, after_quoted, quoted_of.
  destruct (hasQuotedMsg message); [|done].
  rewrite run_ptry. cbn. by destruct (quoted_answer env) as [e|q].
Qed.

Lemma group_step_run (env : Env) (isGroup : bool) (w : World) :
  run env (group_step isGroup) w = (after_group env isGroup w, inr (group_of env isGroup)).
Proof.
  unfold group_step, after_group, group_of.
  destruct isGroup; [|done].
  rewrite run_ptry. cbn. by destruct (chat_answer env) as [e|c].
Qed.

(** The payload builder always returns a payload. *)
Lemma prepare_run (env : Env) (message : Message) (contact : Contact)
  (isGroup : bool) (w : World) :
  run env (prepareWebhookPayload message contact isGroup) w =
  (prepared env message isGroup w, inr (payload_of env message contact isGroup)).
Proof.
  unfold prepareWebhookPayload, payload_of, prepared.
  destruct (classify message) as [mt c].
  rewrite run_pbind, media_step_run, run_pbind, quoted_step_run,
    run_pbind, group_step_run. done.
Qed.

(** ** What the handler does with an event *)

Lemma dispatch_run (env : Env) (cfg : WebhookConfig) (message : Message)
  (contact : Contact) (w : World) :
  run env (dispatch cfg message contact (is_group message)) w =
  (finish (post_answer env (request_of env cfg message contact))
     (waiting env AtPost
        (send (request_of env cfg message contact)
           (waiting env AtPayload (prepared env message (is_group message) w)))),
   inr tt).
Proof.
  unfold dispatch. rewrite run_ptry, run_pbind, prepare_run.
  cbn [pbind act run answer await]. fold (request_of env cfg message contact).
  unfold finish, failed_dispatch, failure_entry.
  destruct (post_answer env (request_of env cfg message contact)) as [e|r]; [done|].
  cbn. by destruct ((status r <? 200)%Z || (300 <=? status r)%Z).
Qed.

(** The handler on a stored configuration: it reads the configuration
    once, on entry, and both the filter check and the request come from
    that value. *)
Lemma on_message_run (env : Env) (message : Message) (contact : Contact)
  (cfg : WebhookConfig) (w : World) :
  contact_answer env = inr contact →
  currentWebhookConfig (store (waiting env AtContact w)) = Some (config_to_json cfg) →
  run env (on_message message) w =
  if filter_skips cfg (is_group message) (number contact)
  then (at_entry env message contact w, inr Skipped)
  else (finish (post_answer env (request_of env cfg message contact))
          (at_answer env cfg message contact w),
        inr Completed).
Proof.
  intros Hc Hcfg. unfold on_message.
  cbn [pbind act run answer await]. rewrite Hc.
  cbn [pbind act run answer await on_store store]. cbn [add_log currentWebhookConfig].
  rewrite Hcfg.
  change (config_to_json cfg) with
    (JObj (("url", JStr (url cfg)) ::
           opt_member "authToken" JStr (authToken cfg) ++
           opt_member "filters" filters_to_json (filters cfg))).
  cbv match.
  change (JObj _) with (config_to_json cfg).
  rewrite as_WebhookConfig_to_json. fold (is_group message).
  destruct (filter_skips cfg (is_group message) (number contact)); [done|].
  rewrite run_pbind, dispatch_run. done.
Qed.

(** ** Log lines stay *)

Lemma run_tasks_keeps_log (ts : list Task) (s : State) (x : LogEntry) :
  x ∈ log s → x ∈ log (run_tasks ts s).
Proof.
  revert s. induction ts as [|t ts IH]; intros s Hx; [done|].
  apply IH. destruct t as [c sv|p e|p text]; simpl; [| |done].
  - destruct (grows_updateWebhookConfig c sv s) as [more ->].
    apply elem_of_app. by left.
  - destruct (grows_file_event p e s) as [more ->].
    apply elem_of_app. by left.
Qed.

Lemma waiting_keeps_log (env : Env) (p : Await) (w : World) (x : LogEntry) :
  x ∈ log (store w) → x ∈ log (store (waiting env p w)).
Proof. apply run_tasks_keeps_log. Qed.

Lemma add_entry_keeps_log (l : Level) (m : string) (a : LogArg) (w : World)
  (x : LogEntry) :
  x ∈ log (store w) → x ∈ log (store (add_entry l m a w)).
Proof. intros Hx. simpl. apply elem_of_app. by left. Qed.

Lemma prepared_keeps_log (env : Env) (message : Message) (g : bool) (w : World)
  (x : LogEntry) :
  x ∈ log (store (after_media env message w)) →
  x ∈ log (store (prepared env message g w)).
Proof.
  intros Hx. unfold prepared.
  assert (x ∈ log (store (after_quoted env message (after_media env message w))))
    as Hq.
  { unfold after_quoted.
    destruct (hasQuotedMsg message); [|done].
    destruct (quoted_answer env);
      [apply add_entry_keeps_log|]; by apply waiting_keeps_log. }
  unfold after_group. destruct g; [|done].
  destruct (chat_answer env);
    [apply add_entry_keeps_log|]; by apply waiting_keeps_log.
Qed.

(** ** The log decides nothing *)

Lemma quiet_eq (w1 w2 : World) :
  hush (store w1) = hush (store w2) → outbox w1 = outbox w2 → quiet w1 = quiet w2.
Proof. unfold quiet, on_store. by intros -> ->. Qed.

Lemma quiet_inv (w1 w2 : World) :
  quiet w1 = quiet w2 → hush (store w1) = hush (store w2) ∧ outbox w1 = outbox w2.
Proof.
  unfold quiet, on_store. intros H. injection H as ? ? ? ? ? ? ?.
  split; [by apply hush_eq | done].
Qed.

Lemma run_task_blind (t : Task) (s1 s2 : State) :
  hush s1 = hush s2 → hush (run_task t s1) = hush (run_task t s2).
Proof.
  intros H. destruct t as [c s|p e|p text]; simpl.
  - by apply blind_updateWebhookConfig.
  - by apply blind_file_event.
  - pose proof (hush_fields _ _ H) as (? & ? & ? & ? & ? & ?).
    apply hush_eq; simpl; congruence.
Qed.

Lemma run_tasks_blind (ts : list Task) (s1 s2 : State) :
  hush s1 = hush s2 → hush (run_tasks ts s1) = hush (run_tasks ts s2).
Proof.
  revert s1 s2. induction ts as [|t ts IH]; intros s1 s2 H; [done|].
  apply IH. by apply run_task_blind.
Qed.

Lemma waiting_blind (env : Env) (p : Await) (w1 w2 : World) :
  quiet w1 = quiet w2 → quiet (waiting env p w1) = quiet (waiting env p w2).
Proof.
  intros [Hs Ho]%quiet_inv. apply quiet_eq; [|done]. by apply run_tasks_blind.
Qed.

Lemma answer_blind (env : Env) {X : Type} (a : Act X) (w1 w2 : World) :
  quiet w1 = quiet w2 →
  quiet (answer env a w1).1 = quiet (answer env a w2).1 ∧
  (answer env a w1).2 = (answer env a w2).2.
Proof.
  intros H. destruct a; simpl; (split; [|try done]);
    try (by apply waiting_blind).
  - done.
  - apply quiet_inv in H as [Hs _]. by apply hush_fields in Hs as (-> & _).
  - apply quiet_inv in H as [Hs Ho]. by apply quiet_eq.
  - apply waiting_blind. apply quiet_inv in H as [Hs Ho].
    apply quiet_eq; simpl; [done | by rewrite Ho].
Qed.

Lemma run_blind {R : Type} (env : Env) (p : Prog R) (w1 w2 : World) :
  quiet w1 = quiet w2 →
  quiet (run env p w1).1 = quiet (run env p w2).1 ∧
  (run env p w1).2 = (run env p w2).2.
Proof.
  revert w1 w2. induction p as [r|e|X a k IH]; intros w1 w2 H; [done..|].
  cbn [run]. destruct (answer_blind env a w1 w2 H) as [H1 H2].
  destruct (answer env a w1) as [w1' x1], (answer env a w2) as [w2' x2].
  simpl in H1, H2. subst x2. by apply IH.
Qed.

(** Two worlds that differ in their logs only handle the same events
    in the same way. *)
Lemma handle_all_blind (events : list (Message * Env)) (w1 w2 : World) :
  quiet w1 = quiet w2 →
  quiet (handle_all events w1).1 = quiet (handle_all events w2).1 ∧
  (handle_all events w1).2 = (handle_all events w2).2.
Proof.
  revert w1 w2. induction events as [|[m env] events IH]; intros w1 w2 H; [done|].
  cbn [handle_all].
  destruct (run_blind env (on_message m) w1 w2 H) as [H1 H2].
  destruct (run env (on_message m) w1) as [u1 r1],
           (run env (on_message m) w2) as [u2 r2].
  simpl in H1, H2. subst r2.
  destruct (IH u1 u2 H1) as [H3 H4].
  destruct (handle_all events u1) as [v1 rs1], (handle_all events u2) as [v2 rs2].
  simpl in *. by subst rs2.
Qed.

Lemma finish_quiet (a : exn + Response) (w : World) : quiet (finish a w) = quiet w.
Proof. unfold finish. by destruct (failed_dispatch a). Qed.

(** ** Helpers of the statements *)

(** ** C1: the filter check *)

Lemma existsb_eqb_elem (x : string) (l : list string) :
  existsb (String.eqb x) l = true ↔ x ∈ l.
Proof.
  rewrite existsb_exists. split.
  - intros (y & Hy & ->%String.eqb_eq). by apply list_elem_of_In.
  - intros H. exists x. split; [by apply list_elem_of_In | apply String.eqb_refl].
Qed.

(** With no configuration stored the handler stops at its first test. *)
Lemma on_message_disabled (env : Env) (message : Message) (w : World) :
  currentWebhookConfig (store w) = None →
  meanwhile env AtContact = [] →
  run env (on_message message) w =
  match contact_answer env with
  | inl e => (w, inl e)
  | inr contact => (at_entry env message contact w, inr NoWebhook)
  end.
Proof.
  intros Hc Hm. unfold on_message, at_entry, add_entry, waiting.
  cbn [pbind act run answer await]. unfold waiting. rewrite Hm.
  destruct w as [st out]. cbn [run_tasks fold_left on_store store] in *.
  destruct (contact_answer env) as [e|contact]; [done|].
  cbn [pbind run answer on_store store add_log currentWebhookConfig].
  change (run_tasks [] st) with st. by rewrite Hc.
Qed.

(** ** C4: disabling the webhook *)

Lemma handle_all_disabled (events : list (Message * Env)) (w : World) :
  currentWebhookConfig (store w) = None →
  undisturbed events →
  outbox (handle_all events w).1 = outbox w ∧
  Forall (λ r, r = inr NoWebhook ∨ ∃ e, r = inl e) (handle_all events w).2.
Proof.
  intros Hc Hu. revert w Hc.
  induction Hu as [|[m env] events Hm Hu IH]; intros w Hc; [done|].
  cbn [handle_all]. rewrite on_message_disabled by (done || apply Hm).
  destruct (contact_answer env) as [e|contact].
  - destruct (IH w Hc) as [Ho Hr].
    destruct (handle_all events w) as [w2 rs]. simpl in *.
    split; [done|]. constructor; eauto.
  - assert (currentWebhookConfig (store (at_entry env m contact w)) = None) as Hc'.
    { unfold at_entry, add_entry, waiting. simpl in Hm. rewrite Hm.
      destruct w; simpl in *. done. }
    destruct (IH _ Hc') as [Ho Hr].
    destruct (handle_all events (at_entry env m contact w)) as [w2 rs]. simpl in *.
    split; [|constructor; eauto].
    rewrite Ho. unfold at_entry, add_entry, waiting. by destruct w.
Qed.

(** ** C2: a failed dispatch *)

Lemma same_but_post_run (e1 e2 : Env) (cfg : WebhookConfig) (message : Message)
  (contact : Contact) (w : World) :
  same_but_post e1 e2 →
  waiting e1 AtContact w = waiting e2 AtContact w ∧
  request_of e1 cfg message contact = request_of e2 cfg message contact ∧
  at_answer e1 cfg message contact w = at_answer e2 cfg message contact w.
Proof.
  destruct e1, e2. unfold same_but_post. simpl.
  intros (-> & -> & -> & -> & ->). done.
Qed.

Lemma outbox_prepared (env : Env) (message : Message) (g : bool) (w : World) :
  outbox (prepared env message g w) = outbox w.
Proof.
  unfold prepared, after_group, after_quoted, after_media.
  destruct g, (hasQuotedMsg message), (hasMedia message),
    (chat_answer env), (quoted_answer env), (media_answer env); done.
Qed.

Lemma outbox_at_answer (env : Env) (cfg : WebhookConfig) (message : Message)
  (contact : Contact) (w : World) :
  outbox (at_answer env cfg message contact w) =
  outbox w ++ [request_of env cfg message contact].
Proof. unfold at_answer. simpl. by rewrite outbox_prepared. Qed.

Lemma outbox_finish (a : exn + Response) (w : World) :
  outbox (finish a w) = outbox w.
Proof. unfold finish. by destruct (failed_dispatch a). Qed.

(** ** C9: the request of a delivery *)

Lemma webhook_request_on_the_wire (url : string) (tok : option string)
  (payload : Payload) :
  on_the_wire (webhook_request url tok payload) url tok payload.
Proof.
  unfold on_the_wire, webhook_request, webhook_headers, truthy. simpl.
  split; [done|]. split; [done|]. split; [done|].
  split; [apply list_elem_of_here|].
  intros v. destruct tok as [t|]; simpl.
  - destruct (String.eqb t "") eqn:E; simpl.
    + apply String.eqb_eq in E as ->. rewrite list_elem_of_singleton.
      split; [intros [=] | intros (t & [= <-] & Hne & _); done].
    + apply String.eqb_neq in E.
      rewrite elem_of_cons, list_elem_of_singleton. split.
      * intros [[=] | [= ->]]. by exists t.
      * intros (t' & [= <-] & _ & ->). by right.
  - rewrite list_elem_of_singleton.
    split; [intros [=] | intros (t & [=] & _)].
Qed.

End HandlerFacts.

(* ================================================================== *)
(** * The claims *)
(* ================================================================== *)

Import Json Config Store Handler Tools.
Import JsonFacts ConfigFacts StoreFacts HandlerFacts Samples.

(** ** A configured webhook at work *)

(** With private messages only allowed, a private text message is
    delivered and a group message is skipped, nothing sent. *)
Example private_delivered_group_skipped :
  (run env_200 (on_message message_text)
     (world_of (state_of (Some (config_to_json cfg_private)) textA ∅))).2 =
    inr Completed ∧
  map req_url
    (outbox (run env_200 (on_message message_text)
               (world_of (state_of (Some (config_to_json cfg_private)) textA ∅))).1) =
    ["https://example.test/hook"] ∧
  (run env_200 (on_message message_group)
     (world_of (state_of (Some (config_to_json cfg_private)) textA ∅))).2 =
    inr Skipped ∧
  outbox (run env_200 (on_message message_group)
            (world_of (state_of (Some (config_to_json cfg_private)) textA ∅))).1 = [].
Proof. vm_compute. done. Qed.

(** C1. The filter check lets an event through exactly when: a group
    event is not met by [allowGroups === false], a private event is not
    met by [allowPrivate === false], and a non-empty [allowedNumbers]
    contains the sender's number.  With an empty (or missing)
    [allowedNumbers] only the group/private flag decides; with a
    non-empty one a sender outside it is skipped whatever the flags. *)
Theorem filter_accepts_iff (cfg : WebhookConfig) (isGroup : bool) (sender : string) :
  (filter_skips cfg isGroup sender = false ↔
     (isGroup = true → filters cfg ≫= allowGroups ≠ Some false) ∧
     (isGroup = false → filters cfg ≫= allowPrivate ≠ Some false) ∧
     (default [] (filters cfg ≫= allowedNumbers) ≠ [] →
        sender ∈ default [] (filters cfg ≫= allowedNumbers))) ∧
  (default [] (filters cfg ≫= allowedNumbers) = [] →
     filter_skips cfg isGroup sender =
       is_false (filters cfg ≫= (if isGroup then allowGroups else allowPrivate))) ∧
  (default [] (filters cfg ≫= allowedNumbers) ≠ [] →
     sender ∉ default [] (filters cfg ≫= allowedNumbers) →
     filter_skips cfg isGroup sender = true).
Proof.
  unfold filter_skips.
  destruct (filters cfg ≫= allowedNumbers) as [[|n l]|]; cbn [default].
  1, 3: destruct isGroup, (filters cfg ≫= allowGroups) as [[]|],
          (filters cfg ≫= allowPrivate) as [[]|]; cbn; intuition congruence.
  destruct (existsb (String.eqb sender) (n :: l)) eqn:Ex.
  - pose proof (proj1 (existsb_eqb_elem _ _) Ex) as Hin.
    destruct isGroup, (filters cfg ≫= allowGroups) as [[]|],
      (filters cfg ≫= allowPrivate) as [[]|]; cbn; intuition congruence.
  - assert (sender ∉ n :: l) as Hn.
    { intros Hin%existsb_eqb_elem. congruence. }
    destruct isGroup, (filters cfg ≫= allowGroups) as [[]|],
      (filters cfg ≫= allowPrivate) as [[]|]; cbn; intuition congruence.
Qed.

(** C3, as the code has it.  [loadWebhookConfig] stores what the text
    of the backing file parses to.  With nothing at the path it stores
    and returns [undefined], without an error.  With a text that is
    not JSON it does not surface the parse error: the error is logged
    and the stored configuration is cleared; the function then goes on
    to start the watcher and returns [undefined].  The one error that
    can leave [loadWebhookConfig] is that of [fs.watch], which is
    called, outside every [try], whenever there is something at the
    path.  It is the reload tool that reports a parse error to its
    caller and leaves the stored configuration as it was; a missing
    file it reports as an error too. *)
Theorem loadWebhookConfig_outcomes (watch_error : string → option exn)
  (path_join : string → string → string) (dataPath : string)
  (configPath : option string) (st : State) :
  (files st !! path_join dataPath "webhook.json" = None →
   path_join dataPath "webhook.json" ∉ dirs st →
     (loadWebhookConfig_at watch_error path_join dataPath st).2 = inr None ∧
     currentWebhookConfig (loadWebhookConfig_at watch_error path_join dataPath st).1 =
       None) ∧
  (∀ text, files st !! path_join dataPath "webhook.json" = Some text →
     JSON_parse text = None →
     currentWebhookConfig (loadWebhookConfig_at watch_error path_join dataPath st).1 =
       None ∧
     {| level := LError; msg := "Failed to load webhook config:";
        arg := ArgExn SyntaxError |}
       ∈ log (loadWebhookConfig_at watch_error path_join dataPath st).1 ∧
     (loadWebhookConfig_at watch_error path_join dataPath st).2 =
       match watch_error (path_join dataPath "webhook.json") with
       | Some e => inl e
       | None => inr None
       end) ∧
  (∀ text v, files st !! path_join dataPath "webhook.json" = Some text →
     JSON_parse text = Some v →
     currentWebhookConfig (loadWebhookConfig_at watch_error path_join dataPath st).1 =
       Some v ∧
     (loadWebhookConfig_at watch_error path_join dataPath st).2 =
       match watch_error (path_join dataPath "webhook.json") with
       | Some e => inl e
       | None => inr (Some v)
       end) ∧
  (∀ filePath,
     filePath = default ".wwebjs_auth/webhook.json" (truthy configPath) →
     match files st !! filePath with
     | Some text =>
         match JSON_parse text with
         | None =>
             reload_webhook_config configPath st =
             (st, inr (failed (ReloadFailed SyntaxError)))
         | Some v =>
             currentWebhookConfig (reload_webhook_config configPath st).1 = Some v ∧
             files (reload_webhook_config configPath st).1 = files st ∧
             ∃ shown, (reload_webhook_config configPath st).2 =
                        inr (ok (Reloaded filePath shown))
         end
     | None => ∃ t, reload_webhook_config configPath st = (st, inr (failed t))
     end).
Proof.
  destruct (loadWebhookConfig_at_returns watch_error path_join dataPath st)
    as [Hc Hr].
  set (p := path_join dataPath "webhook.json") in *.
  unfold watch_failure, present in Hr.
  split; [|split; [|split]].
  - intros Hf Hd. rewrite Hf in Hc, Hr.
    rewrite (bool_decide_eq_false_2 (p ∈ dirs st)) in Hr by done.
    rewrite bool_decide_eq_false_2 in Hr by (by intros [? ?]).
    done.
  - intros text Hf Hp. rewrite Hf in Hc, Hr. cbn [mbind option_bind] in Hc, Hr.
    rewrite Hp in Hc, Hr.
    rewrite bool_decide_eq_true_2 in Hr by eauto.
    split; [done|]. split; [|done].
    rewrite loadWebhookConfig_at_unfold. cbn [fst]. apply setup_at_keeps_log.
    unfold load_phase. fold p. rewrite Hf, Hp. simpl.
    apply elem_of_app. right. by apply list_elem_of_singleton.
  - intros text v Hf Hp. rewrite Hf in Hc, Hr. cbn [mbind option_bind] in Hc, Hr.
    rewrite Hp in Hc, Hr.
    rewrite bool_decide_eq_true_2 in Hr by eauto.
    done.
  - intros filePath ->.
    set (filePath := default ".wwebjs_auth/webhook.json" (truthy configPath)).
    unfold_store reload_webhook_config. fold filePath.
    destruct (files st !! filePath) as [text|] eqn:Ef; simpl; rewrite ?Ef; simpl.
    + destruct (JSON_parse text) as [v|] eqn:Ev; [|done]. simpl. eauto.
    + destruct (bool_decide (filePath ∈ dirs st)); simpl; rewrite ?Ef; simpl; eauto.
Qed.

(** C3, the claim as stated fails: with a stored configuration and a
    backing file whose text is not JSON, [loadWebhookConfig] returns
    [undefined] without an error and has cleared the stored
    configuration. *)
Lemma loadWebhookConfig_malformed_clears :
  JSON_parse malformed = None ∧
  currentWebhookConfig (state_of (Some (config_to_json cfgA)) malformed ∅) =
    Some (config_to_json cfgA) ∧
  (loadWebhookConfig join "data"
     (state_of (Some (config_to_json cfgA)) malformed ∅)).2 = inr None ∧
  currentWebhookConfig
    (loadWebhookConfig join "data"
       (state_of (Some (config_to_json cfgA)) malformed ∅)).1 = None.
Proof. vm_compute. done. Qed.

(** The same malformed file when [fs.watch] refuses the path: the
    error that leaves [loadWebhookConfig] is that of [fs.watch], not
    the parse error; the stored configuration is cleared by then and
    the old watcher closed. *)
Example loadWebhookConfig_watch_refused :
  (loadWebhookConfig_at watch_denied join "data"
     (state_of (Some (config_to_json cfgA)) malformed ∅)).2 =
    inl (IOError "data/webhook.json") ∧
  currentWebhookConfig
    (loadWebhookConfig_at watch_denied join "data"
       (state_of (Some (config_to_json cfgA)) malformed ∅)).1 = None ∧
  configWatcher
    (loadWebhookConfig_at watch_denied join "data"
       (state_of (Some (config_to_json cfgA)) malformed ∅)).1 =
    Some {| watched := Some "data/webhook.json"; closed := true |}.
Proof. vm_compute. done. Qed.

(** C4, at the failing input and on every state like it: the backing
    file holds a configuration and the webhook is disabled with
    [saveToFile] true.  In memory the webhook is disabled:
    [getCurrentWebhookConfig()] returns [undefined] and every inbound
    event handled from then on stops before the filter check, nothing
    sent.  On disk it is not: [JSON.stringify(undefined)] is
    [undefined], [fs.writeFileSync] refuses it, the [TypeError] is
    caught and logged, and the backing file keeps the configuration it
    held.  The disable tool reports success all the same, and the next
    [loadWebhookConfig] stores the old configuration again. *)
Theorem disable_webhook_not_persisted (watch_error : string → option exn)
  (path_join : string → string → string) (dataPath : string)
  (cfg : WebhookConfig) (saveToFile : option bool) (st : State)
  (events : list (Message * Env)) (w : World) :
  webhookConfigPath st = Some (path_join dataPath "webhook.json") →
  path_join dataPath "webhook.json" ≠ "" →
  files st !! path_join dataPath "webhook.json" = Some (ser 0 (config_to_json cfg)) →
  default true saveToFile = true →
  store w = (updateWebhookConfig None true st).1 →
  undisturbed events →
  disable_webhook saveToFile st =
    ((updateWebhookConfig None true st).1, inr (ok DisabledSuccessfully)) ∧
  (getCurrentWebhookConfig (updateWebhookConfig None true st).1).2 = inr None ∧
  outbox (handle_all events w).1 = outbox w ∧
  Forall (λ r, r = inr NoWebhook ∨ ∃ e, r = inl e) (handle_all events w).2 ∧
  files (updateWebhookConfig None true st).1 = files st ∧
  last (log (updateWebhookConfig None true st).1) =
    Some {| level := LError; msg := "Failed to save webhook config to file:";
            arg := ArgExn TypeError |} ∧
  currentWebhookConfig
    (loadWebhookConfig_at watch_error path_join dataPath
       (updateWebhookConfig None true st).1).1 = Some (config_to_json cfg).
Proof.
  intros Hp Hne Hf Hs Hw Hu.
  destruct (updateWebhookConfig_memory None true st) as [Hm Hr].
  split.
  { unfold disable_webhook, try_catch, bind, ret. rewrite Hs.
    by destruct (updateWebhookConfig None true st) as [s2 [e|[]]]. }
  split; [by unfold getCurrentWebhookConfig, gets; simpl; rewrite Hm|].
  destruct (handle_all_disabled events w) as [Ho Hrs]; [by rewrite Hw | done |].
  split; [done|]. split; [done|].
  split; [apply updateWebhookConfig_undefined|].
  split.
  { unfold_store updateWebhookConfig. rewrite Hp. simpl.
    destruct (String.eqb (path_join dataPath "webhook.json") "") eqn:E;
      [by apply String.eqb_eq in E|].
    simpl. by rewrite last_snoc. }
  destruct (loadWebhookConfig_at_returns watch_error path_join dataPath
              (updateWebhookConfig None true st).1) as [-> _].
  rewrite updateWebhookConfig_undefined, Hf. cbn [mbind option_bind].
  apply config_text_roundtrip.
Qed.

Lemma disable_webhook_not_persisted_witness :
  files (state_of (Some (config_to_json cfgA)) textA ∅) !! join "data" "webhook.json" =
    Some (ser 0 (config_to_json cfgA)) ∧
  undisturbed [(message_text, env_200); (message_image, env_500)] ∧
  (disable_webhook (Some true) (state_of (Some (config_to_json cfgA)) textA ∅)).2 =
    inr (ok DisabledSuccessfully) ∧
  files (disable_webhook (Some true)
           (state_of (Some (config_to_json cfgA)) textA ∅)).1 !!
    join "data" "webhook.json" = Some textA ∧
  currentWebhookConfig
    (loadWebhookConfig join "data"
       (disable_webhook (Some true)
          (state_of (Some (config_to_json cfgA)) textA ∅)).1).1 =
    Some (config_to_json cfgA) ∧
  map req_url
    (outbox (run env_200 (on_message message_text)
               (world_of (loadWebhookConfig join "data"
                            (disable_webhook (Some true)
                               (state_of (Some (config_to_json cfgA)) textA ∅)).1).1)).1) =
    ["https://example.test/hook"].
Proof.
  assert (undisturbed [(message_text, env_200); (message_image, env_500)]) as Hu.
  { repeat constructor. }
  split; [reflexivity|]. split; [exact Hu|].
  pose proof (disable_webhook_not_persisted (λ _, None) join "data" cfgA (Some true)
                (state_of (Some (config_to_json cfgA)) textA ∅)
                [(message_text, env_200); (message_image, env_500)]
                (world_of (updateWebhookConfig None true
                             (state_of (Some (config_to_json cfgA)) textA ∅)).1)
                eq_refl ltac:(discriminate) eq_refl eq_refl eq_refl Hu)
    as (Ht & _ & _ & _ & Hf & _ & Hl).
  rewrite Ht. cbn [fst snd]. split; [reflexivity|].
  split; [rewrite Hf; reflexivity|].
  split; [exact Hl|].
  vm_compute. reflexivity.
Defined.

(** ** C5: a failed write *)

(** C5, at the failing input.  The update tool is called with
    [saveToFile] true and no custom path while the backing file cannot
    be written: the new configuration is in memory, the failure is in
    the log, and the tool's result reports success. *)
Theorem update_write_failure_unreported :
  let st := state_of None textA {[ "data/webhook.json" ]} in
  let r := update_webhook_config (λ _, "custom")
             "https://test-webhook.com/endpoint" None None (Some true) None st in
  (∃ t, r.2 = inr (ok t)) ∧
  (currentWebhookConfig r.1 ≫= as_WebhookConfig =
     Some {| url := "https://test-webhook.com/endpoint"; authToken := None;
             filters := Some {| allowedNumbers := Some [];
                                allowPrivate := Some true;
                                allowGroups := Some true |} |}) ∧
  files r.1 = files st ∧
  {| level := LError; msg := "Failed to save webhook config to file:";
     arg := ArgExn (IOError "data/webhook.json") |} ∈ log r.1.
Proof.
  cbv zeta. split; [|split; [|split]].
  - eexists. vm_compute. reflexivity.
  - vm_compute. reflexivity.
  - vm_compute. reflexivity.
  - vm_compute. apply list_elem_of_lookup_2 with (i := 1). reflexivity.
Qed.

(** ** C6: the watcher *)

(** C6. On a change notification for the watched backing file: if
    its text parses, the parsed value replaces the stored
    configuration; if it does not (or the file cannot be read), the
    stored configuration is left as it was and the failure is the last
    line of the log. *)
Theorem watcher_reload (p : string) (st : State) :
  configWatcher st = Some {| watched := Some p; closed := false |} →
  webhookConfigPath st = Some p →
  match files st !! p with
  | Some text =>
      match JSON_parse text with
      | Some v => currentWebhookConfig (file_event p "change" st).1 = Some v
      | None =>
          currentWebhookConfig (file_event p "change" st).1 = currentWebhookConfig st ∧
          last (log (file_event p "change" st).1) =
            Some {| level := LError; msg := "Failed to reload webhook config:";
                    arg := ArgExn SyntaxError |}
      end
  | None =>
      currentWebhookConfig (file_event p "change" st).1 = currentWebhookConfig st ∧
      last (log (file_event p "change" st).1) =
        Some {| level := LError; msg := "Failed to reload webhook config:";
                arg := ArgExn (IOError p) |}
  end.
Proof.
  intros Hw Hp.
  unfold_store file_event. rewrite Hw. simpl. rewrite String.eqb_refl.
  unfold_store watcher_callback. rewrite Hp. simpl.
  destruct (files st !! p) as [text|]; simpl.
  - destruct (JSON_parse text) as [v|]; simpl; [done|].
    split; [done|]. by rewrite last_snoc.
  - split; [done|]. by rewrite last_snoc.
Qed.

Lemma watcher_reload_witness :
  configWatcher (state_of (Some (config_to_json cfgA)) malformed ∅) =
    Some {| watched := Some "data/webhook.json"; closed := false |} ∧
  JSON_parse malformed = None ∧
  currentWebhookConfig
    (file_event "data/webhook.json" "change"
       (state_of (Some (config_to_json cfgA)) malformed ∅)).1 =
    Some (config_to_json cfgA).
Proof.
  split; [reflexivity|]. split; [vm_compute; reflexivity|].
  pose proof (watcher_reload "data/webhook.json"
                (state_of (Some (config_to_json cfgA)) malformed ∅)
                eq_refl eq_refl) as H.
  vm_compute in H. vm_compute. exact (proj1 H).
Defined.

(** ** C7: writing the configuration and loading it again *)

(** C7. For every configuration: when the backing path is the one
    [loadWebhookConfig] computes and the file can be written,
    [updateWebhookConfig(cfg, true)] leaves the formatted text of [cfg]
    in the backing file, that text parses back to the object of [cfg],
    and a [loadWebhookConfig] that finds this text at the path stores
    the object of [cfg], whatever was in memory before, and returns it
    (unless [fs.watch] throws); read through the interface the object
    is [cfg]. *)
Theorem update_then_load (watch_error : string → option exn)
  (path_join : string → string → string)
  (dataPath : string) (cfg : WebhookConfig) (st st' : State) :
  webhookConfigPath st = Some (path_join dataPath "webhook.json") →
  path_join dataPath "webhook.json" ≠ "" →
  path_join dataPath "webhook.json" ∉ unwritable st →
  files st' !! path_join dataPath "webhook.json" =
    files (updateWebhookConfig (Some (config_to_json cfg)) true st).1
      !! path_join dataPath "webhook.json" →
  files (updateWebhookConfig (Some (config_to_json cfg)) true st).1
    !! path_join dataPath "webhook.json" = Some (ser 0 (config_to_json cfg)) ∧
  JSON_parse (ser 0 (config_to_json cfg)) = Some (config_to_json cfg) ∧
  currentWebhookConfig (loadWebhookConfig_at watch_error path_join dataPath st').1 =
    Some (config_to_json cfg) ∧
  (loadWebhookConfig_at watch_error path_join dataPath st').2 =
    match watch_error (path_join dataPath "webhook.json") with
    | Some e => inl e
    | None => inr (Some (config_to_json cfg))
    end ∧
  as_WebhookConfig (config_to_json cfg) = Some cfg.
Proof.
  intros Hp Hne Hw Hf'.
  rewrite (updateWebhookConfig_saves _ _ _ Hp Hne Hw), lookup_insert_eq in Hf' |- *.
  split; [done|]. split; [apply config_text_roundtrip|].
  destruct (loadWebhookConfig_at_returns watch_error path_join dataPath st')
    as [-> ->].
  unfold watch_failure, present.
  rewrite Hf'. cbn [mbind option_bind]. rewrite config_text_roundtrip.
  rewrite bool_decide_eq_true_2 by eauto.
  split; [done|]. split; [done|]. apply as_WebhookConfig_to_json.
Qed.

(** The configuration [cfgA] is saved while the file holds [cfgB]; the
    load then starts from a state whose memory holds [cfgB]. *)
Lemma update_then_load_witness :
  webhookConfigPath (state_of None textB ∅) = Some (join "data" "webhook.json") ∧
  currentWebhookConfig
    (set_config (Some (config_to_json cfgB))
       (updateWebhookConfig (Some (config_to_json cfgA)) true
          (state_of None textB ∅)).1) = Some (config_to_json cfgB) ∧
  (loadWebhookConfig join "data"
     (set_config (Some (config_to_json cfgB))
        (updateWebhookConfig (Some (config_to_json cfgA)) true
           (state_of None textB ∅)).1)).2 =
    inr (Some (config_to_json cfgA)) ∧
  (loadWebhookConfig join "data"
     (updateWebhookConfig (Some (config_to_json cfgA)) true
        (state_of None textB ∅)).1).2 =
    inr (Some (config_to_json cfgA)).
Proof.
  split; [reflexivity|]. split; [reflexivity|]. split.
  - apply (update_then_load (λ _, None) join "data" cfgA (state_of None textB ∅)
             (set_config (Some (config_to_json cfgB))
                (updateWebhookConfig (Some (config_to_json cfgA)) true
                   (state_of None textB ∅)).1)).
    + reflexivity.
    + discriminate.
    + apply not_elem_of_empty.
    + reflexivity.
  - apply (update_then_load (λ _, None) join "data" cfgA (state_of None textB ∅)
             (updateWebhookConfig (Some (config_to_json cfgA)) true
                (state_of None textB ∅)).1).
    + reflexivity.
    + discriminate.
    + apply not_elem_of_empty.
    + reflexivity.
Defined.

(** C2. An accepted event whose dispatch fails (a status outside
    200..299, or a rejected request): the handler returns normally, it
    has sent exactly one request, the failure is the last line of the
    log, and whatever events come next are handled as they would be
    had the request been answered in any other way: same results, same
    requests, same state up to the log. *)
Theorem failed_dispatch_absorbed (env : Env) (message : Message)
  (contact : Contact) (cfg : WebhookConfig) (w : World) :
  contact_answer env = inr contact →
  currentWebhookConfig (store (waiting env AtContact w)) = Some (config_to_json cfg) →
  filter_skips cfg (is_group message) (number contact) = false →
  failed_dispatch (post_answer env (request_of env cfg message contact)) = true →
  (run env (on_message message) w).2 = inr Completed ∧
  outbox (run env (on_message message) w).1 =
    outbox w ++ [request_of env cfg message contact] ∧
  last (log (store (run env (on_message message) w).1)) =
    Some (failure_entry (post_answer env (request_of env cfg message contact))) ∧
  (∀ env' events,
     same_but_post env env' →
     (handle_all events (run env (on_message message) w).1).2 =
       (handle_all events (run env' (on_message message) w).1).2 ∧
     quiet (handle_all events (run env (on_message message) w).1).1 =
       quiet (handle_all events (run env' (on_message message) w).1).1).
Proof.
  intros Hc Hcfg Hf Hfail.
  rewrite (on_message_run env message contact cfg w Hc Hcfg), Hf. cbn [fst snd].
  split; [done|]. split; [by rewrite outbox_finish, outbox_at_answer|]. split.
  { unfold finish. rewrite Hfail. simpl. apply last_snoc. }
  intros env' events Hs.
  destruct (same_but_post_run env env' cfg message contact w Hs) as (Hw & Hr & Ha).
  destruct Hs as (Hc' & _).
  rewrite (on_message_run env' message contact cfg w), Hf;
    [| congruence | by rewrite <- Hw].
  cbn [fst snd].
  destruct (handle_all_blind events
              (finish (post_answer env (request_of env cfg message contact))
                 (at_answer env cfg message contact w))
              (finish (post_answer env' (request_of env' cfg message contact))
                 (at_answer env' cfg message contact w))) as [H1 H2]; [|done].
  by rewrite !finish_quiet, Ha.
Qed.

Lemma failed_dispatch_absorbed_witness :
  failed_dispatch (post_answer env_500 (request_of env_500 cfgA message_text contact1))
    = true ∧
  (run env_500 (on_message message_text)
     (world_of (state_of (Some (config_to_json cfgA)) textA ∅))).2 = inr Completed ∧
  outbox (run env_500 (on_message message_text)
            (world_of (state_of (Some (config_to_json cfgA)) textA ∅))).1 =
    [request_of env_500 cfgA message_text contact1].
Proof.
  split; [reflexivity|].
  pose proof (failed_dispatch_absorbed env_500 message_text contact1 cfgA
                (world_of (state_of (Some (config_to_json cfgA)) textA ∅))
                eq_refl eq_refl eq_refl eq_refl) as (H1 & H2 & _).
  split; [exact H1 | exact H2].
Defined.

(** ** C8: a failed media download *)

(** C8, as the code has it.  For a message with media the payload
    builder returns a payload whatever the download does: every base
    member is there with the value of the message or the contact, and
    the message type and content are those of the message's kind.
    When [downloadMedia] rejects, the [media] member is the error
    marker and a warning is logged.  When [downloadMedia] resolves to
    [undefined], the payload has no [media] member, and no marker; with
    no quoted message or chat to look up and no other task running,
    the module state, log included, is as it was.  When it resolves to
    the media, [media] holds it. *)
Theorem media_failure_keeps_payload (env : Env) (message : Message)
  (contact : Contact) (isGroup : bool) (w : World) :
  hasMedia message = true →
  ∃ w' p,
    run env (prepareWebhookPayload message contact isGroup) w = (w', inr p) ∧
    (b_from (base p) = number contact ∧
     b_name (base p) = pushname contact ∧
     b_message (base p) = msg_body message ∧
     b_isGroup (base p) = isGroup ∧
     b_timestamp (base p) = timestamp message ∧
     b_messageId (base p) = id_serialized message ∧
     b_fromMe (base p) = fromMe message ∧
     b_type (base p) = type message ∧
     b_deviceType (base p) = deviceType message ∧
     b_isForwarded (base p) = isForwarded message ∧
     b_isStarred (base p) = isStarred message ∧
     b_hasQuotedMsg (base p) = hasQuotedMsg message ∧
     b_hasReaction (base p) = hasReaction message ∧
     b_isEphemeral (base p) = isEphemeral message) ∧
    ((messageType p, content p) = classify message ∧
     (type message = "image" →
        messageType p = "image" ∧ content p = CImage (msg_body message) true "image") ∧
     (type message = "video" →
        messageType p = "video" ∧
        content p = CVideo (msg_body message) true "video"
                      (duration_or_0 (duration message))) ∧
     (type message = "audio" →
        messageType p = "audio" ∧
        content p = CAudio true "audio" (duration_or_0 (duration message)) false) ∧
     (type message = "voice" →
        messageType p = "voice" ∧
        content p = CAudio true "voice" (duration_or_0 (duration message)) true) ∧
     (type message = "document" →
        messageType p = "document" ∧
        content p = CDocument (msg_body message) true "document"
                      (opt_str_or (filename message) "unknown")) ∧
     (type message = "sticker" →
        messageType p = "sticker" ∧ content p = CSticker true "sticker")) ∧
    outbox w' = outbox w ∧
    match media_answer env with
    | inl e =>
        media p = Some (MediaError "Failed to download media") ∧
        {| level := LWarn; msg := "Failed to download media for webhook:";
           arg := ArgExn e |} ∈ log (store w')
    | inr None =>
        media p = None ∧
        ((∀ a, meanwhile env a = []) → hasQuotedMsg message = false →
         isGroup = false → store w' = store w)
    | inr (Some m) => media p = Some (MediaData m)
    end.
Proof.
  intros Hm. rewrite prepare_run. eexists _, _. split; [reflexivity|].
  split; [repeat split|]. split.
  { assert (∀ s, str_or s "" = s) as Hor.
    { intros s. unfold str_or. destruct (String.eqb_spec s ""); by subst. }
    split; [simpl; by destruct (classify message)|].
    cbn [payload_of messageType content]. unfold classify.
    repeat match goal with |- _ ∧ _ => split end;
      intros Ht; rewrite Ht; cbn; by rewrite ?Hor. }
  split; [apply outbox_prepared|].
  unfold payload_of, media_of. cbn [media]. rewrite Hm.
  destruct (media_answer env) as [e|[m|]] eqn:He.
  - split; [done|].
    apply prepared_keeps_log. unfold after_media. rewrite Hm, He. simpl.
    apply elem_of_app. right. by apply list_elem_of_singleton.
  - done.
  - split; [done|]. intros Hq Hn ->.
    unfold prepared, after_group, after_quoted, after_media, waiting.
    by rewrite Hn, Hm, He, Hq.
Qed.

Lemma media_failure_keeps_payload_witness :
  hasMedia message_image = true ∧
  ∃ w' p,
    run env_500 (prepareWebhookPayload message_image contact1 false)
      (world_of (state_of (Some (config_to_json cfgA)) textA ∅)) = (w', inr p) ∧
    b_from (base p) = "15551234567" ∧
    content p = CImage "look" true "image" ∧
    media p = Some (MediaError "Failed to download media").
Proof.
  split; [reflexivity|].
  destruct (media_failure_keeps_payload env_500 message_image contact1 false
              (world_of (state_of (Some (config_to_json cfgA)) textA ∅)) eq_refl)
    as (w' & p & Hr & (Hb & _) & (_ & Hi & _) & _ & Hm).
  exists w', p. split; [exact Hr|]. split; [exact Hb|].
  split; [exact (proj2 (Hi eq_refl))|].
  exact (proj1 Hm).
Defined.

(** C8, the claim as stated fails: [downloadMedia] resolves to
    [undefined] for a message with media.  The payload is produced,
    its [media] member is missing rather than an error marker, and
    nothing is logged. *)
Lemma media_undefined_no_marker :
  hasMedia message_image = true ∧
  media_answer env_no_media = inr None ∧
  (media <$>
     match (run env_no_media (prepareWebhookPayload message_image contact1 false)
              (world_of (state_of (Some (config_to_json cfgA)) textA ∅))).2 with
     | inr p => Some p
     | inl _ => None
     end) = Some None ∧
  log (store (run env_no_media (prepareWebhookPayload message_image contact1 false)
                (world_of (state_of (Some (config_to_json cfgA)) textA ∅))).1) = [].
Proof. vm_compute. done. Qed.

(** C9, as the code has it.  An accepted event is delivered by one
    POST to the configured URL whose body is the payload, with the
    header [Content-Type: application/json], and with the header
    [Authorization: Bearer <authToken>] exactly when the configuration
    has a token that is not the empty string.  The test tool sends its
    fixed payload in the same way. *)
Theorem delivery_request (env : Env) (message : Message) (contact : Contact)
  (cfg : WebhookConfig) (w : World) (now : Z) (test_url : string)
  (test_token : option string) :
  contact_answer env = inr contact →
  currentWebhookConfig (store (waiting env AtContact w)) = Some (config_to_json cfg) →
  filter_skips cfg (is_group message) (number contact) = false →
  (∃ req,
     outbox (run env (on_message message) w).1 = outbox w ++ [req] ∧
     on_the_wire req (url cfg) (authToken cfg)
       (payload_of env message contact (is_group message))) ∧
  (∃ req,
     outbox (run env (test_webhook now test_url test_token) w).1 = outbox w ++ [req] ∧
     on_the_wire req test_url test_token (testPayload now)).
Proof.
  intros Hc Hcfg Hf. split.
  - exists (request_of env cfg message contact).
    rewrite (on_message_run env message contact cfg w Hc Hcfg), Hf. cbn [fst snd].
    rewrite outbox_finish, outbox_at_answer.
    split; [done | apply webhook_request_on_the_wire].
  - exists (webhook_request test_url test_token (testPayload now)).
    split; [|apply webhook_request_on_the_wire].
    unfold test_webhook. rewrite run_ptry, run_pbind.
    cbn [await run answer].
    by destruct (post_answer env (webhook_request test_url test_token (testPayload now))).
Qed.

Lemma delivery_request_witness :
  filter_skips cfgA (is_group message_text) (number contact1) = false ∧
  ∃ req,
    outbox (run env_200 (on_message message_text)
              (world_of (state_of (Some (config_to_json cfgA)) textA ∅))).1 = [req] ∧
    ("Authorization", "Bearer secret") ∈ headers req.
Proof.
  split; [reflexivity|].
  destruct (delivery_request env_200 message_text contact1 cfgA
              (world_of (state_of (Some (config_to_json cfgA)) textA ∅))
              0 "https://example.test/hook" None eq_refl eq_refl eq_refl)
    as [(req & Ho & _ & _ & _ & _ & Ha) _].
  exists req. split; [exact Ho|].
  apply Ha. exists "secret". split; [reflexivity|]. split; [discriminate | reflexivity].
Defined.

(** C9, the claim as stated fails: a configuration whose token is the
    empty string has a token, and the request carries no
    [Authorization] header. *)
Lemma empty_token_no_authorization :
  authToken cfg_empty_token = Some "" ∧
  map headers
    (outbox (run env_200 (on_message message_text)
               (world_of (state_of (Some (config_to_json cfg_empty_token))
                            textA ∅))).1) =
    [[("Content-Type", "application/json")]].
Proof. vm_compute. done. Qed.

(** ** C10: one snapshot of the configuration per event *)

(** C10, as the code has it.  Whatever tasks run while the handler
    waits, the configuration it read on entry decides both the filter
    check and the request: a skipped event sends nothing, an accepted
    event sends one request to the URL, and with the token, of that
    same value. *)
Theorem single_snapshot (env : Env) (message : Message) (contact : Contact)
  (cfg : WebhookConfig) (w : World) :
  contact_answer env = inr contact →
  currentWebhookConfig (store (waiting env AtContact w)) = Some (config_to_json cfg) →
  if filter_skips cfg (is_group message) (number contact)
  then (run env (on_message message) w).2 = inr Skipped ∧
       outbox (run env (on_message message) w).1 = outbox w
  else (run env (on_message message) w).2 = inr Completed ∧
       outbox (run env (on_message message) w).1 =
         outbox w ++
         [webhook_request (url cfg) (authToken cfg)
            (payload_of env message contact (is_group message))].
Proof.
  intros Hc Hcfg.
  rewrite (on_message_run env message contact cfg w Hc Hcfg).
  destruct (filter_skips cfg (is_group message) (number contact)); cbn [fst snd].
  - split; [done|]. unfold at_entry, add_entry, waiting. by destruct w.
  - split; [done|]. by rewrite outbox_finish, outbox_at_answer.
Qed.

Lemma single_snapshot_witness :
  currentWebhookConfig
    (store (waiting env_race AtContact
              (world_of (state_of (Some (config_to_json cfgA)) textA ∅)))) =
    Some (config_to_json cfgA) ∧
  map req_url
    (outbox (run env_race (on_message message_image)
               (world_of (state_of (Some (config_to_json cfgA)) textA ∅))).1) =
    [url cfgA].
Proof.
  split; [reflexivity|].
  pose proof (single_snapshot env_race message_image contact1 cfgA
                (world_of (state_of (Some (config_to_json cfgA)) textA ∅))
                eq_refl eq_refl) as H.
  change (filter_skips cfgA (is_group message_image) (number contact1))
    with false in H.
  destruct H as [_ ->]. reflexivity.
Defined.

(** C10, the claim as stated fails: the configuration is replaced
    while the media download is awaited, so that at dispatch time the
    current configuration is the new one, yet the request goes to the
    URL of the configuration read on entry. *)
Lemma dispatch_uses_entry_snapshot :
  map req_url
    (outbox (run env_race (on_message message_image)
               (world_of (state_of (Some (config_to_json cfgA)) textA ∅))).1) =
    ["https://example.test/hook"] ∧
  currentWebhookConfig
    (store (run env_race (on_message message_image)
              (world_of (state_of (Some (config_to_json cfgA)) textA ∅))).1) =
    Some (config_to_json cfgB) ∧
  url cfgB = "https://other.test/hook".
Proof. vm_compute. done. Qed.

(* ================================================================== *)
(** * Further properties of the code *)
(* ================================================================== *)

Import Startup Server StaticClient Notions.

(** ** The store and its watcher *)

(** [updateWebhookConfig] touches the stored value, the log and at
    most the backing file. *)
Lemma updateWebhookConfig_frame (c : option json) (s : bool) (st : State) :
  configWatcher (updateWebhookConfig c s st).1 = configWatcher st ∧
  webhookConfigPath (updateWebhookConfig c s st).1 = webhookConfigPath st ∧
  dirs (updateWebhookConfig c s st).1 = dirs st ∧
  unwritable (updateWebhookConfig c s st).1 = unwritable st ∧
  (∀ q, webhookConfigPath st ≠ Some q →
        files (updateWebhookConfig c s st).1 !! q = files st !! q).
Proof.
  unfold_store updateWebhookConfig.
  destruct s; [|done].
  destruct (webhookConfigPath st) as [p|] eqn:Ep; [|done]. simpl.
  destruct (String.eqb p ""); [done|]. simpl.
  destruct (JSON_stringify c) as [text|]; [|done]. simpl.
  destruct (bool_decide (p ∈ unwritable st)); [done|]. simpl.
  repeat split; try done.
  intros q Hq. apply lookup_insert_ne. congruence.
Qed.

(** A change notification whose file parses. *)
Lemma file_event_reloads (p text : string) (v : json) (s : State) :
  configWatcher s = Some {| watched := Some p; closed := false |} →
  webhookConfigPath s = Some p →
  files s !! p = Some text →
  JSON_parse text = Some v →
  file_event p "change" s =
  (add_log {| level := LInfo; msg := "Webhook config reloaded successfully";
              arg := NoArg |}
     (set_config (Some v)
        (add_log {| level := LInfo; msg := "Webhook config file changed, reloading...";
                    arg := NoArg |} s)),
   inr tt).
Proof.
  intros Hw Hp Hf Hv.
  unfold_store file_event. rewrite Hw. simpl. rewrite String.eqb_refl.
  unfold_store watcher_callback. rewrite Hp. simpl. rewrite Hf. simpl.
  by rewrite Hv.
Qed.

(** A change notification whose file does not parse. *)
Lemma file_event_keeps (p text : string) (s : State) :
  configWatcher s = Some {| watched := Some p; closed := false |} →
  webhookConfigPath s = Some p →
  files s !! p = Some text →
  JSON_parse text = None →
  currentWebhookConfig (file_event p "change" s).1 = currentWebhookConfig s.
Proof.
  intros Hw Hp Hf Hv.
  unfold_store file_event. rewrite Hw. simpl. rewrite String.eqb_refl.
  unfold_store watcher_callback. rewrite Hp. simpl. rewrite Hf. simpl.
  by rewrite Hv.
Qed.

(** Without an open watcher no notification arrives. *)
Lemma file_event_idle (path eventType : string) (s : State) :
  (configWatcher s = None ∨ ∃ w, configWatcher s = Some w ∧ closed w = true) →
  file_event path eventType s = (s, inr tt).
Proof.
  unfold_store file_event.
  intros [-> | ([q c] & -> & Hc)]; [done|].
  simpl in Hc. subst c. by destruct q.
Qed.

(** What [loadWebhookConfig] leaves alone, and the path it sets. *)
Lemma loadWebhookConfig_frame (path_join : string → string → string)
  (dataPath : string) (st : State) :
  webhookConfigPath (loadWebhookConfig path_join dataPath st).1 =
    Some (path_join dataPath "webhook.json") ∧
  files (loadWebhookConfig path_join dataPath st).1 = files st ∧
  dirs (loadWebhookConfig path_join dataPath st).1 = dirs st ∧
  unwritable (loadWebhookConfig path_join dataPath st).1 = unwritable st.
Proof. unfold loadWebhookConfig. apply loadWebhookConfig_at_frame. Qed.

(** With no file at the backing path, [loadWebhookConfig] leaves no
    open watcher. *)
Lemma loadWebhookConfig_no_watcher (path_join : string → string → string)
  (dataPath : string) (st : State) :
  files st !! path_join dataPath "webhook.json" = None →
  path_join dataPath "webhook.json" ∉ dirs st →
  currentWebhookConfig (loadWebhookConfig path_join dataPath st).1 = None ∧
  (configWatcher (loadWebhookConfig path_join dataPath st).1 = None ∨
   ∃ w, configWatcher (loadWebhookConfig path_join dataPath st).1 = Some w ∧
        closed w = true).
Proof.
  intros Hf Hd.
  destruct (loadWebhookConfig_returns path_join dataPath st) as [_ Hc].
  rewrite Hf in Hc. split; [done|].
  unfold loadWebhookConfig. rewrite loadWebhookConfig_at_unfold. cbn [fst].
  rewrite setup_at_watcher.
  destruct (load_phase_fields path_join dataPath st) as (_ & -> & -> & Hf' & Hd' & _).
  unfold present. rewrite Hf', Hd', Hf.
  rewrite (bool_decide_eq_false_2 (_ ∈ _)) by done.
  rewrite bool_decide_eq_false_2 by (by intros [? ?]).
  destruct (configWatcher st) as [old|]; simpl.
  - right. eexists. split; reflexivity.
  - by left.
Qed.

(** X1. Once [loadWebhookConfig] has found its file, an edit of that
    file followed by its change notification puts the value of the
    edited text in memory; when the edited text does not parse, memory
    keeps what was loaded. *)
Theorem edit_after_load (path_join : string → string → string)
  (dataPath text0 text : string) (st : State) :
  files st !! path_join dataPath "webhook.json" = Some text0 →
  currentWebhookConfig (loadWebhookConfig path_join dataPath st).1 =
    JSON_parse text0 ∧
  currentWebhookConfig
    (run_tasks [TaskEdit (path_join dataPath "webhook.json") text;
                TaskFileEvent (path_join dataPath "webhook.json") "change"]
       (loadWebhookConfig path_join dataPath st).1) =
    match JSON_parse text with
    | Some v => Some v
    | None => JSON_parse text0
    end.
Proof.
  intros Hf.
  destruct (loadWebhookConfig_returns path_join dataPath st) as [_ Hc].
  rewrite Hf in Hc. cbn [mbind option_bind] in Hc.
  destruct (loadWebhookConfig_watches path_join dataPath text0 st Hf)
    as (Hw & Hp & _).
  set (p := path_join dataPath "webhook.json") in *.
  set (st1 := (loadWebhookConfig path_join dataPath st).1) in *.
  split; [done|].
  cbn [run_tasks fold_left run_task].
  set (st2 := set_files (<[p := text]> (files st1)) st1).
  assert (files st2 !! p = Some text) as Hl by apply lookup_insert_eq.
  destruct (JSON_parse text) as [v|] eqn:Ev.
  - by rewrite (file_event_reloads p text v st2).
  - by rewrite (file_event_keeps p text st2).
Qed.

Lemma edit_after_load_witness :
  currentWebhookConfig
    (run_tasks [TaskEdit "data/webhook.json" textB;
                TaskFileEvent "data/webhook.json" "change"]
       (loadWebhookConfig join "data" (state_of None textA ∅)).1) =
    Some (config_to_json cfgB).
Proof.
  destruct (edit_after_load join "data" textA textB (state_of None textA ∅) eq_refl)
    as [_ H].
  exact H.
Defined.

(** X2. When there is nothing at the backing path at the time of
    [loadWebhookConfig], no watcher is started: whatever is written to
    files afterwards and whatever notifications follow, the stored
    configuration stays [undefined] until [updateWebhookConfig] is
    called. *)
Theorem file_created_later_ignored (path_join : string → string → string)
  (dataPath : string) (st : State) (ts : list Task) :
  files st !! path_join dataPath "webhook.json" = None →
  path_join dataPath "webhook.json" ∉ dirs st →
  Forall (λ t, is_update t = false) ts →
  currentWebhookConfig
    (run_tasks ts (loadWebhookConfig path_join dataPath st).1) = None.
Proof.
  intros Hf Hd Hts.
  destruct (loadWebhookConfig_no_watcher path_join dataPath st Hf Hd) as [Hc Hw].
  revert Hc Hw. generalize ((loadWebhookConfig path_join dataPath st).1).
  induction Hts as [|t ts Ht Hts IH]; intros s Hc Hw; [done|].
  cbn [run_tasks fold_left]. apply IH.
  - destruct t as [c sv|p e|p text]; [done| |done].
    simpl. by rewrite file_event_idle.
  - destruct t as [c sv|p e|p text]; [done| |done].
    simpl. by rewrite file_event_idle.
Qed.

Lemma file_created_later_ignored_witness :
  currentWebhookConfig
    (run_tasks [TaskEdit "data/webhook.json" textA;
                TaskFileEvent "data/webhook.json" "change";
                TaskFileEvent "data/webhook.json" "rename"]
       (loadWebhookConfig join "data" no_file).1) = None.
Proof.
  apply (file_created_later_ignored join "data" no_file).
  - reflexivity.
  - vm_compute. intros [=].
  - repeat constructor.
Defined.

(** X3. The change notification that follows the module's own write
    is harmless: after [updateWebhookConfig(cfg, true)] has written the
    backing file, the watcher's reload reads the same configuration
    back and alters nothing but the log. *)
Theorem own_write_reload (p : string) (cfg : WebhookConfig) (st : State) :
  configWatcher st = Some {| watched := Some p; closed := false |} →
  webhookConfigPath st = Some p →
  p ≠ "" →
  p ∉ unwritable st →
  files (updateWebhookConfig (Some (config_to_json cfg)) true st).1 !! p =
    Some (ser 0 (config_to_json cfg)) ∧
  currentWebhookConfig
    (file_event p "change"
       (updateWebhookConfig (Some (config_to_json cfg)) true st).1).1 =
    Some (config_to_json cfg) ∧
  hush (file_event p "change"
          (updateWebhookConfig (Some (config_to_json cfg)) true st).1).1 =
    hush (updateWebhookConfig (Some (config_to_json cfg)) true st).1.
Proof.
  intros Hw Hp Hne Hu.
  pose proof (updateWebhookConfig_saves (config_to_json cfg) p st Hp Hne Hu) as Hf.
  destruct (updateWebhookConfig_frame (Some (config_to_json cfg)) true st)
    as (Hw' & Hp' & _).
  destruct (updateWebhookConfig_memory (Some (config_to_json cfg)) true st)
    as [Hm _].
  set (st1 := (updateWebhookConfig (Some (config_to_json cfg)) true st).1) in *.
  assert (files st1 !! p = Some (ser 0 (config_to_json cfg))) as Hl.
  { rewrite Hf. apply lookup_insert_eq. }
  split; [done|].
  rewrite (file_event_reloads p (ser 0 (config_to_json cfg)) (config_to_json cfg) st1);
    [| congruence | congruence | done | apply config_text_roundtrip].
  cbn [fst]. split; [done|].
  apply hush_eq; simpl; congruence.
Qed.

Lemma own_write_reload_witness :
  currentWebhookConfig
    (file_event "data/webhook.json" "change"
       (updateWebhookConfig (Some (config_to_json cfgA)) true
          (state_of None textB ∅)).1).1 =
    Some (config_to_json cfgA).
Proof.
  apply (own_write_reload "data/webhook.json" cfgA (state_of None textB ∅)).
  - reflexivity.
  - reflexivity.
  - discriminate.
  - apply not_elem_of_empty.
Defined.

(** ** Starting the client *)

(** [createWhatsAppClient] as a function of the state: the error of
    [fs.watch] ends it where the configuration is loaded; otherwise the
    media directory and the lock file follow. *)
Lemma createWhatsAppClient_at_unfold (watch_error : string → option exn)
  (path_join : string → string → string) (config : WhatsAppConfig) (st : State) :
  let dataPath := default ".wwebjs_auth" (truthy (authDataPath config)) in
  let media := default (path_join dataPath "media") (truthy (mediaStoragePath config)) in
  let lock := dataPath +:+ "/SingletonLock" in
  let s1 := (loadWebhookConfig_at watch_error path_join dataPath st).1 in
  let s2 :=
    if bool_decide (is_Some (files s1 !! media)) || bool_decide (media ∈ dirs s1)
    then s1
    else if bool_decide (media ∈ unwritable s1)
         then add_log {| level := LError;
                         msg := "Failed to create media storage directory: ";
                         arg := ArgExn (IOError media) |} s1
         else add_log {| level := LInfo;
                         msg := "Created media storage directory: " +:+ media;
                         arg := NoArg |} (set_dirs ({[media]} ∪ dirs s1) s1) in
  let s3 :=
    match files s2 !! lock with
    | Some _ => if bool_decide (lock ∈ unwritable s2) then s2
                else set_files (delete lock (files s2)) s2
    | None => s2
    end in
  match watch_failure watch_error (path_join dataPath "webhook.json") st with
  | Some e => createWhatsAppClient_at watch_error path_join config st = (s1, inl e)
  | None =>
      ∃ options,
        createWhatsAppClient_at watch_error path_join config st = (s3, inr options) ∧
        puppeteer options =
          (if default false (dockerContainer config)
           then {| headless := true; userDataDir := Some dataPath;
                   args := Some ["--no-sandbox"; "--single-process"; "--no-zygote"] |}
           else {| headless := true; userDataDir := None; args := None |}) ∧
        opt_authStrategy options =
          match authStrategy config with
          | Some AuthLocal =>
              if negb (default false (dockerContainer config))
              then LocalAuth dataPath else NoAuth
          | _ => NoAuth
          end
  end.
Proof.
  cbv zeta. unfold createWhatsAppClient_at.
  set (dataPath := default ".wwebjs_auth" (truthy (authDataPath config))).
  set (media := default (path_join dataPath "media") (truthy (mediaStoragePath config))).
  set (lock := dataPath +:+ "/SingletonLock").
  destruct (loadWebhookConfig_at_returns watch_error path_join dataPath st) as [_ Hr].
  destruct (watch_failure watch_error (path_join dataPath "webhook.json") st) as [e|];
    unfold bind at 1; cbv beta;
    destruct (loadWebhookConfig_at watch_error path_join dataPath st) as [s1 r];
    cbn [fst snd] in *; subst r; [reflexivity|].
  unfold bind, fs_existsSync, gets, try_catch, fs_mkdirSync, logger, modify, ret,
    fs_rmSync_force.
  destruct (bool_decide (is_Some (files s1 !! media)) || bool_decide (media ∈ dirs s1));
    cbn [negb].
  - destruct (files s1 !! lock); [destruct (bool_decide (lock ∈ unwritable s1))|];
      [| |destruct (bool_decide (lock ∈ dirs s1))]; eexists; split; try reflexivity;
      split; reflexivity.
  - destruct (bool_decide (media ∈ unwritable s1)); cbn [files unwritable add_log set_dirs dirs];
      (destruct (files s1 !! lock); [destruct (bool_decide (lock ∈ unwritable s1))|];
       [| |destruct (bool_decide (lock ∈ _))]; eexists; split; try reflexivity;
       split; reflexivity).
Qed.

(** The same in the runs in which the watch starts. *)
Lemma createWhatsAppClient_unfold (path_join : string → string → string)
  (config : WhatsAppConfig) (st : State) :
  let dataPath := default ".wwebjs_auth" (truthy (authDataPath config)) in
  let media := default (path_join dataPath "media") (truthy (mediaStoragePath config)) in
  let lock := dataPath +:+ "/SingletonLock" in
  let s1 := (loadWebhookConfig path_join dataPath st).1 in
  let s2 :=
    if bool_decide (is_Some (files s1 !! media)) || bool_decide (media ∈ dirs s1)
    then s1
    else if bool_decide (media ∈ unwritable s1)
         then add_log {| level := LError;
                         msg := "Failed to create media storage directory: ";
                         arg := ArgExn (IOError media) |} s1
         else add_log {| level := LInfo;
                         msg := "Created media storage directory: " +:+ media;
                         arg := NoArg |} (set_dirs ({[media]} ∪ dirs s1) s1) in
  let s3 :=
    match files s2 !! lock with
    | Some _ => if bool_decide (lock ∈ unwritable s2) then s2
                else set_files (delete lock (files s2)) s2
    | None => s2
    end in
  ∃ options, createWhatsAppClient path_join config st = (s3, inr options) ∧
    puppeteer options =
      (if default false (dockerContainer config)
       then {| headless := true; userDataDir := Some dataPath;
               args := Some ["--no-sandbox"; "--single-process"; "--no-zygote"] |}
       else {| headless := true; userDataDir := None; args := None |}) ∧
    opt_authStrategy options =
      match authStrategy config with
      | Some AuthLocal =>
          if negb (default false (dockerContainer config))
          then LocalAuth dataPath else NoAuth
      | _ => NoAuth
      end.
Proof.
  pose proof (createWhatsAppClient_at_unfold (λ _, None) path_join config st) as H.
  cbv zeta in *. unfold watch_failure in H.
  destruct (present _ st); exact H.
Qed.

(** X4. [createWhatsAppClient] sets the backing path to
    [webhook.json] under the data path ([authDataPath], or
    [.wwebjs_auth] when that is missing or empty) and stores what that
    file parses to ([undefined] when it is missing or malformed).  When
    something is at the backing path and [fs.watch] throws, that error
    leaves [createWhatsAppClient] right there, before the media
    directory and the lock file are looked at.  Otherwise the function
    gets as far as constructing the client.  The media directory is
    created, and its creation logged, when nothing is at its path; a
    failure to create it is logged and startup goes on; when something
    is at the path already, directory or file, nothing is created and
    nothing logged.  The lock file is removed when it is there and can
    be removed; no other file is touched. *)
Theorem createWhatsAppClient_starts (watch_error : string → option exn)
  (path_join : string → string → string) (config : WhatsAppConfig) (st : State) :
  let dataPath := default ".wwebjs_auth" (truthy (authDataPath config)) in
  let media := default (path_join dataPath "media") (truthy (mediaStoragePath config)) in
  let lock := dataPath +:+ "/SingletonLock" in
  let loaded := (loadWebhookConfig_at watch_error path_join dataPath st).1 in
  let r := createWhatsAppClient_at watch_error path_join config st in
  webhookConfigPath r.1 = Some (path_join dataPath "webhook.json") ∧
  currentWebhookConfig r.1 =
    files st !! path_join dataPath "webhook.json" ≫= JSON_parse ∧
  match watch_failure watch_error (path_join dataPath "webhook.json") st with
  | Some e =>
      r = (loaded, inl e) ∧ files loaded = files st ∧ dirs loaded = dirs st
  | None =>
      (∃ options, r.2 = inr options) ∧
      (if present media st
       then dirs r.1 = dirs st ∧ log r.1 = log loaded
       else if bool_decide (media ∈ unwritable st)
            then dirs r.1 = dirs st ∧
                 log r.1 =
                   log loaded ++
                   [{| level := LError;
                       msg := "Failed to create media storage directory: ";
                       arg := ArgExn (IOError media) |}]
            else media ∈ dirs r.1 ∧ dirs st ⊆ dirs r.1 ∧
                 log r.1 =
                   log loaded ++
                   [{| level := LInfo;
                       msg := "Created media storage directory: " +:+ media;
                       arg := NoArg |}]) ∧
      files r.1 =
        match files st !! lock with
        | Some _ => if bool_decide (lock ∈ unwritable st) then files st
                    else delete lock (files st)
        | None => files st
        end
  end.
Proof.
  cbv zeta.
  pose proof (createWhatsAppClient_at_unfold watch_error path_join config st) as H.
  cbv zeta in H.
  set (dataPath := default ".wwebjs_auth" (truthy (authDataPath config))) in *.
  set (media := default (path_join dataPath "media") (truthy (mediaStoragePath config)))
    in *.
  set (lock := dataPath +:+ "/SingletonLock") in *.
  destruct (loadWebhookConfig_at_frame watch_error path_join dataPath st)
    as (Hp & Hf & Hd & Hu).
  destruct (loadWebhookConfig_at_returns watch_error path_join dataPath st) as [Hc _].
  set (s1 := (loadWebhookConfig_at watch_error path_join dataPath st).1) in *.
  destruct (watch_failure watch_error (path_join dataPath "webhook.json") st) as [e|].
  { rewrite H. cbn [fst]. done. }
  destruct H as (options & -> & _). cbn [fst snd]. unfold present.
  rewrite Hf, Hd, Hu.
  destruct (bool_decide (is_Some (files st !! media)) || bool_decide (media ∈ dirs st)).
  - rewrite Hf, Hu.
    destruct (files st !! lock); [destruct (bool_decide (lock ∈ unwritable st))|];
      cbn; rewrite ?Hf, ?Hd; repeat split; eauto.
  - destruct (bool_decide (media ∈ unwritable st)); cbn [files unwritable add_log set_dirs];
      rewrite Hf, Hu;
      (destruct (files st !! lock); [destruct (bool_decide (lock ∈ unwritable st))|];
       cbn; rewrite ?Hf, ?Hd; repeat split; eauto;
       solve [apply elem_of_union_l; by apply elem_of_singleton
             | by apply union_subseteq_r]).
Qed.

(** X5. The client is given [LocalAuth] on the data path exactly when
    the strategy asked for is ['local'] and [dockerContainer] is not
    set, and [NoAuth] in every other case.  The browser is given the
    data path as [userDataDir] exactly when [dockerContainer] is set,
    and is headless in both cases. *)
Theorem createWhatsAppClient_options (path_join : string → string → string)
  (config : WhatsAppConfig) (st : State) (options : ClientOptions) :
  (createWhatsAppClient path_join config st).2 = inr options →
  let dataPath := default ".wwebjs_auth" (truthy (authDataPath config)) in
  (opt_authStrategy options = LocalAuth dataPath ↔
     authStrategy config = Some AuthLocal ∧ dockerContainer config ≠ Some true) ∧
  (opt_authStrategy options = NoAuth ↔
     authStrategy config ≠ Some AuthLocal ∨ dockerContainer config = Some true) ∧
  (userDataDir (puppeteer options) = Some dataPath ↔
     dockerContainer config = Some true) ∧
  (userDataDir (puppeteer options) = None ↔ dockerContainer config ≠ Some true) ∧
  headless (puppeteer options) = true.
Proof.
  destruct (createWhatsAppClient_unfold path_join config st)
    as (options' & -> & Hpu & Hau).
  cbv zeta in *. intros [= <-]. rewrite Hpu, Hau.
  destruct (authStrategy config) as [[]|], (dockerContainer config) as [[]|];
    cbn; repeat split; try done; try tauto; try (intros [? ?]; done);
    try (intros [?|?]; done); auto.
Qed.

Lemma createWhatsAppClient_options_witness :
  ∃ options,
    (createWhatsAppClient join
       {| authDataPath := Some "data"; authStrategy := Some AuthLocal;
          dockerContainer := None; mediaStoragePath := None |} no_file).2 =
      inr options ∧
    opt_authStrategy options = LocalAuth "data".
Proof.
  eexists. split; [vm_compute; reflexivity|].
  apply (createWhatsAppClient_options join
           {| authDataPath := Some "data"; authStrategy := Some AuthLocal;
              dockerContainer := None; mediaStoragePath := None |} no_file).
  - vm_compute. reflexivity.
  - split; [reflexivity | discriminate].
Defined.

(** ** The message handler *)

(** The handler on any stored value. *)
Lemma on_message_cases (env : Env) (message : Message) (w : World) :
  run env (on_message message) w =
  match contact_answer env with
  | inl e => (waiting env AtContact w, inl e)
  | inr contact =>
      match currentWebhookConfig (store (waiting env AtContact w)) with
      | None => (at_entry env message contact w, inr NoWebhook)
      | Some JNull => (at_entry env message contact w, inr NoWebhook)
      | Some v =>
          match as_WebhookConfig v with
          | None => (at_entry env message contact w, inr OffInterface)
          | Some cfg =>
              if filter_skips cfg (is_group message) (number contact)
              then (at_entry env message contact w, inr Skipped)
              else (finish (post_answer env (request_of env cfg message contact))
                      (at_answer env cfg message contact w),
                    inr Completed)
          end
      end
  end.
Proof.
  unfold on_message.
  cbn [pbind act run answer await].
  destruct (contact_answer env) as [e|contact]; [done|].
  cbn [pbind act run answer await on_store store]. cbn [add_log currentWebhookConfig].
  fold (is_group message).
  destruct (currentWebhookConfig (store (waiting env AtContact w))) as [v|]; [|done].
  destruct v; try done;
    match goal with
    | |- context [as_WebhookConfig ?v] => destruct (as_WebhookConfig v) as [cfg|]; [|done]
    end;
    (destruct (filter_skips cfg (is_group message) (number contact)); [done|];
     rewrite run_pbind, dispatch_run; done).
Qed.

Lemma set_log_same (st : State) : set_log (log st ++ []) st = st.
Proof. rewrite app_nil_r. by destruct st. Qed.

Lemma set_log_twice (st : State) (l1 l2 : list LogEntry) :
  set_log (log (set_log (log st ++ l1) st) ++ l2) (set_log (log st ++ l1) st) =
  set_log (log st ++ (l1 ++ l2)) st.
Proof. unfold set_log. simpl. by rewrite app_assoc. Qed.

(** With no other task on the event loop, a step of an asynchronous
    program leaves the module state as it was but for the log. *)
Lemma answer_only_logs (env : Env) {X : Type} (a : Act X) (w : World) :
  (∀ p, meanwhile env p = []) →
  ∃ more, store (answer env a w).1 = set_log (log (store w) ++ more) (store w).
Proof.
  intros Hm.
  destruct a; simpl; unfold waiting; rewrite ?Hm; simpl;
    try (exists []; by rewrite set_log_same).
  eexists [_]. by destruct w as [[]].
Qed.

Lemma run_only_logs {R : Type} (env : Env) (p : Prog R) (w : World) :
  (∀ p, meanwhile env p = []) →
  ∃ more, store (run env p w).1 = set_log (log (store w) ++ more) (store w).
Proof.
  intros Hm. revert w. induction p as [r|e|X a k IH]; intros w;
    [exists []; by rewrite set_log_same..|].
  cbn [run]. destruct (answer_only_logs env a w Hm) as [l1 H1].
  destruct (answer env a w) as [w' x]. simpl in H1.
  destruct (IH x w') as [l2 H2]. exists (l1 ++ l2).
  by rewrite H2, H1, set_log_twice.
Qed.

(** Updates that store values of the interface keep the stored value
    one of them. *)
Lemma run_tasks_interface (ts : list Task) (st : State) :
  Forall interface_update ts →
  on_interface (currentWebhookConfig st) →
  on_interface (currentWebhookConfig (run_tasks ts st)).
Proof.
  intros Hts. revert st. induction Hts as [|t ts Ht Hts IH]; intros st Hst; [done|].
  change (run_tasks (t :: ts) st) with (run_tasks ts (run_task t st)). apply IH.
  destruct t as [c sv|q e|q text]; [|done..]. simpl.
  by destruct (updateWebhookConfig_memory c sv st) as [-> _].
Qed.

Lemma answer_interface (env : Env) {X : Type} (a : Act X) (w : World) :
  (∀ p, Forall interface_update (meanwhile env p)) →
  on_interface (currentWebhookConfig (store w)) →
  on_interface (currentWebhookConfig (store (answer env a w).1)).
Proof.
  intros Hm Hw.
  destruct a; simpl; try done; unfold waiting; simpl; by apply run_tasks_interface.
Qed.

Lemma run_interface {R : Type} (env : Env) (p : Prog R) (w : World) :
  (∀ p, Forall interface_update (meanwhile env p)) →
  on_interface (currentWebhookConfig (store w)) →
  on_interface (currentWebhookConfig (store (run env p w).1)).
Proof.
  intros Hm. revert w. induction p as [r|e|X a k IH]; intros w Hw; [done..|].
  cbn [run]. pose proof (answer_interface env a w Hm Hw) as H1.
  destruct (answer env a w) as [w' x]. by apply IH.
Qed.

(** What one event adds to the requests sent, on a stored value of
    the interface: one request when the handler gets to the end of its
    [try]/[catch], and none otherwise. *)
Lemma on_message_outbox (env : Env) (message : Message) (w : World) :
  on_interface (currentWebhookConfig (store (waiting env AtContact w))) →
  (run env (on_message message) w).2 ≠ inr OffInterface ∧
  ∃ reqs, outbox (run env (on_message message) w).1 = outbox w ++ reqs ∧
          length reqs =
            if is_completed (run env (on_message message) w).2 then 1 else 0.
Proof.
  intros Hi. rewrite on_message_cases.
  assert (outbox (waiting env AtContact w) = outbox w) as Hw by (by destruct w).
  destruct (contact_answer env) as [e|contact].
  { split; [done|]. exists []. by rewrite app_nil_r. }
  assert (outbox (at_entry env message contact w) = outbox w) as He by (by destruct w).
  destruct (currentWebhookConfig (store (waiting env AtContact w))) as [v|];
    [|split; [done|]; exists []; by rewrite app_nil_r].
  assert (∀ cfg, as_WebhookConfig v = Some cfg →
    ((if filter_skips cfg (is_group message) (number contact)
      then (at_entry env message contact w, inr Skipped)
      else (finish (post_answer env (request_of env cfg message contact))
              (at_answer env cfg message contact w), inr Completed)).2
       ≠ (inr OffInterface : exn + Exit)) ∧
    ∃ reqs,
      outbox (if filter_skips cfg (is_group message) (number contact)
              then (at_entry env message contact w, inr Skipped : exn + Exit)
              else (finish (post_answer env (request_of env cfg message contact))
                      (at_answer env cfg message contact w), inr Completed)).1 =
        outbox w ++ reqs ∧
      length reqs =
        if is_completed
             (if filter_skips cfg (is_group message) (number contact)
              then (at_entry env message contact w, inr Skipped : exn + Exit)
              else (finish (post_answer env (request_of env cfg message contact))
                      (at_answer env cfg message contact w), inr Completed)).2
        then 1 else 0) as Hcfg.
  { intros cfg _.
    destruct (filter_skips cfg (is_group message) (number contact)); cbn [fst snd].
    - split; [done|]. exists []. by rewrite app_nil_r.
    - split; [done|]. exists [request_of env cfg message contact].
      by rewrite outbox_finish, outbox_at_answer. }
  destruct v; unfold on_interface in Hi; cbv beta iota in Hi |- *;
    try (split; [done|]; exists []; by rewrite app_nil_r);
    destruct Hi as [cfg Hi]; rewrite Hi; by apply Hcfg.
Qed.

(** X6. When [message.getContact()] rejects, the message handler
    rejects with the same reason, with nothing logged and nothing
    sent.  When the contact lookup resolves and the stored value is
    [undefined], [null] or a configuration, the handler returns
    normally whatever the later calls answer: it stops at its first
    test, at the filter check, or after the dispatch. *)
Theorem handler_rejects_with_contact (env : Env) (message : Message) (w : World) :
  (∀ e, contact_answer env = inl e →
     run env (on_message message) w = (waiting env AtContact w, inl e) ∧
     outbox (waiting env AtContact w) = outbox w) ∧
  (∀ contact, contact_answer env = inr contact →
     match currentWebhookConfig (store (waiting env AtContact w)) with
     | None => (run env (on_message message) w).2 = inr NoWebhook
     | Some v =>
         (v = JNull → (run env (on_message message) w).2 = inr NoWebhook) ∧
         (∀ cfg, as_WebhookConfig v = Some cfg →
            (run env (on_message message) w).2 =
              inr (if filter_skips cfg (is_group message) (number contact)
                   then Skipped else Completed))
     end).
Proof.
  rewrite on_message_cases. split.
  - intros e ->. done.
  - intros contact ->.
    destruct (currentWebhookConfig (store (waiting env AtContact w))) as [v|];
      [|done].
    split; [by intros ->|]. intros cfg Hcfg.
    destruct v; try discriminate Hcfg; rewrite Hcfg;
      by destruct (filter_skips cfg (is_group message) (number contact)).
Qed.

(** X7. While the stored value stays [undefined], [null] or a
    configuration (it is one at the start, and the only other tasks
    that run while handlers wait are updates that store one), handling
    a series of events sends exactly one request for each event whose
    handler gets to the end of its [try]/[catch], so at most one per
    event, and never removes or reorders the requests already sent.
    When no other task runs in between, the handlers leave the module
    state as it was except for the lines they add to the log. *)
Theorem one_request_per_event (events : list (Message * Env)) (w : World) :
  on_interface (currentWebhookConfig (store w)) →
  through_interface events →
  (∃ reqs, outbox (handle_all events w).1 = outbox w ++ reqs ∧
           length reqs = length (List.filter is_completed (handle_all events w).2) ∧
           length reqs ≤ length events) ∧
  Forall (λ r, r ≠ inr OffInterface) (handle_all events w).2 ∧
  on_interface (currentWebhookConfig (store (handle_all events w).1)) ∧
  (undisturbed events →
   ∃ more, store (handle_all events w).1 = set_log (log (store w) ++ more) (store w)).
Proof.
  intros Hi Ht. split; [|split; [|split]].
  - revert w Hi. induction Ht as [|[m env] events Hm Ht IH]; intros w Hi.
    { exists []. split; [by rewrite app_nil_r | done]. }
    cbn [handle_all]. simpl in Hm.
    destruct (on_message_outbox env m w) as (_ & r1 & H1 & L1).
    { unfold waiting. simpl. by apply run_tasks_interface. }
    pose proof (run_interface env (on_message m) w Hm Hi) as Hi1.
    destruct (run env (on_message m) w) as [w1 r]. cbn [fst snd] in *.
    destruct (IH w1 Hi1) as (r2 & H2 & L2 & B2).
    destruct (handle_all events w1) as [w2 rs]. cbn [fst snd] in *.
    exists (r1 ++ r2). rewrite H2, H1, app_assoc. split; [done|].
    rewrite length_app, L1, L2. cbn [List.filter length].
    destruct (is_completed r); simpl; lia.
  - revert w Hi. induction Ht as [|[m env] events Hm Ht IH]; intros w Hi; [done|].
    cbn [handle_all]. simpl in Hm.
    destruct (on_message_outbox env m w) as (Hr & _).
    { unfold waiting. simpl. by apply run_tasks_interface. }
    pose proof (run_interface env (on_message m) w Hm Hi) as Hi1.
    destruct (run env (on_message m) w) as [w1 r]. cbn [fst snd] in *.
    pose proof (IH w1 Hi1) as H2.
    destruct (handle_all events w1) as [w2 rs]. cbn [fst snd] in *.
    by constructor.
  - revert w Hi. induction Ht as [|[m env] events Hm Ht IH]; intros w Hi; [done|].
    cbn [handle_all]. simpl in Hm.
    pose proof (run_interface env (on_message m) w Hm Hi) as Hi1.
    destruct (run env (on_message m) w) as [w1 r]. cbn [fst] in *.
    pose proof (IH w1 Hi1) as H2.
    by destruct (handle_all events w1) as [w2 rs].
  - clear Hi Ht. intros Hu. revert w.
    induction Hu as [|[m env] events Hm Hu IH]; intros w.
    { exists []. by rewrite set_log_same. }
    cbn [handle_all].
    destruct (run_only_logs env (on_message m) w Hm) as [l1 H1].
    destruct (run env (on_message m) w) as [w1 r]. cbn [fst] in H1.
    destruct (IH w1) as [l2 H2].
    destruct (handle_all events w1) as [w2 rs]. cbn [fst] in *.
    exists (l1 ++ l2). by rewrite H2, H1, set_log_twice.
Qed.

(** The configuration is replaced by another while the second handler
    awaits its media download. *)
Lemma one_request_per_event_witness :
  through_interface [(message_text, env_200); (message_image, env_race)] ∧
  ∃ reqs,
    outbox (handle_all [(message_text, env_200); (message_image, env_race)]
              (world_of (state_of (Some (config_to_json cfgA)) textA ∅))).1 = reqs ∧
    length reqs = 2.
Proof.
  assert (through_interface [(message_text, env_200); (message_image, env_race)]) as Ht.
  { repeat constructor; intros []; repeat constructor. vm_compute. eauto. }
  split; [exact Ht|].
  destruct (one_request_per_event [(message_text, env_200); (message_image, env_race)]
              (world_of (state_of (Some (config_to_json cfgA)) textA ∅)))
    as ((reqs & Ho & Hl & _) & _).
  - vm_compute. eauto.
  - exact Ht.
  - exists reqs. split; [exact Ho|]. rewrite Hl. vm_compute. reflexivity.
Defined.

Lemma prefix_app (p s : string) :
  String.prefix p s = true ↔ ∃ b, s = p +:+ b.
Proof.
  revert s. induction p as [|c p IH]; intros s.
  - destruct s; simpl; (split; [by eexists | done]).
  - destruct s as [|d s]; simpl; [split; [done | by intros [b [=]]]|].
    destruct (Ascii.ascii_dec c d) as [->|Hn].
    + rewrite IH. split.
      * intros [b ->]. by exists b.
      * intros [b [= ->]]. by exists b.
    + split; [done|]. intros [b [= -> _]]. done.
Qed.

(** [includes] finds a substring. *)
Lemma includes_spec (sub s : string) :
  includes sub s = true ↔ ∃ a b, s = a +:+ sub +:+ b.
Proof.
  induction s as [|c s IH]; cbn [includes].
  - rewrite orb_false_r, prefix_app. split.
    + intros [b ->]. by exists "", b.
    + intros ([|? a] & b & H); [by exists b | discriminate H].
  - rewrite orb_true_iff, prefix_app, IH. split.
    + intros [[b ->] | (a & b & ->)]; [by exists "", b | by exists (String c a), b].
    + intros ([|d a] & b & H).
      * left. by exists b.
      * right. injection H as -> ->. by exists a, b.
Qed.

(** X8. An accepted event is marked as a group event exactly when the
    sender id [message.from] contains [@g.us]; only such an event can
    carry a [group] member, which then describes the chat that
    [getChat] returned. *)
Theorem group_events (env : Env) (message : Message) (contact : Contact)
  (cfg : WebhookConfig) (w : World) :
  contact_answer env = inr contact →
  currentWebhookConfig (store (waiting env AtContact w)) = Some (config_to_json cfg) →
  filter_skips cfg (is_group message) (number contact) = false →
  ∃ req,
    outbox (run env (on_message message) w).1 = outbox w ++ [req] ∧
    (b_isGroup (base (body req)) = true ↔
       ∃ a b, from message = a +:+ "@g.us" +:+ b) ∧
    (∀ g, group (body req) = Some g →
       (∃ a b, from message = a +:+ "@g.us" +:+ b) ∧
       ∃ chat, chat_answer env = inr chat ∧ g = group_info chat).
Proof.
  intros Hc Hcfg Hf.
  rewrite (on_message_run env message contact cfg w Hc Hcfg), Hf. cbn [fst].
  exists (request_of env cfg message contact).
  split; [by rewrite outbox_finish, outbox_at_answer|].
  cbn [request_of webhook_request body payload_of base basePayload b_isGroup group].
  unfold is_group at 1. rewrite includes_spec. split; [done|].
  intros g. unfold group_of. destruct (is_group message) eqn:Eg; [|done].
  destruct (chat_answer env) as [e|chat]; [done|].
  intros [= <-]. split.
  - by apply includes_spec.
  - exists chat. split; [done|]. unfold group_info. by destruct (participants chat).
Qed.

Lemma group_events_witness :
  ∃ req,
    outbox (run env_200 (on_message message_group)
              (world_of (state_of (Some (config_to_json cfgB)) textB ∅))).1 = [req] ∧
    b_isGroup (base (body req)) = true.
Proof.
  destruct (group_events env_200 message_group contact1 cfgB
              (world_of (state_of (Some (config_to_json cfgB)) textB ∅))
              eq_refl eq_refl eq_refl) as (req & Ho & Hg & _).
  exists req. split; [exact Ho|].
  apply Hg. by exists "120363041234567890", "".
Defined.

(** ** The payload builder *)

(** X9. The [messageType] of a payload is [message.type] itself when
    the [switch] has a case for it, and ['unknown'] otherwise; in the
    latter case the content carries the body and [message.hasMedia].
    For an image the caption is the body as it is. *)
Theorem classify_types (message : Message) :
  (classify message).1 =
    (if bool_decide (type message ∈ switch_cases) then type message else "unknown") ∧
  (type message ∉ switch_cases →
     (classify message).2 = CUnknown (msg_body message) (hasMedia message)) ∧
  (type message = "image" →
     (classify message).2 = CImage (msg_body message) true "image").
Proof.
  assert (∀ s, str_or s "" = s) as Hor.
  { intros s. unfold str_or. destruct (String.eqb_spec s ""); by subst. }
  unfold classify, switch_cases. rewrite !Hor.
  repeat match goal with
  | |- context [String.eqb (type message) ?c] =>
      destruct (String.eqb_spec (type message) c) as [->|?]
  end;
  try (split; [by vm_compute | split; [|done]];
       intros Hn; exfalso; apply Hn; set_solver).
  split; [|split; [done|done]].
  rewrite bool_decide_eq_false_2; [done|].
  rewrite !elem_of_cons, elem_of_nil. intuition congruence.
Qed.

Lemma after_group_keeps_log (env : Env) (g : bool) (w : World) (x : LogEntry) :
  x ∈ log (store w) → x ∈ log (store (after_group env g w)).
Proof.
  intros Hx. unfold after_group. destruct g; [|done].
  destruct (chat_answer env);
    [apply add_entry_keeps_log|]; by apply waiting_keeps_log.
Qed.

(** X10. [prepareWebhookPayload] always returns a payload.  Its
    [quotedMessage] member is present exactly when the message has a
    quoted message and [getQuotedMessage] resolved; its [group] member
    exactly when the event is a group event and [getChat] resolved.  A
    rejected lookup leaves its warning in the log. *)
Theorem lookups_absorbed (env : Env) (message : Message) (contact : Contact)
  (isGroup : bool) (w : World) :
  ∃ w' p,
    run env (prepareWebhookPayload message contact isGroup) w = (w', inr p) ∧
    (∀ q, quotedMessage p = Some q ↔
          hasQuotedMsg message = true ∧ quoted_answer env = inr q) ∧
    (∀ g, group p = Some g ↔
          isGroup = true ∧ ∃ chat, chat_answer env = inr chat ∧ g = group_info chat) ∧
    (∀ e, hasQuotedMsg message = true → quoted_answer env = inl e →
          {| level := LWarn; msg := "Failed to get quoted message for webhook:";
             arg := ArgExn e |} ∈ log (store w')) ∧
    (∀ e, isGroup = true → chat_answer env = inl e →
          {| level := LWarn; msg := "Failed to get group information for webhook:";
             arg := ArgExn e |} ∈ log (store w')).
Proof.
  rewrite prepare_run. eexists _, _. split; [reflexivity|].
  cbn [quotedMessage group payload_of].
  split; [|split; [|split]].
  - intros q. unfold quoted_of.
    destruct (hasQuotedMsg message), (quoted_answer env); intuition congruence.
  - intros g. unfold group_of.
    change (λ chat : Chat, match participants chat with
                           | Some ps => map participant_info ps
                           | None => []
                           end)
      with (λ chat : Chat, map participant_info (default [] (participants chat))).
    destruct isGroup; [|split; [done | by intros [? _]]].
    destruct (chat_answer env) as [e|chat].
    + split; [done | by intros (_ & chat & ? & _)].
    + split.
      * intros [= <-]. split; [done|]. exists chat. split; [done|].
        unfold group_info. by destruct (participants chat).
      * intros (_ & chat' & [= <-] & ->). unfold group_info.
        by destruct (participants chat).
  - intros e Hq He. unfold prepared. apply after_group_keeps_log.
    unfold after_quoted. rewrite Hq, He. simpl.
    apply elem_of_app. right. by apply list_elem_of_singleton.
  - intros e -> He. unfold prepared, after_group. rewrite He. simpl.
    apply elem_of_app. right. by apply list_elem_of_singleton.
Qed.

Lemma before_at_split (user server : string) :
  "@"%char ∉ String.list_ascii_of_string user →
  before_at (user +:+ String "@" server) = user.
Proof.
  induction user as [|c user IH]; intros Hn; [done|].
  simpl in *. destruct (Ascii.eqb c "@") eqn:E.
  - apply Ascii.eqb_eq in E as ->. exfalso. apply Hn. apply list_elem_of_here.
  - f_equal. apply IH. intros Hin. apply Hn. by apply list_elem_of_further.
Qed.

Lemma before_at_whole (id : string) :
  "@"%char ∉ String.list_ascii_of_string id → before_at id = id.
Proof.
  induction id as [|c id IH]; intros Hn; [done|].
  simpl in *. destruct (Ascii.eqb c "@") eqn:E.
  - apply Ascii.eqb_eq in E as ->. exfalso. apply Hn. apply list_elem_of_here.
  - f_equal. apply IH. intros Hin. apply Hn. by apply list_elem_of_further.
Qed.

(** X11. The payload has a [mentions] member exactly when
    [mentionedIds] is a non-empty array.  It lists the mentioned ids in
    order, each with the part of the id before its first [@] as its
    number (the whole id when it has none). *)
Theorem mentions_numbers (env : Env) (message : Message) (contact : Contact)
  (isGroup : bool) (w : World) :
  ∃ w' p,
    run env (prepareWebhookPayload message contact isGroup) w = (w', inr p) ∧
    (mentions p = None ↔
       mentionedIds message = None ∨ mentionedIds message = Some []) ∧
    (∀ ms, mentions p = Some ms →
       mentionedIds message = Some (map m_id ms) ∧
       Forall (λ m,
         (∀ user server, "@"%char ∉ String.list_ascii_of_string user →
            m_id m = user +:+ String "@" server → m_number m = user) ∧
         ("@"%char ∉ String.list_ascii_of_string (m_id m) → m_number m = m_id m)) ms).
Proof.
  rewrite prepare_run. eexists _, _. split; [reflexivity|].
  cbn [mentions payload_of]. unfold mentions_of.
  destruct (mentionedIds message) as [[|i ids]|].
  - split; [split; [by right | done] | done].
  - split; [split; [done | by intros [|]]|]. intros ms [= <-]. split.
    + f_equal. simpl. f_equal. rewrite map_map. simpl. by rewrite map_id.
    + apply Forall_forall. intros m Hm. apply list_elem_of_In in Hm.
      change (In m (map (λ id, {| m_id := id; m_number := before_at id |}) (i :: ids)))
        in Hm.
      apply in_map_iff in Hm as (id & <- & _). simpl.
      split.
      * intros user server Hn ->. by apply before_at_split.
      * apply before_at_whole.
  - split; [split; [by left | done] | done].
Qed.

(** ** The webhook tools *)

(** X12. [test_webhook] always returns a result, having sent its one
    request.  The result is an error exactly when the request was
    rejected; a response of any status, 2xx or not, is reported as a
    completed test. *)
Theorem test_webhook_reports (env : Env) (now : Z) (url : string)
  (authToken : option string) (w : World) :
  ∃ r,
    run env (test_webhook now url authToken) w =
      (waiting env AtPost (send (webhook_request url authToken (testPayload now)) w),
       inr r) ∧
    (isError r = true ↔
       ∃ e, post_answer env (webhook_request url authToken (testPayload now)) = inl e) ∧
    (∀ response,
       post_answer env (webhook_request url authToken (testPayload now)) = inr response →
       r = ok (TestCompleted (status response) (statusText response))).
Proof.
  unfold test_webhook. rewrite run_ptry, run_pbind. cbn [await run answer].
  destruct (post_answer env (webhook_request url authToken (testPayload now)))
    as [e|response]; cbn [run].
  - eexists. split; [reflexivity|]. split; [|done]. split; [by eexists | done].
  - eexists. split; [reflexivity|]. split; [|by intros ? [= <-]].
    split; [done | by intros [? ?]].
Qed.

(** The update tool: the stored value in every case, and the files. *)
Lemma update_tool_run (path_dirname : string → string)
  (url : string) (authToken configPath : option string) (saveToFile : option bool)
  (filters : option Filters) (st : State) :
  let cfg := tool_config url authToken filters in
  let text := ser 0 (config_to_json cfg) in
  let s1 := (updateWebhookConfig (Some (config_to_json cfg))
               (default true saveToFile) st).1 in
  let r := update_webhook_config path_dirname url authToken configPath saveToFile
             filters st in
  currentWebhookConfig r.1 = Some (config_to_json cfg) ∧
  match (if default true saveToFile then truthy configPath else None) with
  | None => r.1 = s1 ∧ ∃ t, r.2 = inr (ok t)
  | Some custom =>
      if bool_decide (custom ∈ unwritable st) ||
         (negb (bool_decide (is_Some (files s1 !! path_dirname custom)) ||
                bool_decide (path_dirname custom ∈ dirs st)) &&
          bool_decide (path_dirname custom ∈ unwritable st))
      then files r.1 = files s1 ∧ ∃ e, r.2 = inr (failed (CustomPathFailed e))
      else files r.1 = <[custom := text]> (files s1) ∧
           (is_Some (files s1 !! path_dirname custom) ∨ path_dirname custom ∈ dirs r.1) ∧
           ∃ t, r.2 = inr (ok t)
  end.
Proof.
  cbv zeta.
  destruct (updateWebhookConfig_memory
              (Some (config_to_json (tool_config url authToken filters)))
              (default true saveToFile) st) as [Hm Hr].
  destruct (updateWebhookConfig_frame
              (Some (config_to_json (tool_config url authToken filters)))
              (default true saveToFile) st) as (_ & _ & Hd & Hu & _).
  unfold update_webhook_config, try_catch, bind.
  change {| Config.url := url; Config.authToken := authToken;
            Config.filters := _ |} with (tool_config url authToken filters).
  destruct (updateWebhookConfig (Some (config_to_json (tool_config url authToken filters)))
              (default true saveToFile) st) as [s1 [e|[]]]; [done|].
  cbn [fst snd] in *.
  destruct (default true saveToFile); [|split; [done|]; split; [done|by eexists]].
  destruct (truthy configPath) as [custom|]; [|split; [done|]; split; [done|by eexists]].
  unfold fs_existsSync, gets, fs_mkdirSync, fs_writeFileSync, ret. cbn [JSON_stringify].
  rewrite <- Hd, <- Hu.
  destruct (bool_decide (is_Some (files s1 !! path_dirname custom)) ||
            bool_decide (path_dirname custom ∈ dirs s1)) eqn:Eex; cbn [negb andb].
  - rewrite orb_false_r. cbn [unwritable set_dirs set_files files].
    destruct (bool_decide (custom ∈ unwritable s1)) eqn:Ec; cbn.
    + split; [done|]. split; [done | by eexists].
    + split; [done|]. split; [done|]. split; [|by eexists].
      apply orb_true_iff in Eex as [H|H]; apply bool_decide_eq_true in H; auto.
  - destruct (bool_decide (path_dirname custom ∈ unwritable s1)) eqn:Ed; cbn.
    + rewrite orb_true_r. split; [done|]. split; [done | by eexists].
    + rewrite orb_false_r.
      destruct (bool_decide (custom ∈ unwritable s1)) eqn:Ec; cbn.
      * split; [done|]. split; [done | by eexists].
      * split; [done|]. split; [done|]. split; [|by eexists].
        right. apply elem_of_union_l. by apply elem_of_singleton.
Qed.

(** X13. [update_webhook_config] always leaves its [newConfig] in
    memory: the given url and token, and the given filters completed
    with an empty [allowedNumbers] and [true] flags.  The completion
    changes no decision of the filter check; in particular, without
    [filters] every event passes. *)
Theorem update_tool_filters_neutral (path_dirname : string → string)
  (url : string) (authToken configPath : option string) (saveToFile : option bool)
  (filters : option Filters) (st : State) :
  currentWebhookConfig
    (update_webhook_config path_dirname url authToken configPath saveToFile
       filters st).1 = Some (config_to_json (tool_config url authToken filters)) ∧
  as_WebhookConfig (config_to_json (tool_config url authToken filters)) =
    Some (tool_config url authToken filters) ∧
  (∀ isGroup sender,
     filter_skips (tool_config url authToken filters) isGroup sender =
     filter_skips {| Config.url := url; Config.authToken := authToken;
                     Config.filters := filters |} isGroup sender) ∧
  (filters = None →
   ∀ isGroup sender,
     filter_skips (tool_config url authToken filters) isGroup sender = false).
Proof.
  split.
  { apply (update_tool_run path_dirname url authToken configPath saveToFile filters st). }
  split; [apply as_WebhookConfig_to_json|].
  assert (∀ isGroup sender,
     filter_skips (tool_config url authToken filters) isGroup sender =
     filter_skips {| Config.url := url; Config.authToken := authToken;
                     Config.filters := filters |} isGroup sender) as H.
  { intros isGroup sender. unfold filter_skips, tool_config. cbn.
    destruct filters as [[[l|] [[]|] [[]|]]|]; cbn; try reflexivity;
      destruct isGroup; reflexivity. }
  split; [exact H|].
  intros -> isGroup sender. rewrite H. unfold filter_skips. cbn.
  by destruct isGroup.
Qed.

(** X14. After [update_webhook_config], whatever it reports, the next
    event is checked against the given filters and, when it passes, is
    posted to the given url with the given token. *)
Theorem update_tool_takes_effect (path_dirname : string → string)
  (url : string) (authToken configPath : option string) (saveToFile : option bool)
  (filters : option Filters) (st : State) (sent : list (Request Payload))
  (env : Env) (message : Message) (contact : Contact) :
  contact_answer env = inr contact →
  meanwhile env AtContact = [] →
  let w := {| store := (update_webhook_config path_dirname url authToken configPath
                          saveToFile filters st).1;
              outbox := sent |} in
  if filter_skips {| Config.url := url; Config.authToken := authToken;
                     Config.filters := filters |}
       (is_group message) (number contact)
  then (run env (on_message message) w).2 = inr Skipped ∧
       outbox (run env (on_message message) w).1 = sent
  else (run env (on_message message) w).2 = inr Completed ∧
       outbox (run env (on_message message) w).1 =
         sent ++ [webhook_request url authToken
                    (payload_of env message contact (is_group message))].
Proof.
  intros Hc Hm. cbv zeta.
  destruct (update_tool_run path_dirname url authToken configPath saveToFile
              filters st) as [Hcfg _]. cbv zeta in Hcfg.
  set (r := update_webhook_config path_dirname url authToken configPath saveToFile
              filters st) in *.
  rewrite (on_message_run env message contact (tool_config url authToken filters)
             {| store := r.1; outbox := sent |} Hc).
  2: { unfold waiting. rewrite Hm. exact Hcfg. }
  assert (∀ g s, filter_skips (tool_config url authToken filters) g s =
                 filter_skips {| Config.url := url; Config.authToken := authToken;
                                 Config.filters := filters |} g s) as ->.
  { intros g s. unfold filter_skips, tool_config. cbn.
    destruct filters as [[[l|] [[]|] [[]|]]|]; cbn; try reflexivity;
      destruct g; reflexivity. }
  destruct (filter_skips _ (is_group message) (number contact)); cbn [fst snd].
  - done.
  - split; [done|]. by rewrite outbox_finish, outbox_at_answer.
Qed.

Lemma update_tool_takes_effect_witness :
  map req_url
    (outbox (run env_200 (on_message message_text)
               {| store := (update_webhook_config (λ _, "backup")
                              "https://other.test/hook" None None None None
                              (state_of (Some (config_to_json cfgA)) textA ∅)).1;
                  outbox := [] |}).1) =
    ["https://other.test/hook"].
Proof.
  pose proof (update_tool_takes_effect (λ _, "backup") "https://other.test/hook"
                None None None None (state_of (Some (config_to_json cfgA)) textA ∅)
                [] env_200 message_text contact1 eq_refl eq_refl) as H.
  cbv zeta in H.
  change (filter_skips _ (is_group message_text) (number contact1)) with false in H.
  destruct H as [_ ->]. reflexivity.
Defined.

(** The reload tool on a file that parses. *)
Lemma reload_tool_reads (configPath : option string) (text : string) (v : json)
  (st : State) :
  files st !! default ".wwebjs_auth/webhook.json" (truthy configPath) = Some text →
  JSON_parse text = Some v →
  currentWebhookConfig (reload_webhook_config configPath st).1 = Some v ∧
  (reload_webhook_config configPath st).2 =
    inr (ok (Reloaded (default ".wwebjs_auth/webhook.json" (truthy configPath))
               (Some (ser 0 v)))).
Proof.
  set (filePath := default ".wwebjs_auth/webhook.json" (truthy configPath)).
  intros Hf Hv.
  unfold_store reload_webhook_config. fold filePath.
  rewrite Hf. simpl. rewrite Hf. simpl. by rewrite Hv.
Qed.

Lemma truthy_nonempty (s : string) : s ≠ "" → truthy (Some s) = Some s.
Proof. intros Hs. unfold truthy. by destruct (String.eqb_spec s ""). Qed.

(** X15. With [saveToFile] not false, a writable backing file and a
    writable custom path, [update_webhook_config] reports success and
    leaves the same text in both files; the directory of the custom
    path exists afterwards, and [reload_webhook_config] on the custom
    path restores the same configuration. *)
Theorem update_tool_saves_both (path_dirname : string → string)
  (url custom p : string) (authToken : option string) (saveToFile : option bool)
  (filters : option Filters) (st : State) :
  default true saveToFile = true →
  webhookConfigPath st = Some p → p ≠ "" → p ∉ unwritable st →
  custom ≠ "" → custom ∉ unwritable st → path_dirname custom ∉ unwritable st →
  let cfg := tool_config url authToken filters in
  let r := update_webhook_config path_dirname url authToken (Some custom) saveToFile
             filters st in
  (∃ t, r.2 = inr (ok t)) ∧
  files r.1 = <[custom := ser 0 (config_to_json cfg)]>
                (<[p := ser 0 (config_to_json cfg)]> (files st)) ∧
  (fs_existsSync (Some (path_dirname custom)) r.1).2 = inr true ∧
  currentWebhookConfig (reload_webhook_config (Some custom) r.1).1 =
    Some (config_to_json cfg) ∧
  (reload_webhook_config (Some custom) r.1).2 =
    inr (ok (Reloaded custom (Some (ser 0 (config_to_json cfg))))).
Proof.
  intros Hs Hp Hne Hu Hc Hcu Hdu. cbv zeta.
  pose proof (update_tool_run path_dirname url authToken (Some custom) saveToFile
                filters st) as H.
  cbv zeta in H. rewrite Hs in H. destruct H as [Hm H].
  pose proof (truthy_nonempty custom Hc) as Ht.
  rewrite Ht in H.
  rewrite (bool_decide_eq_false_2 (custom ∈ unwritable st)) in H by done.
  rewrite (bool_decide_eq_false_2 (path_dirname custom ∈ unwritable st)) in H by done.
  rewrite andb_false_r in H. cbn [orb] in H.
  destruct H as (Hf & Hd & Hok).
  rewrite (updateWebhookConfig_saves _ p st Hp Hne Hu) in Hf, Hd.
  set (cfg := tool_config url authToken filters) in *.
  set (r := update_webhook_config path_dirname url authToken (Some custom) saveToFile
              filters st) in *.
  split; [done|]. split; [done|]. split.
  { unfold fs_existsSync, gets. cbn [snd]. f_equal.
    apply orb_true_iff. destruct Hd as [Hd|Hd].
    - left. apply bool_decide_eq_true.
      rewrite Hf. destruct (decide (custom = path_dirname custom)) as [<-|Hn].
      + rewrite lookup_insert_eq. by eexists.
      + by rewrite lookup_insert_ne.
    - right. by apply bool_decide_eq_true. }
  assert (files r.1 !! custom = Some (ser 0 (config_to_json cfg))) as Hl.
  { rewrite Hf. apply lookup_insert_eq. }
  destruct (reload_tool_reads (Some custom) (ser 0 (config_to_json cfg))
              (config_to_json cfg) r.1) as [H1 H2].
  { by rewrite Ht. }
  { apply config_text_roundtrip. }
  rewrite Ht in H2. done.
Qed.

Lemma update_tool_saves_both_witness :
  files (update_webhook_config (λ _, "backup") "https://example.test/hook" None
           (Some "backup/webhook.json") None None (state_of None textB ∅)).1 =
    <[ "backup/webhook.json" :=
         ser 0 (config_to_json (tool_config "https://example.test/hook" None None)) ]>
      (<[ "data/webhook.json" :=
            ser 0 (config_to_json (tool_config "https://example.test/hook" None None)) ]>
         (files (state_of None textB ∅))).
Proof.
  apply (update_tool_saves_both (λ _, "backup") "https://example.test/hook"
           "backup/webhook.json" "data/webhook.json" None None None
           (state_of None textB ∅)).
  - reflexivity.
  - reflexivity.
  - discriminate.
  - apply not_elem_of_empty.
  - discriminate.
  - apply not_elem_of_empty.
  - apply not_elem_of_empty.
Defined.

(** X16. When the write to the custom path fails,
    [update_webhook_config] answers with an error, yet the update is
    half done: the new configuration is in memory and has been written
    to the backing file (when that is known and writable); the custom
    file is as before. *)
Theorem update_tool_custom_failure (path_dirname : string → string)
  (url custom : string) (authToken : option string) (saveToFile : option bool)
  (filters : option Filters) (st : State) :
  default true saveToFile = true →
  custom ≠ "" →
  custom ∈ unwritable st →
  let cfg := tool_config url authToken filters in
  let r := update_webhook_config path_dirname url authToken (Some custom) saveToFile
             filters st in
  (∃ e, r.2 = inr (failed (CustomPathFailed e))) ∧
  currentWebhookConfig r.1 = Some (config_to_json cfg) ∧
  files r.1 !! custom = files st !! custom ∧
  (∀ p, webhookConfigPath st = Some p → p ≠ "" → p ∉ unwritable st →
        files r.1 !! p = Some (ser 0 (config_to_json cfg))).
Proof.
  intros Hs Hc Hcu. cbv zeta.
  pose proof (update_tool_run path_dirname url authToken (Some custom) saveToFile
                filters st) as H.
  cbv zeta in H. rewrite Hs in H. destruct H as [Hm H].
  rewrite (truthy_nonempty custom Hc) in H.
  rewrite (bool_decide_eq_true_2 (custom ∈ unwritable st)) in H by done.
  cbn [orb] in H. destruct H as [Hf He].
  split; [done|]. split; [done|]. rewrite Hf. split.
  - destruct (updateWebhookConfig_frame
                (Some (config_to_json (tool_config url authToken filters))) true st)
      as (_ & _ & _ & _ & Hq).
    destruct (decide (webhookConfigPath st = Some custom)) as [Hp|Hp];
      [|by apply Hq].
    assert (files (updateWebhookConfig
                     (Some (config_to_json (tool_config url authToken filters)))
                     true st).1 = files st) as ->; [|done].
    unfold_store updateWebhookConfig. rewrite Hp. simpl.
    destruct (String.eqb custom ""); [done|]. simpl.
    by rewrite bool_decide_eq_true_2.
  - intros p Hp Hne Hu.
    rewrite (updateWebhookConfig_saves _ p st Hp Hne Hu). apply lookup_insert_eq.
Qed.

Lemma update_tool_custom_failure_witness :
  (∃ e, (update_webhook_config (λ _, "backup") "https://example.test/hook" None
           (Some "backup/webhook.json") None None
           (state_of None textB {[ "backup/webhook.json" ]})).2 =
        inr (failed (CustomPathFailed e))) ∧
  files (update_webhook_config (λ _, "backup") "https://example.test/hook" None
           (Some "backup/webhook.json") None None
           (state_of None textB {[ "backup/webhook.json" ]})).1 !! "data/webhook.json" =
    Some (ser 0 (config_to_json (tool_config "https://example.test/hook" None None))).
Proof.
  destruct (update_tool_custom_failure (λ _, "backup") "https://example.test/hook"
              "backup/webhook.json" None None None
              (state_of None textB {[ "backup/webhook.json" ]}))
    as ([e He] & _ & _ & Hp).
  - reflexivity.
  - discriminate.
  - vm_compute. reflexivity.
  - split.
    + exists e. exact He.
    + apply Hp; [reflexivity | discriminate |].
      vm_compute. intros [=].
Defined.

(** The tool that reads the configuration, on any state. *)
Lemma get_tool_run (st : State) :
  get_current_webhook_config st =
  (st, inr match currentWebhookConfig st with
           | None =>
               Some {| get_text := NoActiveConfiguration; get_isError := false |}
           | Some v =>
               match falsy v with
               | Some true =>
                   Some {| get_text := NoActiveConfiguration; get_isError := false |}
               | Some false =>
                   Some {| get_text := CurrentConfiguration (Some (ser 0 v));
                           get_isError := false |}
               | None => None
               end
           end).
Proof.
  unfold get_current_webhook_config, getCurrentWebhookConfig, try_catch, bind, gets, ret.
  destruct (currentWebhookConfig st) as [v|]; [|done].
  by destruct (falsy v) as [[]|].
Qed.

Lemma disable_webhook_memory (saveToFile : option bool) (st : State) :
  currentWebhookConfig (disable_webhook saveToFile st).1 = None.
Proof.
  unfold disable_webhook, try_catch, bind, ret.
  destruct (updateWebhookConfig_memory None (default true saveToFile) st) as [Hm Hr].
  by destruct (updateWebhookConfig None (default true saveToFile) st) as [s1 [e|[]]].
Qed.

(** X17. [get_current_webhook_config] reports what
    [update_webhook_config] stored: its text is the configuration as
    formatted JSON, which parses back to the configuration.  After
    [disable_webhook] it reports that no configuration is active.  It
    changes nothing and reports no error. *)
Theorem get_tool_shows_stored (path_dirname : string → string)
  (url : string) (authToken configPath : option string)
  (saveToFile disableSave : option bool) (filters : option Filters) (st : State) :
  let cfg := tool_config url authToken filters in
  let r := update_webhook_config path_dirname url authToken configPath saveToFile
             filters st in
  get_current_webhook_config r.1 =
    (r.1, inr (Some {| get_text :=
                         CurrentConfiguration (Some (ser 0 (config_to_json cfg)));
                       get_isError := false |})) ∧
  JSON_parse (ser 0 (config_to_json cfg)) ≫= as_WebhookConfig = Some cfg ∧
  get_current_webhook_config (disable_webhook disableSave r.1).1 =
    ((disable_webhook disableSave r.1).1,
     inr (Some {| get_text := NoActiveConfiguration; get_isError := false |})).
Proof.
  cbv zeta.
  destruct (update_tool_run path_dirname url authToken configPath saveToFile
              filters st) as [Hm _].
  cbv zeta in Hm.
  split; [by rewrite get_tool_run, Hm|]. split.
  - rewrite config_text_roundtrip. apply as_WebhookConfig_to_json.
  - by rewrite get_tool_run, disable_webhook_memory.
Qed.

(** ** The backing path and its watcher *)

Lemma file_event_frame (p e : string) (st : State) :
  configWatcher (file_event p e st).1 = configWatcher st ∧
  webhookConfigPath (file_event p e st).1 = webhookConfigPath st.
Proof.
  unfold_store file_event.
  destruct (configWatcher st) as [[[q|] []]|] eqn:Ew; simpl; try done.
  destruct (String.eqb q p); simpl; [|done].
  unfold_store watcher_callback.
  destruct (String.eqb e "change"); simpl; [|done].
  destruct (webhookConfigPath st) as [r|] eqn:Ep; simpl; [|done].
  destruct (files st !! r) as [text|]; simpl; [|done].
  by destruct (JSON_parse text).
Qed.

Lemma run_tasks_frame (ts : list Task) (st : State) :
  configWatcher (run_tasks ts st) = configWatcher st ∧
  webhookConfigPath (run_tasks ts st) = webhookConfigPath st.
Proof.
  revert st. induction ts as [|t ts IH]; intros st; [done|].
  change (run_tasks (t :: ts) st) with (run_tasks ts (run_task t st)).
  destruct (IH (run_task t st)) as [-> ->].
  destruct t as [c s|p e|p text]; simpl.
  - by destruct (updateWebhookConfig_frame c s st) as (-> & -> & _).
  - apply file_event_frame.
  - done.
Qed.

Lemma answer_frame (env : Env) {X : Type} (a : Act X) (w : World) :
  configWatcher (store (answer env a w).1) = configWatcher (store w) ∧
  webhookConfigPath (store (answer env a w).1) = webhookConfigPath (store w).
Proof. destruct a; simpl; try done; apply run_tasks_frame. Qed.

Lemma run_frame {R : Type} (env : Env) (p : Prog R) (w : World) :
  configWatcher (store (run env p w).1) = configWatcher (store w) ∧
  webhookConfigPath (store (run env p w).1) = webhookConfigPath (store w).
Proof.
  revert w. induction p as [r|e|X a k IH]; intros w; [done..|].
  cbn [run]. destruct (answer_frame env a w) as [H1 H2].
  destruct (answer env a w) as [w' x]. simpl in *.
  destruct (IH x w') as [-> ->]. done.
Qed.

Lemma update_tool_frame (path_dirname : string → string)
  (url : string) (authToken configPath : option string) (saveToFile : option bool)
  (filters : option Filters) (st : State) :
  configWatcher (update_webhook_config path_dirname url authToken configPath
                   saveToFile filters st).1 = configWatcher st ∧
  webhookConfigPath (update_webhook_config path_dirname url authToken configPath
                       saveToFile filters st).1 = webhookConfigPath st.
Proof.
  unfold update_webhook_config, try_catch, bind.
  set (c := Some (config_to_json _)).
  destruct (updateWebhookConfig_frame c (default true saveToFile) st)
    as (Hw & Hp & _).
  destruct (updateWebhookConfig_memory c (default true saveToFile) st) as [_ Hr].
  destruct (updateWebhookConfig c (default true saveToFile) st) as [s1 [e|[]]];
    [done|]. cbn [fst snd] in *.
  destruct (default true saveToFile); [|done].
  destruct (truthy configPath) as [custom|]; [|done].
  unfold fs_existsSync, gets, fs_mkdirSync, fs_writeFileSync, ret.
  cbn [JSON_stringify].
  destruct (bool_decide (is_Some (files s1 !! path_dirname custom)) ||
            bool_decide (path_dirname custom ∈ dirs s1)); cbn [negb].
  - by destruct (bool_decide (custom ∈ unwritable s1)).
  - destruct (bool_decide (path_dirname custom ∈ unwritable s1)); [done|].
    cbn [unwritable set_dirs]. by destruct (bool_decide (custom ∈ unwritable s1)).
Qed.

Lemma disable_tool_frame (saveToFile : option bool) (st : State) :
  configWatcher (disable_webhook saveToFile st).1 = configWatcher st ∧
  webhookConfigPath (disable_webhook saveToFile st).1 = webhookConfigPath st.
Proof.
  unfold disable_webhook, try_catch, bind, ret.
  destruct (updateWebhookConfig_frame None (default true saveToFile) st)
    as (Hw & Hp & _).
  by destruct (updateWebhookConfig None (default true saveToFile) st) as [s1 [e|[]]].
Qed.

Lemma reload_tool_frame (configPath : option string) (st : State) :
  configWatcher (reload_webhook_config configPath st).1 = configWatcher st ∧
  webhookConfigPath (reload_webhook_config configPath st).1 = webhookConfigPath st.
Proof.
  set (filePath := default ".wwebjs_auth/webhook.json" (truthy configPath)).
  unfold_store reload_webhook_config. fold filePath.
  destruct (files st !! filePath) as [text|] eqn:Ef; simpl; rewrite ?Ef; simpl.
  - by destruct (JSON_parse text).
  - destruct (bool_decide (filePath ∈ dirs st)); simpl; rewrite ?Ef; done.
Qed.

(** After [loadWebhookConfig] an open watcher watches the new path,
    also when [fs.watch] has failed: the old watcher is closed by then. *)
Lemma loadWebhookConfig_at_follows (watch_error : string → option exn)
  (path_join : string → string → string) (dataPath : string) (st : State) :
  watcher_follows_path (loadWebhookConfig_at watch_error path_join dataPath st).1.
Proof.
  destruct (loadWebhookConfig_at_frame watch_error path_join dataPath st) as (Hp & _).
  intros w Hw Hc. rewrite Hp. revert Hw.
  rewrite loadWebhookConfig_at_unfold. cbn [fst]. rewrite setup_at_watcher.
  destruct (load_phase_fields path_join dataPath st) as (_ & -> & _).
  assert (∀ o : option Watcher,
            (λ old, {| watched := watched old; closed := true |}) <$> o = Some w →
            watched w = Some (path_join dataPath "webhook.json")) as Hold.
  { intros [old|] [= <-]. discriminate Hc. }
  destruct (present (path_join dataPath "webhook.json")
              (load_phase path_join dataPath st)),
    (watch_error (path_join dataPath "webhook.json")); try apply Hold.
  by intros [= <-].
Qed.

Lemma loadWebhookConfig_follows (path_join : string → string → string)
  (dataPath : string) (st : State) :
  watcher_follows_path (loadWebhookConfig path_join dataPath st).1.
Proof. apply loadWebhookConfig_at_follows. Qed.

Lemma apply_op_follows (path_join : string → string → string)
  (path_dirname : string → string) (o : Op) (st : State) :
  (is_start o = false →
     configWatcher (apply_op path_join path_dirname o st) = configWatcher st ∧
     webhookConfigPath (apply_op path_join path_dirname o st) = webhookConfigPath st) ∧
  (watcher_follows_path st →
     watcher_follows_path (apply_op path_join path_dirname o st)).
Proof.
  assert (∀ s', configWatcher s' = configWatcher st →
                webhookConfigPath s' = webhookConfigPath st →
                watcher_follows_path st → watcher_follows_path s') as Hkeep.
  { intros s' Hw Hp H w. rewrite Hw, Hp. apply H. }
  destruct o as [config|newConfig saveToFile|path eventType|path text|env message
                |url0 token configPath saveToFile filters0|
                |env now url0 token|saveToFile|configPath];
    cbn [apply_op is_start].
  - split; [done|]. intros _.
    destruct (createWhatsAppClient_unfold path_join config st) as (options & -> & _).
    cbv zeta. cbn [fst].
    set (dataPath := default ".wwebjs_auth" (truthy (authDataPath config))).
    pose proof (loadWebhookConfig_follows path_join dataPath st) as H.
    set (s1 := (loadWebhookConfig path_join dataPath st).1) in *.
    intros w. 
    match goal with
    | |- configWatcher ?s3 = _ → _ → _ = webhookConfigPath ?s3 =>
        assert (configWatcher s3 = configWatcher s1 ∧
                webhookConfigPath s3 = webhookConfigPath s1) as [-> ->]
    end; [|apply H].
    destruct (bool_decide _ || bool_decide _);
      [|destruct (bool_decide _)]; cbn;
      (destruct (files _ !! _); [destruct (bool_decide _)|]; done).
  - destruct (updateWebhookConfig_frame newConfig saveToFile st) as (Hw & Hp & _).
    split; [done | by apply Hkeep].
  - destruct (file_event_frame path eventType st) as [Hw Hp].
    split; [done | by apply Hkeep].
  - split; [done | by apply Hkeep].
  - destruct (run_frame env (on_message message) {| store := st; outbox := [] |})
      as [Hw Hp].
    split; [done | by apply Hkeep].
  - destruct (update_tool_frame path_dirname url0 token configPath saveToFile
                filters0 st) as [Hw Hp].
    split; [done | by apply Hkeep].
  - rewrite get_tool_run. split; [done | by apply Hkeep].
  - destruct (run_frame env (test_webhook now url0 token) {| store := st; outbox := [] |})
      as [Hw Hp].
    split; [done | by apply Hkeep].
  - destruct (disable_tool_frame saveToFile st) as [Hw Hp].
    split; [done | by apply Hkeep].
  - destruct (reload_tool_frame configPath st) as [Hw Hp].
    split; [done | by apply Hkeep].
Qed.

(** X18. Whatever is done with the two modules, in whatever order
    (start the client, update, handle a message, call a tool) and
    whatever the file system reports, the watcher that is open watches
    the backing path.  Only starting the client sets the
    backing path or replaces the watcher: every other operation leaves
    both as they are. *)
Theorem watcher_follows (path_join : string → string → string)
  (path_dirname : string → string) (ops : list Op) (st : State) :
  (Forall (λ o, is_start o = false) ops →
     configWatcher (apply_ops path_join path_dirname ops st) = configWatcher st ∧
     webhookConfigPath (apply_ops path_join path_dirname ops st) =
       webhookConfigPath st) ∧
  (watcher_follows_path st →
     watcher_follows_path (apply_ops path_join path_dirname ops st)) ∧
  (configWatcher st = None →
     ∀ p, configWatcher (apply_ops path_join path_dirname ops st) =
            Some {| watched := p; closed := false |} →
          p = webhookConfigPath (apply_ops path_join path_dirname ops st)).
Proof.
  assert (∀ s, watcher_follows_path s →
               watcher_follows_path (apply_ops path_join path_dirname ops s)) as Hinv.
  { induction ops as [|o ops IH]; intros s H; [done|].
    apply IH. by apply apply_op_follows. }
  split; [|split; [apply Hinv|]].
  - intros Hops. clear Hinv. revert st.
    induction Hops as [|o ops Ho Hops IH]; intros st; [done|].
    change (apply_ops path_join path_dirname (o :: ops) st)
      with (apply_ops path_join path_dirname ops
              (apply_op path_join path_dirname o st)).
    destruct (IH (apply_op path_join path_dirname o st)) as [-> ->].
    by apply apply_op_follows.
  - intros Hn p Hw.
    assert (watcher_follows_path st) as H0.
    { intros w Hw0. congruence. }
    apply (Hinv st H0 _ Hw). done.
Qed.

(** ** Across tools and restarts *)

Lemma updateWebhookConfig_unsaved (c : option json) (st : State) :
  files (updateWebhookConfig c false st).1 = files st.
Proof. by unfold_store updateWebhookConfig. Qed.

(** What starting the client leaves in the state. *)
Lemma createWhatsAppClient_state (path_join : string → string → string)
  (config : WhatsAppConfig) (st : State) :
  let dataPath := default ".wwebjs_auth" (truthy (authDataPath config)) in
  let s := (createWhatsAppClient path_join config st).1 in
  webhookConfigPath s = Some (path_join dataPath "webhook.json") ∧
  currentWebhookConfig s =
    files st !! path_join dataPath "webhook.json" ≫= JSON_parse ∧
  unwritable s = unwritable st ∧
  (∀ q, files st !! q = None → files s !! q = None).
Proof.
  cbv zeta.
  destruct (createWhatsAppClient_unfold path_join config st) as (options & -> & _).
  cbv zeta. cbn [fst].
  set (dataPath := default ".wwebjs_auth" (truthy (authDataPath config))).
  set (media := default (path_join dataPath "media") (truthy (mediaStoragePath config))).
  set (lock := dataPath +:+ "/SingletonLock").
  destruct (loadWebhookConfig_frame path_join dataPath st) as (Hp & Hf & Hd & Hu).
  destruct (loadWebhookConfig_returns path_join dataPath st) as [_ Hc].
  set (s1 := (loadWebhookConfig path_join dataPath st).1) in *.
  set (s2 := if bool_decide (is_Some (files s1 !! media)) || bool_decide (media ∈ dirs s1)
             then s1 else _).
  assert (webhookConfigPath s2 = webhookConfigPath s1 ∧
          currentWebhookConfig s2 = currentWebhookConfig s1 ∧
          files s2 = files st ∧ unwritable s2 = unwritable st)
    as (Hp2 & Hc2 & Hf2 & Hu2).
  { subst s2.
    destruct (bool_decide (is_Some (files s1 !! media)) || bool_decide (media ∈ dirs s1));
      [done|].
    by destruct (bool_decide (media ∈ unwritable s1)). }
  clearbody s2.
  destruct (files s2 !! lock) as [t|] eqn:El;
    [destruct (bool_decide (lock ∈ unwritable s2))|]; cbn;
    (split; [congruence|]); (split; [congruence|]); (split; [done|]);
    intros q Hq; rewrite ?Hf2; try done.
  destruct (decide (q = lock)) as [->|Hn].
  - apply lookup_delete_eq.
  - by rewrite lookup_delete_ne.
Qed.

(** The reload tool on a path where there is no file. *)
Lemma reload_tool_missing (configPath : option string) (st : State) :
  files st !! default ".wwebjs_auth/webhook.json" (truthy configPath) = None →
  (reload_webhook_config configPath st).1 = st ∧
  ∃ t, (reload_webhook_config configPath st).2 = inr (failed t).
Proof.
  set (filePath := default ".wwebjs_auth/webhook.json" (truthy configPath)).
  intros Hf.
  unfold_store reload_webhook_config. fold filePath.
  rewrite Hf. simpl.
  destruct (bool_decide (filePath ∈ dirs st)); simpl; rewrite ?Hf; simpl;
    (split; [done | by eexists]).
Qed.

(** X19. A client started on the default data path, the update tool
    and the reload tool without a path agree on the file: what the
    update tool saved is what the reload tool reads back. *)
Theorem reload_default_agrees (path_join : string → string → string)
  (path_dirname : string → string) (config : WhatsAppConfig)
  (url : string) (authToken : option string) (saveToFile : option bool)
  (filters : option Filters) (st : State) :
  path_join ".wwebjs_auth" "webhook.json" = ".wwebjs_auth/webhook.json" →
  truthy (authDataPath config) = None →
  default true saveToFile = true →
  ".wwebjs_auth/webhook.json" ∉ unwritable st →
  let s1 := (createWhatsAppClient path_join config st).1 in
  let s2 := (update_webhook_config path_dirname url authToken None saveToFile
               filters s1).1 in
  currentWebhookConfig (reload_webhook_config None s2).1 =
    Some (config_to_json (tool_config url authToken filters)) ∧
  (reload_webhook_config None s2).2 =
    inr (ok (Reloaded ".wwebjs_auth/webhook.json"
               (Some (ser 0 (config_to_json (tool_config url authToken filters)))))).
Proof.
  intros Hj Ha Hs Hu. cbv zeta.
  destruct (createWhatsAppClient_state path_join config st) as (Hp & _ & Hu1 & _).
  cbv zeta in Hp, Hu1. rewrite Ha in Hp. cbn [default] in Hp. rewrite Hj in Hp.
  set (s1 := (createWhatsAppClient path_join config st).1) in *.
  destruct (update_tool_run path_dirname url authToken None saveToFile filters s1)
    as [_ H].
  cbv zeta in H. rewrite Hs in H. cbn [truthy] in H. destruct H as [H _].
  set (s2 := (update_webhook_config path_dirname url authToken None saveToFile
                filters s1).1) in *.
  apply (reload_tool_reads None
           (ser 0 (config_to_json (tool_config url authToken filters)))).
  - cbn [truthy default]. rewrite H.
    rewrite (updateWebhookConfig_saves _ ".wwebjs_auth/webhook.json" s1);
      [apply lookup_insert_eq | done | done | by rewrite Hu1].
  - apply config_text_roundtrip.
Qed.

Lemma reload_default_agrees_witness :
  currentWebhookConfig
    (reload_webhook_config None
       (update_webhook_config (λ _, "backup") "https://other.test/hook" None None
          None None
          (createWhatsAppClient join
             {| authDataPath := None; authStrategy := None;
                dockerContainer := None; mediaStoragePath := None |} no_file).1).1).1 =
    Some (config_to_json (tool_config "https://other.test/hook" None None)).
Proof.
  apply (reload_default_agrees join (λ _, "backup")
           {| authDataPath := None; authStrategy := None;
              dockerContainer := None; mediaStoragePath := None |}
           "https://other.test/hook" None None None no_file).
  - reflexivity.
  - reflexivity.
  - reflexivity.
  - apply not_elem_of_empty.
Defined.

(** X20. A client started on another data path saves to
    [webhook.json] under that path, where the reload tool without a
    path does not look: with nothing at [.wwebjs_auth/webhook.json] it
    answers with an error and leaves the state, with the configuration
    just set, as it is. *)
Theorem reload_default_misses (path_join : string → string → string)
  (path_dirname : string → string) (config : WhatsAppConfig) (dataPath : string)
  (url : string) (authToken : option string) (saveToFile : option bool)
  (filters : option Filters) (st : State) :
  truthy (authDataPath config) = Some dataPath →
  path_join dataPath "webhook.json" ≠ ".wwebjs_auth/webhook.json" →
  files st !! ".wwebjs_auth/webhook.json" = None →
  let s1 := (createWhatsAppClient path_join config st).1 in
  let s2 := (update_webhook_config path_dirname url authToken None saveToFile
               filters s1).1 in
  (reload_webhook_config None s2).1 = s2 ∧
  currentWebhookConfig s2 = Some (config_to_json (tool_config url authToken filters)) ∧
  ∃ t, (reload_webhook_config None s2).2 = inr (failed t).
Proof.
  intros Ha Hn Hf. cbv zeta.
  destruct (createWhatsAppClient_state path_join config st) as (Hp & _ & _ & Hq).
  cbv zeta in Hp, Hq. rewrite Ha in Hp.
  change (default ".wwebjs_auth" (Some dataPath)) with dataPath in Hp.
  set (s1 := (createWhatsAppClient path_join config st).1) in *.
  destruct (update_tool_run path_dirname url authToken None saveToFile filters s1)
    as [Hm H].
  cbv zeta in Hm, H.
  assert ((if default true saveToFile then truthy None else None) = @None string) as E.
  { by destruct (default true saveToFile). }
  rewrite E in H. destruct H as [H _].
  set (s2 := (update_webhook_config path_dirname url authToken None saveToFile
                filters s1).1) in *.
  destruct (reload_tool_missing None s2) as [H1 H2].
  { cbn [truthy default]. rewrite H.
    destruct (updateWebhookConfig_frame
                (Some (config_to_json (tool_config url authToken filters)))
                (default true saveToFile) s1) as (_ & _ & _ & _ & Hx).
    rewrite Hx; [by apply Hq|]. rewrite Hp. congruence. }
  done.
Qed.

Lemma reload_default_misses_witness :
  ∃ t,
    (reload_webhook_config None
       (update_webhook_config (λ _, "backup") "https://other.test/hook" None None
          None None
          (createWhatsAppClient join
             {| authDataPath := Some "data"; authStrategy := None;
                dockerContainer := None; mediaStoragePath := None |} no_file).1).1).2 =
    inr (failed t).
Proof.
  apply (reload_default_misses join (λ _, "backup")
           {| authDataPath := Some "data"; authStrategy := None;
              dockerContainer := None; mediaStoragePath := None |} "data"
           "https://other.test/hook" None None None no_file).
  - reflexivity.
  - discriminate.
  - reflexivity.
Defined.

(** X21. A restart brings back what was saved and forgets what was
    not: after [update_webhook_config] with [saveToFile] true,
    [createWhatsAppClient] with the same data path loads the new
    configuration; after [update_webhook_config] with [saveToFile]
    false it loads what the file held before. *)
Theorem restart_restores_saved (path_join : string → string → string)
  (path_dirname : string → string) (config : WhatsAppConfig)
  (url : string) (authToken : option string) (filters : option Filters)
  (st : State) :
  let p := path_join (default ".wwebjs_auth" (truthy (authDataPath config)))
             "webhook.json" in
  webhookConfigPath st = Some p →
  p ≠ "" →
  p ∉ unwritable st →
  currentWebhookConfig
    (createWhatsAppClient path_join config
       (update_webhook_config path_dirname url authToken None (Some true)
          filters st).1).1 =
    Some (config_to_json (tool_config url authToken filters)) ∧
  currentWebhookConfig
    (createWhatsAppClient path_join config
       (update_webhook_config path_dirname url authToken None (Some false)
          filters st).1).1 =
    files st !! p ≫= JSON_parse.
Proof.
  cbv zeta. intros Hp Hne Hu. split.
  - destruct (update_tool_run path_dirname url authToken None (Some true) filters st)
      as [_ H].
    cbv zeta in H. cbn [default truthy] in H. destruct H as [H _].
    destruct (createWhatsAppClient_state path_join config
                (update_webhook_config path_dirname url authToken None (Some true)
                   filters st).1) as (_ & -> & _).
    rewrite H, (updateWebhookConfig_saves _ _ st Hp Hne Hu), lookup_insert_eq.
    cbn [mbind option_bind]. by rewrite config_text_roundtrip.
  - destruct (update_tool_run path_dirname url authToken None (Some false) filters st)
      as [_ H].
    cbv zeta in H. cbn [default] in H. destruct H as [H _].
    destruct (createWhatsAppClient_state path_join config
                (update_webhook_config path_dirname url authToken None (Some false)
                   filters st).1) as (_ & -> & _).
    by rewrite H, updateWebhookConfig_unsaved.
Qed.

Lemma restart_restores_saved_witness :
  currentWebhookConfig
    (createWhatsAppClient join
       {| authDataPath := Some "data"; authStrategy := None;
          dockerContainer := None; mediaStoragePath := None |}
       (update_webhook_config (λ _, "backup") "https://other.test/hook" None None
          (Some false) None (state_of None textA ∅)).1).1 =
    Some (config_to_json cfgA).
Proof.
  destruct (restart_restores_saved join (λ _, "backup")
              {| authDataPath := Some "data"; authStrategy := None;
                 dockerContainer := None; mediaStoragePath := None |}
              "https://other.test/hook" None None (state_of None textA ∅))
    as [_ H].
  - reflexivity.
  - discriminate.
  - apply not_elem_of_empty.
  - rewrite H. vm_compute. reflexivity.
Defined.

(** ** The client with a configuration read once *)



